(** * Route-manifest extraction pipeline (app.py): embedding and properties

    The development follows the Python source function by function.
    Python [str] values are lists of Unicode code points, [bytes] values
    are lists of [byte]; exceptions are an explicit [result] type; the
    regular expressions of the program are terms of a small backtracking
    matcher that follows the search order of Python's [re] module. *)

From Stdlib Require Import ZArith List Bool Lia String Ascii.
From Stdlib Require Import Strings.Byte.
From Stdlib Require Import SpecFloat.
Import ListNotations.
Open Scope Z_scope.

Set Implicit Arguments.

(** ** Text and the Unicode character database *)

Definition char := Z.
Definition str := list char.

(** A string literal of the source, as code points (ASCII only). *)
Definition lit (s : string) : str :=
  map (fun a => Z.of_N (N_of_ascii a)) (list_ascii_of_string s).

Module Unicode.

(** Tables of the Unicode character database (version 14.0.0, the one of
    CPython 3.11) behind [str.isspace], [str.isdecimal], [str.isalnum]
    and the simple lower-case mapping used by [re.IGNORECASE]. *)

Definition in_ranges (tbl : list (Z * Z)) (c : char) : bool :=
  existsb (fun r => (fst r <=? c) && (c <=? snd r)) tbl.

Definition space_ranges : list (Z * Z) :=
  [(9, 13); (28, 32); (133, 133); (160, 160); (5760, 5760); (8192, 8202);
   (8232, 8233); (8239, 8239); (8287, 8287); (12288, 12288)].

Definition isspace (c : char) : bool := in_ranges space_ranges c.

(** Code points of the digit zero of every decimal script; the digits
    one to nine follow each of them. *)
Definition decimal_zeros : list Z :=
 [
  48; 1632; 1776; 1984; 2406; 2534; 2662; 2790; 2918; 3046; 3174; 3302;
  3430; 3558; 3664; 3792; 3872; 4160; 4240; 6112; 6160; 6470; 6608; 6784;
  6800; 6992; 7088; 7232; 7248; 42528; 43216; 43264; 43472; 43504; 43600;
  44016; 65296; 66720; 68912; 69734; 69872; 69942; 70096; 70384; 70736;
  70864; 71248; 71360; 71472; 71904; 72016; 72784; 73040; 73120; 92768;
  92864; 93008; 120782; 120792; 120802; 120812; 120822; 123200; 123632;
  125264; 130032
 ].

Definition todecimal (c : char) : option Z :=
  match find (fun z => (z <=? c) && (c <=? z + 9)) decimal_zeros with
  | Some z => Some (c - z)
  | None => None
  end.

Definition isdecimal (c : char) : bool :=
  match todecimal c with Some _ => true | None => false end.

Definition alnum_ranges : list (Z * Z) :=
 [
  (48, 57); (65, 90); (97, 122); (170, 170); (178, 179); (181, 181); (185,
  186); (188, 190); (192, 214); (216, 246); (248, 705); (710, 721); (736,
  740); (748, 748); (750, 750); (880, 884); (886, 887); (890, 893); (895,
  895); (902, 902); (904, 906); (908, 908); (910, 929); (931, 1013);
  (1015, 1153); (1162, 1327); (1329, 1366); (1369, 1369); (1376, 1416);
  (1488, 1514); (1519, 1522); (1568, 1610); (1632, 1641); (1646, 1647);
  (1649, 1747); (1749, 1749); (1765, 1766); (1774, 1788); (1791, 1791);
  (1808, 1808); (1810, 1839); (1869, 1957); (1969, 1969); (1984, 2026);
  (2036, 2037); (2042, 2042); (2048, 2069); (2074, 2074); (2084, 2084);
  (2088, 2088); (2112, 2136); (2144, 2154); (2160, 2183); (2185, 2190);
  (2208, 2249); (2308, 2361); (2365, 2365); (2384, 2384); (2392, 2401);
  (2406, 2415); (2417, 2432); (2437, 2444); (2447, 2448); (2451, 2472);
  (2474, 2480); (2482, 2482); (2486, 2489); (2493, 2493); (2510, 2510);
  (2524, 2525); (2527, 2529); (2534, 2545); (2548, 2553); (2556, 2556);
  (2565, 2570); (2575, 2576); (2579, 2600); (2602, 2608); (2610, 2611);
  (2613, 2614); (2616, 2617); (2649, 2652); (2654, 2654); (2662, 2671);
  (2674, 2676); (2693, 2701); (2703, 2705); (2707, 2728); (2730, 2736);
  (2738, 2739); (2741, 2745); (2749, 2749); (2768, 2768); (2784, 2785);
  (2790, 2799); (2809, 2809); (2821, 2828); (2831, 2832); (2835, 2856);
  (2858, 2864); (2866, 2867); (2869, 2873); (2877, 2877); (2908, 2909);
  (2911, 2913); (2918, 2927); (2929, 2935); (2947, 2947); (2949, 2954);
  (2958, 2960); (2962, 2965); (2969, 2970); (2972, 2972); (2974, 2975);
  (2979, 2980); (2984, 2986); (2990, 3001); (3024, 3024); (3046, 3058);
  (3077, 3084); (3086, 3088); (3090, 3112); (3114, 3129); (3133, 3133);
  (3160, 3162); (3165, 3165); (3168, 3169); (3174, 3183); (3192, 3198);
  (3200, 3200); (3205, 3212); (3214, 3216); (3218, 3240); (3242, 3251);
  (3253, 3257); (3261, 3261); (3293, 3294); (3296, 3297); (3302, 3311);
  (3313, 3314); (3332, 3340); (3342, 3344); (3346, 3386); (3389, 3389);
  (3406, 3406); (3412, 3414); (3416, 3425); (3430, 3448); (3450, 3455);
  (3461, 3478); (3482, 3505); (3507, 3515); (3517, 3517); (3520, 3526);
  (3558, 3567); (3585, 3632); (3634, 3635); (3648, 3654); (3664, 3673);
  (3713, 3714); (3716, 3716); (3718, 3722); (3724, 3747); (3749, 3749);
  (3751, 3760); (3762, 3763); (3773, 3773); (3776, 3780); (3782, 3782);
  (3792, 3801); (3804, 3807); (3840, 3840); (3872, 3891); (3904, 3911);
  (3913, 3948); (3976, 3980); (4096, 4138); (4159, 4169); (4176, 4181);
  (4186, 4189); (4193, 4193); (4197, 4198); (4206, 4208); (4213, 4225);
  (4238, 4238); (4240, 4249); (4256, 4293); (4295, 4295); (4301, 4301);
  (4304, 4346); (4348, 4680); (4682, 4685); (4688, 4694); (4696, 4696);
  (4698, 4701); (4704, 4744); (4746, 4749); (4752, 4784); (4786, 4789);
  (4792, 4798); (4800, 4800); (4802, 4805); (4808, 4822); (4824, 4880);
  (4882, 4885); (4888, 4954); (4969, 4988); (4992, 5007); (5024, 5109);
  (5112, 5117); (5121, 5740); (5743, 5759); (5761, 5786); (5792, 5866);
  (5870, 5880); (5888, 5905); (5919, 5937); (5952, 5969); (5984, 5996);
  (5998, 6000); (6016, 6067); (6103, 6103); (6108, 6108); (6112, 6121);
  (6128, 6137); (6160, 6169); (6176, 6264); (6272, 6276); (6279, 6312);
  (6314, 6314); (6320, 6389); (6400, 6430); (6470, 6509); (6512, 6516);
  (6528, 6571); (6576, 6601); (6608, 6618); (6656, 6678); (6688, 6740);
  (6784, 6793); (6800, 6809); (6823, 6823); (6917, 6963); (6981, 6988);
  (6992, 7001); (7043, 7072); (7086, 7141); (7168, 7203); (7232, 7241);
  (7245, 7293); (7296, 7304); (7312, 7354); (7357, 7359); (7401, 7404);
  (7406, 7411); (7413, 7414); (7418, 7418); (7424, 7615); (7680, 7957);
  (7960, 7965); (7968, 8005); (8008, 8013); (8016, 8023); (8025, 8025);
  (8027, 8027); (8029, 8029); (8031, 8061); (8064, 8116); (8118, 8124);
  (8126, 8126); (8130, 8132); (8134, 8140); (8144, 8147); (8150, 8155);
  (8160, 8172); (8178, 8180); (8182, 8188); (8304, 8305); (8308, 8313);
  (8319, 8329); (8336, 8348); (8450, 8450); (8455, 8455); (8458, 8467);
  (8469, 8469); (8473, 8477); (8484, 8484); (8486, 8486); (8488, 8488);
  (8490, 8493); (8495, 8505); (8508, 8511); (8517, 8521); (8526, 8526);
  (8528, 8585); (9312, 9371); (9450, 9471); (10102, 10131); (11264,
  11492); (11499, 11502); (11506, 11507); (11517, 11517); (11520, 11557);
  (11559, 11559); (11565, 11565); (11568, 11623); (11631, 11631); (11648,
  11670); (11680, 11686); (11688, 11694); (11696, 11702); (11704, 11710);
  (11712, 11718); (11720, 11726); (11728, 11734); (11736, 11742); (11823,
  11823); (12293, 12295); (12321, 12329); (12337, 12341); (12344, 12348);
  (12353, 12438); (12445, 12447); (12449, 12538); (12540, 12543); (12549,
  12591); (12593, 12686); (12690, 12693); (12704, 12735); (12784, 12799);
  (12832, 12841); (12872, 12879); (12881, 12895); (12928, 12937); (12977,
  12991); (13312, 19903); (19968, 42124); (42192, 42237); (42240, 42508);
  (42512, 42539); (42560, 42606); (42623, 42653); (42656, 42735); (42775,
  42783); (42786, 42888); (42891, 42954); (42960, 42961); (42963, 42963);
  (42965, 42969); (42994, 43009); (43011, 43013); (43015, 43018); (43020,
  43042); (43056, 43061); (43072, 43123); (43138, 43187); (43216, 43225);
  (43250, 43255); (43259, 43259); (43261, 43262); (43264, 43301); (43312,
  43334); (43360, 43388); (43396, 43442); (43471, 43481); (43488, 43492);
  (43494, 43518); (43520, 43560); (43584, 43586); (43588, 43595); (43600,
  43609); (43616, 43638); (43642, 43642); (43646, 43695); (43697, 43697);
  (43701, 43702); (43705, 43709); (43712, 43712); (43714, 43714); (43739,
  43741); (43744, 43754); (43762, 43764); (43777, 43782); (43785, 43790);
  (43793, 43798); (43808, 43814); (43816, 43822); (43824, 43866); (43868,
  43881); (43888, 44002); (44016, 44025); (44032, 55203); (55216, 55238);
  (55243, 55291); (63744, 64109); (64112, 64217); (64256, 64262); (64275,
  64279); (64285, 64285); (64287, 64296); (64298, 64310); (64312, 64316);
  (64318, 64318); (64320, 64321); (64323, 64324); (64326, 64433); (64467,
  64829); (64848, 64911); (64914, 64967); (65008, 65019); (65136, 65140);
  (65142, 65276); (65296, 65305); (65313, 65338); (65345, 65370); (65382,
  65470); (65474, 65479); (65482, 65487); (65490, 65495); (65498, 65500);
  (65536, 65547); (65549, 65574); (65576, 65594); (65596, 65597); (65599,
  65613); (65616, 65629); (65664, 65786); (65799, 65843); (65856, 65912);
  (65930, 65931); (66176, 66204); (66208, 66256); (66273, 66299); (66304,
  66339); (66349, 66378); (66384, 66421); (66432, 66461); (66464, 66499);
  (66504, 66511); (66513, 66517); (66560, 66717); (66720, 66729); (66736,
  66771); (66776, 66811); (66816, 66855); (66864, 66915); (66928, 66938);
  (66940, 66954); (66956, 66962); (66964, 66965); (66967, 66977); (66979,
  66993); (66995, 67001); (67003, 67004); (67072, 67382); (67392, 67413);
  (67424, 67431); (67456, 67461); (67463, 67504); (67506, 67514); (67584,
  67589); (67592, 67592); (67594, 67637); (67639, 67640); (67644, 67644);
  (67647, 67669); (67672, 67702); (67705, 67742); (67751, 67759); (67808,
  67826); (67828, 67829); (67835, 67867); (67872, 67897); (67968, 68023);
  (68028, 68047); (68050, 68096); (68112, 68115); (68117, 68119); (68121,
  68149); (68160, 68168); (68192, 68222); (68224, 68255); (68288, 68295);
  (68297, 68324); (68331, 68335); (68352, 68405); (68416, 68437); (68440,
  68466); (68472, 68497); (68521, 68527); (68608, 68680); (68736, 68786);
  (68800, 68850); (68858, 68899); (68912, 68921); (69216, 69246); (69248,
  69289); (69296, 69297); (69376, 69415); (69424, 69445); (69457, 69460);
  (69488, 69505); (69552, 69579); (69600, 69622); (69635, 69687); (69714,
  69743); (69745, 69746); (69749, 69749); (69763, 69807); (69840, 69864);
  (69872, 69881); (69891, 69926); (69942, 69951); (69956, 69956); (69959,
  69959); (69968, 70002); (70006, 70006); (70019, 70066); (70081, 70084);
  (70096, 70106); (70108, 70108); (70113, 70132); (70144, 70161); (70163,
  70187); (70272, 70278); (70280, 70280); (70282, 70285); (70287, 70301);
  (70303, 70312); (70320, 70366); (70384, 70393); (70405, 70412); (70415,
  70416); (70419, 70440); (70442, 70448); (70450, 70451); (70453, 70457);
  (70461, 70461); (70480, 70480); (70493, 70497); (70656, 70708); (70727,
  70730); (70736, 70745); (70751, 70753); (70784, 70831); (70852, 70853);
  (70855, 70855); (70864, 70873); (71040, 71086); (71128, 71131); (71168,
  71215); (71236, 71236); (71248, 71257); (71296, 71338); (71352, 71352);
  (71360, 71369); (71424, 71450); (71472, 71483); (71488, 71494); (71680,
  71723); (71840, 71922); (71935, 71942); (71945, 71945); (71948, 71955);
  (71957, 71958); (71960, 71983); (71999, 71999); (72001, 72001); (72016,
  72025); (72096, 72103); (72106, 72144); (72161, 72161); (72163, 72163);
  (72192, 72192); (72203, 72242); (72250, 72250); (72272, 72272); (72284,
  72329); (72349, 72349); (72368, 72440); (72704, 72712); (72714, 72750);
  (72768, 72768); (72784, 72812); (72818, 72847); (72960, 72966); (72968,
  72969); (72971, 73008); (73030, 73030); (73040, 73049); (73056, 73061);
  (73063, 73064); (73066, 73097); (73112, 73112); (73120, 73129); (73440,
  73458); (73648, 73648); (73664, 73684); (73728, 74649); (74752, 74862);
  (74880, 75075); (77712, 77808); (77824, 78894); (82944, 83526); (92160,
  92728); (92736, 92766); (92768, 92777); (92784, 92862); (92864, 92873);
  (92880, 92909); (92928, 92975); (92992, 92995); (93008, 93017); (93019,
  93025); (93027, 93047); (93053, 93071); (93760, 93846); (93952, 94026);
  (94032, 94032); (94099, 94111); (94176, 94177); (94179, 94179); (94208,
  100343); (100352, 101589); (101632, 101640); (110576, 110579); (110581,
  110587); (110589, 110590); (110592, 110882); (110928, 110930); (110948,
  110951); (110960, 111355); (113664, 113770); (113776, 113788); (113792,
  113800); (113808, 113817); (119520, 119539); (119648, 119672); (119808,
  119892); (119894, 119964); (119966, 119967); (119970, 119970); (119973,
  119974); (119977, 119980); (119982, 119993); (119995, 119995); (119997,
  120003); (120005, 120069); (120071, 120074); (120077, 120084); (120086,
  120092); (120094, 120121); (120123, 120126); (120128, 120132); (120134,
  120134); (120138, 120144); (120146, 120485); (120488, 120512); (120514,
  120538); (120540, 120570); (120572, 120596); (120598, 120628); (120630,
  120654); (120656, 120686); (120688, 120712); (120714, 120744); (120746,
  120770); (120772, 120779); (120782, 120831); (122624, 122654); (123136,
  123180); (123191, 123197); (123200, 123209); (123214, 123214); (123536,
  123565); (123584, 123627); (123632, 123641); (124896, 124902); (124904,
  124907); (124909, 124910); (124912, 124926); (124928, 125124); (125127,
  125135); (125184, 125251); (125259, 125259); (125264, 125273); (126065,
  126123); (126125, 126127); (126129, 126132); (126209, 126253); (126255,
  126269); (126464, 126467); (126469, 126495); (126497, 126498); (126500,
  126500); (126503, 126503); (126505, 126514); (126516, 126519); (126521,
  126521); (126523, 126523); (126530, 126530); (126535, 126535); (126537,
  126537); (126539, 126539); (126541, 126543); (126545, 126546); (126548,
  126548); (126551, 126551); (126553, 126553); (126555, 126555); (126557,
  126557); (126559, 126559); (126561, 126562); (126564, 126564); (126567,
  126570); (126572, 126578); (126580, 126583); (126585, 126588); (126590,
  126590); (126592, 126601); (126603, 126619); (126625, 126627); (126629,
  126633); (126635, 126651); (127232, 127244); (130032, 130041); (131072,
  173791); (173824, 177976); (177984, 178205); (178208, 183969); (183984,
  191456); (194560, 195101); (196608, 201546)
 ].

Definition isalnum (c : char) : bool := in_ranges alnum_ranges c.

(** [\w] of a [str] pattern. *)
Definition isword (c : char) : bool := isalnum c || (c =? 95).

(** Simple lower-case mapping, given on Basic Latin, Latin-1 and the
    other code points whose image lies in these two blocks.  A code
    point above U+00FF not listed here lowers to a code point above
    U+00FF, which no letter of the program's patterns is, so it is left
    as it is. *)
Definition tolower (c : char) : char :=
  if (65 <=? c) && (c <=? 90) then c + 32
  else if (192 <=? c) && (c <=? 222) && negb (c =? 215) then c + 32
  else if c =? 304 then 105
  else if c =? 376 then 255
  else if c =? 7838 then 223
  else if c =? 8490 then 107
  else if c =? 8491 then 229
  else c.

(** Extra case-insensitive equivalents of a lower-case letter
    ([re._casefix._EXTRA_CASES], Latin-1 keys). *)
Definition casefix (lo : char) : list char :=
  if lo =? 105 then [305]
  else if lo =? 115 then [383]
  else if lo =? 181 then [956]
  else [].

End Unicode.

(** ** Python values and built-ins *)

Inductive exn : Type := ValueError | OverflowError | TypeError.

Inductive result (A : Type) : Type :=
| Ok (a : A)
| Raise (e : exn).
Arguments Ok {A} a.
Arguments Raise {A} e.

Definition bind {A B} (r : result A) (f : A -> result B) : result B :=
  match r with
  | Ok a => f a
  | Raise e => Raise e
  end.

Notation "x <- e ;; k" := (bind e (fun x => k))
  (at level 61, e at next level, right associativity).

Module Py.

Definition str_eqb (a b : str) : bool :=
  Nat.eqb (List.length a) (List.length b)
  && forallb (fun p => fst p =? snd p) (combine a b).

Fixpoint dropwhile (p : char -> bool) (s : str) : str :=
  match s with
  | [] => []
  | c :: s' => if p c then dropwhile p s' else s
  end.

(** [s.strip()] *)
Definition lstrip (s : str) : str := dropwhile Unicode.isspace s.
Definition rstrip (s : str) : str := rev (dropwhile Unicode.isspace (rev s)).
Definition strip (s : str) : str := rstrip (lstrip s).

(** Truth value of a [str]. *)
Definition truthy (s : str) : bool :=
  match s with [] => false | _ => true end.

Fixpoint startswith (p s : str) : bool :=
  match p, s with
  | [], _ => true
  | _ :: _, [] => false
  | a :: p', b :: s' => (a =? b) && startswith p' s'
  end.

(** [needle in hay] *)
Fixpoint contains (needle hay : str) : bool :=
  startswith needle hay ||
  match hay with
  | [] => false
  | _ :: hay' => contains needle hay'
  end.

(** [s.replace(a, b)] for a one-character [a]. *)
Definition replace1 (a : char) (b : str) (s : str) : str :=
  flat_map (fun c => if c =? a then b else [c]) s.

(** Line boundaries of [str.splitlines]. *)
Definition is_linebreak (c : char) : bool :=
  existsb (Z.eqb c) [10; 13; 11; 12; 28; 29; 30; 133; 8232; 8233].

(** [s.splitlines()]: [cur] is the current line, reversed; [after_cr]
    says that the previous character was a carriage return, so that a
    line feed here belongs to the same boundary. *)
Fixpoint splitlines_from (after_cr : bool) (cur : str) (s : str) : list str :=
  match s with
  | [] => match cur with [] => [] | _ => [rev cur] end
  | c :: s' =>
      if after_cr && (c =? 10) then splitlines_from false cur s'
      else if is_linebreak c then rev cur :: splitlines_from (c =? 13) [] s'
      else splitlines_from false (c :: cur) s'
  end.

Definition splitlines (s : str) : list str := splitlines_from false [] s.

(** [bytes.decode("latin-1", errors="ignore")]: every byte is mapped. *)
Definition decode_latin1 (b : list byte) : str :=
  map (fun x => Z.of_N (Byte.to_N x)) b.

(** [chr(i)] in CPython 3.11: the argument is converted to a C [int]
    first ([OverflowError] outside its range), then checked against the
    code-point range ([ValueError]). *)
Definition chr (i : Z) : result char :=
  if (i <? - 2147483648) || (2147483647 <? i) then Raise OverflowError
  else if (i <? 0) || (1114111 <? i) then Raise ValueError
  else Ok i.

(** [sys.int_info.default_max_str_digits] *)
Definition max_str_digits : nat := 4300.

Fixpoint digits_value (acc : Z) (ds : str) : option Z :=
  match ds with
  | [] => Some acc
  | d :: ds' =>
      match Unicode.todecimal d with
      | Some v => digits_value (10 * acc + v) ds'
      | None => None
      end
  end.

(** [int(s)] on the strings the program passes to it: an optional sign
    and decimal digits of any script.  A digit string longer than the
    conversion limit is a [ValueError], as is a malformed literal. *)
Definition int (s : str) : result Z :=
  let '(neg, ds) :=
    match s with
    | 45 :: ds => (true, ds)
    | 43 :: ds => (false, ds)
    | _ => (false, s)
    end in
  match ds with
  | [] => Raise ValueError
  | _ =>
      match digits_value 0 ds with
      | None => Raise ValueError
      | Some v =>
          if Nat.ltb max_str_digits (List.length ds) then Raise ValueError
          else Ok (if neg then - v else v)
      end
  end.

End Py.

(** ** Regular expressions: a backtracking matcher in the order of [re] *)

Module Re.

Inductive regex : Type :=
| Eps                            (* the empty pattern *)
| Lit (c : char)                 (* a literal character *)
| LitI (lo : char)               (* a literal under IGNORECASE, lowered *)
| Cls (p : char -> bool)         (* a character class or category *)
| Cat (r1 r2 : regex)
| Alt (r1 r2 : regex)
| Rep (greedy : bool) (lo : nat) (hi : option nat) (r : regex)
| Grp (n : nat) (r : regex)      (* capturing group number n *)
| Bol                            (* ^ *)
| Eol                            (* $ *)
| Wordb.                         (* \b *)

(** A position in the subject: index, character before it, text after. *)
Record cursor : Type := Cursor {
  c_idx : nat;
  c_prev : option char;
  c_rest : str
}.

Definition start_of (s : str) : cursor := Cursor 0 None s.

Definition step (c : cursor) (x : char) (xs : str) : cursor :=
  Cursor (S (c_idx c)) (Some x) xs.

Definition caps := list (nat * str).

Definition lit_i_ok (lo x : char) : bool :=
  let l := Unicode.tolower x in
  (l =? lo) || existsb (Z.eqb l) (Unicode.casefix lo).

Definition is_word_opt (o : option char) : bool :=
  match o with Some x => Unicode.isword x | None => false end.

Definition at_boundary (c : cursor) : bool :=
  xorb (is_word_opt (c_prev c)) (is_word_opt (hd_error (c_rest c))).

(** [$] without MULTILINE: the end, or just before a final newline. *)
Definition at_end (c : cursor) : bool :=
  match c_rest c with
  | [] => true
  | [x] => x =? 10
  | _ => false
  end.

Definition under (hi : option nat) (n : nat) : bool :=
  match hi with Some h => Nat.ltb n h | None => true end.

Section Match.
Variable R : Type.

Definition cont := cursor -> caps -> option R.

(** The iterations of a repetition whose body is matched by [body]:
    [cnt] iterations are done, [k] is what follows the repetition.
    A greedy repetition tries one more iteration before it tries to
    go on, a lazy one the other way round.  An iteration has to
    consume input, which every repeated body of this program does. *)
Fixpoint rep_loop (body : cursor -> caps -> cont -> option R)
         (greedy : bool) (lo : nat) (hi : option nat) (k : cont)
         (fuel cnt : nat) (c : cursor) (g : caps) {struct fuel} : option R :=
  match fuel with
  | O => None
  | S fuel' =>
      let again (c' : cursor) (g' : caps) :=
        if Nat.ltb (c_idx c) (c_idx c')
        then rep_loop body greedy lo hi k fuel' (S cnt) c' g'
        else None in
      if greedy then
        match (if under hi cnt then body c g again else None) with
        | Some x => Some x
        | None => if Nat.leb lo cnt then k c g else None
        end
      else
        match (if Nat.leb lo cnt then k c g else None) with
        | Some x => Some x
        | None => if under hi cnt then body c g again else None
        end
  end.

(** [rmatch r c g k]: match [r] at [c] with the groups [g] captured so
    far, then continue with [k]; alternatives are tried in the order
    of the [re] module (left branch first). *)
Fixpoint rmatch (r : regex) (c : cursor) (g : caps) (k : cont)
         {struct r} : option R :=
  match r with
  | Eps => k c g
  | Lit a =>
      match c_rest c with
      | x :: xs => if x =? a then k (step c x xs) g else None
      | [] => None
      end
  | LitI lo =>
      match c_rest c with
      | x :: xs => if lit_i_ok lo x then k (step c x xs) g else None
      | [] => None
      end
  | Cls p =>
      match c_rest c with
      | x :: xs => if p x then k (step c x xs) g else None
      | [] => None
      end
  | Cat r1 r2 => rmatch r1 c g (fun c' g' => rmatch r2 c' g' k)
  | Alt r1 r2 =>
      match rmatch r1 c g k with
      | Some x => Some x
      | None => rmatch r2 c g k
      end
  | Grp n r1 =>
      rmatch r1 c g (fun c' g' =>
        k c' ((n, firstn (c_idx c' - c_idx c) (c_rest c)) :: g'))
  | Rep greedy lo hi r1 =>
      rep_loop (rmatch r1) greedy lo hi k (S (List.length (c_rest c))) O c g
  | Bol => if Nat.eqb (c_idx c) 0 then k c g else None
  | Eol => if at_end c then k c g else None
  | Wordb => if at_boundary c then k c g else None
  end.
End Match.

(** A match object. *)
Record rematch : Type := Match {
  m_start : nat;
  m_end : nat;
  m_groups : caps;
  m_after : cursor
}.

(** [m.group(n)]; [None] when the group took no part in the match. *)
Fixpoint lookup (n : nat) (g : caps) : option str :=
  match g with
  | [] => None
  | (i, s) :: g' => if Nat.eqb i n then Some s else lookup n g'
  end.

Definition group (m : rematch) (n : nat) : option str := lookup n (m_groups m).

Definition match_at (r : regex) (c : cursor) : option rematch :=
  rmatch r c [] (fun c' g => Some (Match (c_idx c) (c_idx c') g c')).

(** Leftmost match at or after a position. *)
Fixpoint search_loop (r : regex) (i : nat) (prev : option char) (s : str)
  : option rematch :=
  match match_at r (Cursor i prev s) with
  | Some m => Some m
  | None =>
      match s with
      | [] => None
      | x :: xs => search_loop r (S i) (Some x) xs
      end
  end.

Definition search_from (r : regex) (c : cursor) : option rematch :=
  search_loop r (c_idx c) (c_prev c) (c_rest c).

(** [re.search(r, s)] and [re.match(r, s)] *)
Definition search (r : regex) (s : str) : option rematch :=
  search_from r (start_of s).

Definition rematch_at_start (r : regex) (s : str) : option rematch :=
  match_at r (start_of s).

(** [re.sub(r, repl, s)] with a function [repl] that may raise: the
    matches are found left to right without overlap and replaced in
    that order.  After an empty match the next character is copied and
    the scan resumes behind it (none of the program's patterns matches
    the empty string). *)
Fixpoint sub_loop (fuel : nat) (r : regex) (repl : rematch -> result str)
         (c : cursor) : result str :=
  match fuel with
  | O => Ok (c_rest c)
  | S fuel' =>
      match search_from r c with
      | None => Ok (c_rest c)
      | Some m =>
          let skipped := firstn (m_start m - c_idx c) (c_rest c) in
          rep <- repl m ;;
          if Nat.ltb (m_start m) (m_end m) then
            rest <- sub_loop fuel' r repl (m_after m) ;;
            Ok (skipped ++ rep ++ rest)
          else
            match c_rest (m_after m) with
            | [] => Ok (skipped ++ rep)
            | x :: xs =>
                rest <- sub_loop fuel' r repl (step (m_after m) x xs) ;;
                Ok (skipped ++ rep ++ x :: rest)
            end
      end
  end.

Definition sub_with (r : regex) (repl : rematch -> result str) (s : str)
  : result str :=
  sub_loop (S (List.length s)) r repl (start_of s).

(** [re.sub(r, rep, s)] with a constant replacement text. *)
Definition sub (r : regex) (rep : str) (s : str) : str :=
  match sub_with r (fun _ => Ok rep) s with
  | Ok t => t
  | Raise _ => s
  end.

(** Pattern syntax *)
Fixpoint seq (rs : list regex) : regex :=
  match rs with
  | [] => Eps
  | [r] => r
  | r :: rs' => Cat r (seq rs')
  end.

Definition lits (s : string) : regex := seq (map Lit (lit s)).
Definition star (r : regex) : regex := Rep true 0 None r.
Definition plus (r : regex) : regex := Rep true 1 None r.
Definition opt (r : regex) : regex := Rep true 0 (Some 1%nat) r.
Definition lazy_plus (r : regex) : regex := Rep false 1 None r.
Definition between (lo hi : nat) (r : regex) : regex := Rep true lo (Some hi) r.
Definition times (n : nat) (r : regex) : regex := Rep true n (Some n) r.
Definition digit : regex := Cls Unicode.isdecimal.        (* \d *)
Definition space : regex := Cls Unicode.isspace.          (* \s *)
Definition anychar : regex := Cls (fun c => negb (c =? 10)). (* . *)
Definition oneof (cs : str) : regex := Cls (fun c => existsb (Z.eqb c) cs).

End Re.

(** ** Floating point: binary64 values as [spec_float] *)

Module Flt.

Definition float := spec_float.

(** Precision and exponent bound of binary64. *)
Definition prec : Z := 53.
Definition emax : Z := 1024.

(** The double nearest to an integer (ties to even). *)
Definition of_Z (n : Z) : float := binary_normalize prec emax n 0 false.

(** The double nearest to [n / d] for a positive [d]. *)
Definition of_ratio (s : bool) (n d : positive) : float :=
  SFdiv prec emax (S754_finite s n 0) (S754_finite false d 0).

Definition div (x y : float) : float := SFdiv prec emax x y.

(** Nearest integer to [a / b], ties to even, for positive [b]. *)
Definition div_half_even (a b : Z) : Z :=
  let q := a / b in
  let r := a mod b in
  match 2 * r ?= b with
  | Lt => q
  | Gt => q + 1
  | Eq => if Z.even q then q else q + 1
  end.

(** Hundredths of the exact value [m * 2^e], rounded half to even. *)
Definition hundredths (m : positive) (e : Z) : Z :=
  match e with
  | Zneg k => div_half_even (100 * Zpos m) (Z.pow_pos 2 k)
  | _ => 100 * Zpos m * 2 ^ e
  end.

(** [round(x, 2)]: the exact value of [x] is rounded half to even to
    two decimals, and the decimal is converted back to the nearest
    double; infinities and NaN round to themselves. *)
Definition round2 (x : float) : float :=
  match x with
  | S754_finite s m e =>
      match hundredths m e with
      | Zpos q => of_ratio s q 100
      | _ => S754_zero s
      end
  | _ => x
  end.

(** [float(s)] on the strings the program passes to it, which are
    digit strings: the nearest double; anything else is taken as a
    malformed literal. *)
Definition of_str (s : str) : result float :=
  match s with
  | [] => Raise ValueError
  | _ =>
      match Py.digits_value 0 s with
      | Some n => Ok (of_Z n)
      | None => Raise ValueError
      end
  end.

End Flt.

(** ** The program *)

Module App.
Import Re.

Definition found (o : option rematch) : bool :=
  match o with Some _ => true | None => false end.

(** Patterns written with [re.IGNORECASE]: the literals are lowered when
    the pattern is compiled. *)
Definition lits_i (s : str) : regex :=
  seq (map (fun c => LitI (Unicode.tolower c)) s).

Fixpoint alts (rs : list regex) : regex :=
  match rs with
  | [] => Cls (fun _ => false)
  | [r] => r
  | r :: rs' => Alt r (alts rs')
  end.

Definition HEADER_FOOTER_PAT : regex :=
  Grp 1 (alts
    [ lits_i (lit "Hasselager FVT"); lits_i (lit "TUR START");
      lits_i (lit "TRIP"); lits_i (lit "PAUSE");
      lits_i (lit "L" ++ [198] ++ lit "SSEPORT"); lits_i (lit "HOSTRUTE");
      lits_i (lit "VOGNNUMMER"); lits_i ([197] ++ lit "BNE - LUKKE");
      lits_i (lit "STARTTID"); lits_i (lit "HJEMKOMSTTID");
      lits_i (lit "SLUTTID"); lits_i (lit "ROUTEDATE");
      lits_i (lit "Udskrevet:");
      seq [ lits_i (lit "Side"); plus space; plus digit; plus space;
            lits_i (lit "af"); plus space; plus digit ] ]).

(** *** rtf_to_text *)

(** [\\u(-?\d+)\??] *)
Definition uni_re : regex :=
  seq [ Lit 92; Lit 117; Grp 1 (Cat (opt (Lit 45)) (plus digit));
        opt (Lit 63) ].

Definition group_arg (m : rematch) (n : nat) : result str :=
  match group m n with
  | Some s => Ok s
  | None => Raise TypeError
  end.

Definition uni_sub (m : rematch) : result str :=
  g <- group_arg m 1 ;;
  codepoint <- Py.int g ;;
  let codepoint := if codepoint <? 0 then 65536 + codepoint else codepoint in
  match Py.chr codepoint with
  | Ok ch => Ok [ch]
  | Raise ValueError => Ok [32]
  | Raise e => Raise e
  end.

Definition is_hex (c : char) : bool :=
  ((48 <=? c) && (c <=? 57)) || ((97 <=? c) && (c <=? 102))
  || ((65 <=? c) && (c <=? 70)).

(** [\\'([0-9a-fA-F]{2})] *)
Definition hex_re : regex :=
  seq [ Lit 92; Lit 39; Grp 1 (times 2 (Cls is_hex)) ].

Definition hexval (c : char) : option Z :=
  if (48 <=? c) && (c <=? 57) then Some (c - 48)
  else if (97 <=? c) && (c <=? 102) then Some (c - 87)
  else if (65 <=? c) && (c <=? 70) then Some (c - 55)
  else None.

Definition is_ascii_space (c : char) : bool :=
  existsb (Z.eqb c) [32; 9; 10; 13; 11; 12].

(** [bytes.fromhex(s)]: pairs of hexadecimal digits, ASCII white space
    between the pairs is skipped. *)
Fixpoint fromhex (s : str) : result (list byte) :=
  match s with
  | [] => Ok []
  | a :: s1 =>
      if is_ascii_space a then fromhex s1
      else
        match hexval a, s1 with
        | Some h, b :: s2 =>
            match hexval b with
            | Some l =>
                match Byte.of_N (Z.to_N (16 * h + l)) with
                | Some x => rest <- fromhex s2 ;; Ok (x :: rest)
                | None => Raise ValueError
                end
            | None => Raise ValueError
            end
        | _, _ => Raise ValueError
        end
  end.

Definition hex_sub (m : rematch) : str :=
  match (g <- group_arg m 1 ;; b <- fromhex g ;; Ok (Py.decode_latin1 b)) with
  | Ok t => t
  | Raise _ => []
  end.

Definition letter : regex :=
  Cls (fun c => ((97 <=? c) && (c <=? 122)) || ((65 <=? c) && (c <=? 90))).
Definition blank : regex := oneof [32; 9].

Definition rtf_to_text (rtf : str) : result str :=
  text <- sub_with uni_re uni_sub rtf ;;
  text <- sub_with hex_re (fun m => Ok (hex_sub m)) text ;;
  let text := sub (Cat (lits "\par") (opt (oneof (lit "d")))) [10] text in
  let text := sub (lits "\line") [10] text in
  let text := sub (lits "\cell") [10] text in
  let text := sub (lits "\row") [10] text in
  let text := sub (lits "\tab") (lit "    ") text in
  let text := sub (seq [Lit 92; plus letter; star digit; opt (Lit 32)])
                  [32] text in
  let text := Py.replace1 125 [32] (Py.replace1 123 [32] text) in
  let text := sub (plus blank) [32] text in
  let text := sub (Cat (Lit 10) (plus blank)) [10] text in
  let text := sub (Cat (plus blank) (Lit 10)) [10] text in
  let text := sub (Rep true 2 None (Lit 10)) [10] text in
  Ok text.

(** *** split_pages *)

Definition footer_re : regex :=
  seq [ lits "Side"; plus space; plus digit; plus space; lits "af";
        plus space; plus digit ].

Definition is_footer (ln : str) : bool := found (search footer_re ln).

(** One turn of the loop, on the state [(pages, current)]. *)
Definition split_step (st : list (list str) * list str) (ln : str)
  : list (list str) * list str :=
  let '(pages, current) := st in
  let current := current ++ [ln] in
  if is_footer ln then (pages ++ [current], []) else (pages, current).

Definition split_pages (lines : list str) : list (list str) :=
  let '(pages, current) := fold_left split_step lines ([], []) in
  match current with
  | [] => pages
  | _ => pages ++ [current]
  end.

(** *** find_meta *)

Definition clock : regex :=      (* [0-2]?\d:\d{2} *)
  seq [ opt (oneof (lit "012")); digit; Lit 58; times 2 digit ].

Definition host_re : regex :=
  seq [ lits "HOSTRUTE:"; star space; Grp 1 (plus digit) ].
Definition port_re : regex :=
  seq [ Lit 76; Lit 198; lits "SSEPORT:"; star space; Grp 1 (plus digit) ].
Definition start_re : regex :=
  seq [ lits "STARTTID:"; star space; Grp 1 clock ].
Definition slut_re : regex :=
  seq [ lits "SLUTTID:"; star space; Grp 1 clock ].
Definition afr_re : regex :=
  seq [ lits "AFREGNINGSTID:"; star space; Grp 1 (plus digit) ].

Record meta : Type := Meta {
  rutenummer : option str;
  portnummer : option str;
  starttid : option str;
  sluttid : option str;
  afregningstid : option str
}.

(** [m.group(1) if m else old] *)
Definition pick (r : regex) (ln : str) (old : option str) : option str :=
  match search r ln with
  | Some m => group m 1
  | None => old
  end.

Definition meta_step (st : meta) (ln : str) : meta :=
  Meta (pick host_re ln (rutenummer st))
       (pick port_re ln (portnummer st))
       (pick start_re ln (starttid st))
       (pick slut_re ln (sluttid st))
       (pick afr_re ln (afregningstid st)).

Definition find_meta (page_lines : list str) : meta :=
  fold_left meta_step page_lines (Meta None None None None None).

(** *** find_street_and_post *)

(** The lines [start_idx + 1 .. start_idx + lookahead_depth] that lie
    inside the page. *)
Definition window (page_lines : list str) (start_idx depth : nat) : list str :=
  flat_map (fun k => match nth_error page_lines (start_idx + k) with
                     | Some s => [s]
                     | None => []
                     end)
           (List.seq 1 depth).

Definition is_noise (s : str) : bool := found (search HEADER_FOOTER_PAT s).

(** [\b\d{4}\b] *)
Definition four_re : regex := seq [ Wordb; times 4 digit; Wordb ].
Definition has_four (s : str) : bool := found (search four_re s).

(** [(\d{4})\s+(.+)$] *)
Definition post_re : regex :=
  seq [ Grp 1 (times 4 digit); plus space; Grp 2 (plus anychar); Eol ].

(** [(.+?)\s+(\d{4})\s+(.+)$] *)
Definition full_re : regex :=
  seq [ Grp 1 (lazy_plus anychar); plus space; Grp 2 (times 4 digit);
        plus space; Grp 3 (plus anychar); Eol ].

(** First loop: the street. *)
Fixpoint scan_street (lookahead : list str) : option str :=
  match lookahead with
  | [] => None
  | s :: rest =>
      if negb (Py.truthy s) || is_noise s then scan_street rest
      else if has_four s then scan_street rest
      else Some (Py.strip s)
  end.

(** Second loop: postal code and city. *)
Fixpoint scan_post (lookahead : list str) : option (option str * option str) :=
  match lookahead with
  | [] => None
  | s :: rest =>
      match search post_re s with
      | Some pm => Some (group pm 1, option_map Py.strip (group pm 2))
      | None => scan_post rest
      end
  end.

(** Third loop, run when the first found no street. *)
Fixpoint scan_full (lookahead : list str)
  : option (option str * option str * option str) :=
  match lookahead with
  | [] => None
  | s :: rest =>
      match search full_re s with
      | Some pm2 =>
          if negb (is_noise s)
          then Some (option_map Py.strip (group pm2 1), group pm2 2,
                     option_map Py.strip (group pm2 3))
          else scan_full rest
      | None => scan_full rest
      end
  end.

Definition find_street_and_post (page_lines : list str) (start_idx : nat)
           (lookahead_depth : nat) : option str * option str * option str :=
  let lookahead := window page_lines start_idx lookahead_depth in
  let street := scan_street lookahead in
  let '(postnr, by_) :=
    match scan_post lookahead with
    | Some pb => pb
    | None => (None, None)
    end in
  match street with
  | None =>
      match scan_full lookahead with
      | Some r => r
      | None => (street, postnr, by_)
      end
  | Some _ => (street, postnr, by_)
  end.

(** *** parse_page *)

Definition hhmm : regex :=       (* \d{1,2}:\d{2} *)
  seq [ between 1 2 digit; Lit 58; times 2 digit ].

(** Groups: 1 = id, 2 = name, 3 = ank, 4 = afg. *)
Definition stop_line_re : regex :=
  seq [ Bol; Grp 1 (times 5 digit); plus space; Grp 2 (lazy_plus anychar);
        plus space;
        hhmm; star space; Lit 45; star space; hhmm;
        between 1 8 (Cat (plus space) (plus digit)); plus space;
        Grp 3 hhmm; plus space; Grp 4 hhmm; Wordb ].

Record row : Type := Row {
  Butiksnavn : str;
  Adresse : option str;
  Postnr : option str;
  By : option str;
  Ankomst : option str;
  Rutenummer : option str;
  Portnummer : option str;
  Starttid : option str;
  Sluttid : option str;
  Afregningstid_timer : option Flt.float
}.

Definition depot : str := lit "Hasselager".

(** [x and 'Hasselager' in x] *)
Definition names_depot (x : option str) : bool :=
  match x with
  | Some s => Py.truthy s && Py.contains depot s
  | None => false
  end.

(** [\s+[A]\s*\d*$] *)
Definition suffix_re : regex :=
  seq [ plus space; oneof (lit "A"); star space; star digit; Eol ].

Definition butik_of (name_raw : str) : str :=
  Py.strip (sub suffix_re [] name_raw).

Definition afr_hours_of (afregningstid : option str) : option Flt.float :=
  match afregningstid with
  | Some a =>
      if Py.truthy a then
        match Flt.of_str a with
        | Ok f => Some (Flt.round2 (Flt.div f (Flt.of_Z 60)))
        | Raise _ => None
        end
      else None
  | None => None
  end.

(** The body of the loop for the line [ln] at index [i]: the row it
    appends, if any. *)
Definition stop_row (page_lines : list str) (md : meta) (i : nat) (ln : str)
  : option row :=
  match rematch_at_start stop_line_re ln with
  | None => None
  | Some sm =>
      let name_raw := match group sm 2 with Some s => Py.strip s | None => [] end in
      let ank := group sm 3 in
      let '(street, postnr, by_) := find_street_and_post page_lines i 12 in
      if existsb names_depot [Some name_raw; street; by_] then None
      else
        Some (Row (butik_of name_raw) street postnr by_ ank
                  (rutenummer md) (portnummer md) (starttid md) (sluttid md)
                  (afr_hours_of (afregningstid md)))
  end.

Definition enumerate (l : list str) : list (nat * str) :=
  combine (List.seq 0 (List.length l)) l.

Definition parse_page (page_lines : list str) : list row :=
  let md := find_meta page_lines in
  fold_left (fun rows il =>
               match stop_row page_lines md (fst il) (snd il) with
               | Some r => rows ++ [r]
               | None => rows
               end)
            (enumerate page_lines) [].

(** *** process_rtf_file *)

Definition decoded_lines (file_content : list byte) : result (list str) :=
  let raw := Py.decode_latin1 file_content in
  text <- rtf_to_text raw ;;
  Ok (map Py.strip (filter (fun ln => Py.truthy (Py.strip ln))
                           (Py.splitlines text))).

Definition process_rtf_file (file_content : list byte) (filename : str)
  : result (list row * nat) :=
  lines <- decoded_lines file_content ;;
  let pages := split_pages lines in
  let all_rows := fold_left (fun acc page => acc ++ parse_page page) pages [] in
  Ok (all_rows, List.length all_rows).

End App.

(** ** Notions used to state the properties *)

Module Spec.
Import Re App.

(** A page closed by the splitter: it ends with a footer line and holds
    no other footer line. *)
Definition closed_page (p : list str) : Prop :=
  exists body f,
    p = body ++ [f] /\ is_footer f = true
    /\ Forall (fun ln => is_footer ln = false) body.

(** The footer pattern as the specification words it: the same pattern
    matched without regard to case. *)
Definition footer_re_ignorecase : regex :=
  seq [ lits_i (lit "Side"); plus space; plus digit; plus space;
        lits_i (lit "af"); plus space; plus digit ].

(** The value captured by the last line of the page that a label
    pattern matches. *)
Definition last_match (r : regex) (page_lines : list str) : option str :=
  match find (fun ln => found (search r ln)) (rev page_lines) with
  | Some ln =>
      match search r ln with
      | Some m => group m 1
      | None => None
      end
  | None => None
  end.

(** [reads c w c']: the position [c'] is reached from [c] by reading the
    text [w]. *)
Definition reads (c : cursor) (w : str) (c' : cursor) : Prop :=
  c_rest c = w ++ c_rest c' /\ c_idx c' = (c_idx c + List.length w)%nat.

(** What a matcher of a pattern owes: when it succeeds, the continuation
    has been entered at a position reached by reading some text. *)
Definition sound_body (R : Type)
           (body : cursor -> caps -> cont R -> option R) : Prop :=
  forall c g k x,
    body c g k = Some x ->
    exists w c' g', reads c w c' /\ k c' g' = Some x.

(** The match of the hex-escape pattern at a position, read off the
    first four characters there. *)
Definition hex_at (i : nat) (s : str) : option rematch :=
  match s with
  | a :: q :: h1 :: h2 :: rest =>
      if (a =? 92) && (q =? 39) && is_hex h1 && is_hex h2
      then Some (Match i (4 + i) [(1%nat, [h1; h2])]
                       (Cursor (4 + i) (Some h2) rest))
      else None
  | _ => None
  end.

(** Value of a hexadecimal digit. *)
Definition hex_value (h : char) : Z :=
  match hexval h with Some v => v | None => 0 end.

(** The text with every escape backslash, quote, two hexadecimal digits
    replaced by the one character whose code point is the byte written. *)
Fixpoint unescape_hex (s : str) : str :=
  match s with
  | [] => []
  | a :: s' =>
      match s' with
      | q :: h1 :: h2 :: rest =>
          if (a =? 92) && (q =? 39) && is_hex h1 && is_hex h2
          then 16 * hex_value h1 + hex_value h2 :: unescape_hex rest
          else a :: unescape_hex s'
      | _ => a :: unescape_hex s'
      end
  end.

(** [raw] ends with a route-suffix token as the code strips it: white
    space, the letter A, optional white space, optional digits, at the
    end of the string or before a final newline; [p] is the text before
    the token and [tail] the text after it. *)
Definition ends_with_suffix (raw p tail : str) : Prop :=
  exists ws ws' ds,
    raw = p ++ ws ++ [65] ++ ws' ++ ds ++ tail
    /\ ws <> []
    /\ forallb Unicode.isspace ws = true
    /\ forallb Unicode.isspace ws' = true
    /\ forallb Unicode.isdecimal ds = true
    /\ (tail = [] \/ tail = [10]).

(** [walk c n]: the position [n] characters after [c]. *)
Fixpoint walk (c : cursor) (n : nat) : cursor :=
  match n with
  | O => c
  | S n' =>
      match c_rest c with
      | [] => c
      | x :: xs => walk (step c x xs) n'
      end
  end.

(** The depot marker, as the specification words the test: without
    regard to case. *)
Definition contains_ignorecase (needle hay : str) : bool :=
  Py.contains (map Unicode.tolower needle) (map Unicode.tolower hay).

(** The elements of an optional value. *)
Definition opt_list (A : Type) (o : option A) : list A :=
  match o with Some a => [a] | None => [] end.

(** The matched name of a stop line, trimmed, as the loop body takes it. *)
Definition name_raw_of (sm : rematch) : str :=
  match group sm 2 with Some s => Py.strip s | None => [] end.

Definition ostr_eqb (a b : option str) : bool :=
  match a, b with
  | Some x, Some y => Py.str_eqb x y
  | None, None => true
  | _, _ => false
  end.


(** A manifest of three pages whose first and third page carry route 1
    and whose second page carries route 2. *)
Definition manifest_three_pages : list byte :=
  list_byte_of_string
    ("HOSTRUTE: 1\par 10001 Netto 8:00-9:00 1 10:00 10:30\par Vej 1\par "
     ++ "8000 Aarhus\par Side 1 af 3\par "
     ++ "HOSTRUTE: 2\par 10002 Fakta 8:00-9:00 1 11:00 11:30\par Vej 2\par "
     ++ "8200 Aarhus N\par Side 2 af 3\par "
     ++ "HOSTRUTE: 1\par 10003 Rema 8:00-9:00 1 12:00 12:30\par Vej 3\par "
     ++ "8210 Aarhus V\par Side 3 af 3\par ")%string.

(** The street search keeps a line: it is not empty, no report chrome
    and holds no bare four-digit token. *)
Definition survives (s : str) : bool :=
  Py.truthy s && negb (is_noise s) && negb (has_four s).

(** A line with a four-digit token followed by more text, and the postal
    code and city it gives. *)
Definition is_postal (s : str) : bool := found (search post_re s).

Definition postal_of (s : str) : option str * option str :=
  match search post_re s with
  | Some pm => (group pm 1, option_map Py.strip (group pm 2))
  | None => (None, None)
  end.

(** A line of the shape text, four-digit token, text that is no report
    chrome, and the street, postal code and city it gives. *)
Definition is_full (s : str) : bool :=
  found (search full_re s) && negb (is_noise s).

Definition full_of (s : str) : option str * option str * option str :=
  match search full_re s with
  | Some pm2 => (option_map Py.strip (group pm2 1), group pm2 2,
                 option_map Py.strip (group pm2 3))
  | None => (None, None, None)
  end.

(** The address as the resolver is specified, over the window [w]. *)
Definition resolve (w : list str) : option str * option str * option str :=
  let postal := match find is_postal w with
                | Some l => postal_of l
                | None => (None, None)
                end in
  match find survives w with
  | Some s => (Some (Py.strip s), fst postal, snd postal)
  | None =>
      match find is_full w with
      | Some l => full_of l
      | None => (None, fst postal, snd postal)
      end
  end.





(** A line as the decoder promises it: trimmed and not empty. *)
Definition trimmed_nonempty (ln : str) : Prop :=
  ln <> [] /\ Py.strip ln = ln.

End Spec.

(** ** Shapes of texts and values *)

Module Shape.
Import Re App Spec.

(** Number of decimal digits a text starts with, and the length of the
    longest run of decimal digits in a text. *)
Fixpoint leading_digits (s : str) : nat :=
  match s with
  | c :: s' => if Unicode.isdecimal c then S (leading_digits s') else O
  | [] => O
  end.

Fixpoint longest_digit_run (s : str) : nat :=
  match s with
  | [] => O
  | _ :: s' => Nat.max (leading_digits s) (longest_digit_run s')
  end.


(** A character that a decoded line can hold: no brace, no tab and no
    line boundary. *)
Definition plain (ch : char) : bool :=
  negb (ch =? 123) && negb (ch =? 125) && negb (ch =? 9)
  && negb (Py.is_linebreak ch).

(** A pattern without capturing group. *)
Fixpoint grpfree (r : regex) : bool :=
  match r with
  | Cat r1 r2 | Alt r1 r2 => grpfree r1 && grpfree r2
  | Rep _ _ _ r1 => grpfree r1
  | Grp _ _ => false
  | _ => true
  end.

(** A time of day as the stop lines write it: one or two decimal digits,
    a colon, two decimal digits. *)
Definition is_hhmm (t : str) : bool :=
  match t with
  | [h; c; m1; m2] =>
      Unicode.isdecimal h && (c =? 58)
      && Unicode.isdecimal m1 && Unicode.isdecimal m2
  | [h1; h2; c; m1; m2] =>
      Unicode.isdecimal h1 && Unicode.isdecimal h2 && (c =? 58)
      && Unicode.isdecimal m1 && Unicode.isdecimal m2
  | _ => false
  end.

(** A time of day as the page headers write it: as above, and a leading
    digit of two is 0, 1 or 2. *)
Definition is_clock (t : str) : bool :=
  match t with
  | [h; c; m1; m2] =>
      Unicode.isdecimal h && (c =? 58)
      && Unicode.isdecimal m1 && Unicode.isdecimal m2
  | [h1; h2; c; m1; m2] =>
      existsb (Z.eqb h1) [48; 49; 50] && Unicode.isdecimal h2 && (c =? 58)
      && Unicode.isdecimal m1 && Unicode.isdecimal m2
  | _ => false
  end.

(** A line that starts like a stop line: five decimal digits and a
    white-space character. *)
Definition starts_with_id (ln : str) : bool :=
  forallb Unicode.isdecimal (firstn 5 ln)
  && match skipn 5 ln with
     | x :: _ => Unicode.isspace x
     | [] => false
     end.

(** A number as the page headers write it: one or more decimal digits. *)
Definition is_number (v : str) : bool :=
  Py.truthy v && forallb Unicode.isdecimal v.

(** The shapes of the header values of a page. *)
Definition meta_shaped (st : meta) : Prop :=
  (forall v, rutenummer st = Some v -> is_number v = true)
  /\ (forall v, portnummer st = Some v -> is_number v = true)
  /\ (forall v, starttid st = Some v -> is_clock v = true)
  /\ (forall v, sluttid st = Some v -> is_clock v = true).

(** The postal code and the city of a resolved address: both or none,
    the code four decimal digits, the city trimmed. *)
Definition postal_shaped (adr : option str * option str * option str) : Prop :=
  (forall p, snd (fst adr) = Some p ->
             List.length p = 4%nat /\ forallb Unicode.isdecimal p = true)
  /\ (snd (fst adr) = None <-> snd adr = None)
  /\ (forall c, snd adr = Some c -> Py.strip c = c).

(** Every match of the pattern begins with the character [a]. *)
Fixpoint needs (a : char) (r : regex) : bool :=
  match r with
  | Lit b => b =? a
  | Cat r1 _ => needs a r1
  | Grp _ r1 => needs a r1
  | Rep _ lo _ r1 => Nat.ltb 0 lo && needs a r1
  | _ => false
  end.

(** No two blanks (space or tab) stand side by side. *)
Fixpoint single_spaced (s : str) : bool :=
  match s with
  | x :: s' =>
      match s' with
      | y :: _ =>
          negb (existsb (Z.eqb x) [32; 9] && existsb (Z.eqb y) [32; 9])
          && single_spaced s'
      | [] => true
      end
  | [] => true
  end.

(** Text the decoder has nothing to do with: no backslash, brace, tab
    or line boundary, and no two blanks side by side. *)
Definition plain_text (s : str) : bool :=
  forallb (fun ch => negb (existsb (Z.eqb ch) [92; 123; 125; 9])
                     && negb (Py.is_linebreak ch)) s
  && single_spaced s.

(** [laxer r r']: the pattern [r'] is the pattern [r] with literals that
    may be matched without regard to case, put into groups or behind
    other alternatives. *)
Inductive laxer : regex -> regex -> Prop :=
| laxer_eps : laxer Eps Eps
| laxer_lit (a : char) : laxer (Lit a) (Lit a)
| laxer_lit_i (a lo : char) : lit_i_ok lo a = true -> laxer (Lit a) (LitI lo)
| laxer_cls (p : char -> bool) : laxer (Cls p) (Cls p)
| laxer_cat (r1 r2 r1' r2' : regex) :
    laxer r1 r1' -> laxer r2 r2' -> laxer (Cat r1 r2) (Cat r1' r2')
| laxer_rep (greedy : bool) (lo : nat) (hi : option nat) (r r' : regex) :
    laxer r r' -> laxer (Rep greedy lo hi r) (Rep greedy lo hi r')
| laxer_grp (n : nat) (r r' : regex) : laxer r r' -> laxer r (Grp n r')
| laxer_alt (r r1' r2' : regex) : laxer r r2' -> laxer r (Alt r1' r2').

(** [laxer_start r r']: the pattern [r'] is laxer than a pattern that
    [r] begins with. *)
Inductive laxer_start : regex -> regex -> Prop :=
| laxer_start_all (r r' : regex) : laxer r r' -> laxer_start r r'
| laxer_start_cut (r r2 r' : regex) :
    laxer_start r r' -> laxer_start (Cat r r2) r'
| laxer_start_cat (r1 r2 r1' r2' : regex) :
    laxer r1 r1' -> laxer_start r2 r2' -> laxer_start (Cat r1 r2) (Cat r1' r2')
| laxer_start_grp (n : nat) (r r' : regex) :
    laxer_start r r' -> laxer_start r (Grp n r')
| laxer_start_alt_l (r r1' r2' : regex) :
    laxer_start r r1' -> laxer_start r (Alt r1' r2')
| laxer_start_alt_r (r r1' r2' : regex) :
    laxer_start r r2' -> laxer_start r (Alt r1' r2').

End Shape.

(** ** The workbook: route groups (create_excel) *)

Module Excel.
Import Spec.

(** A value of the column Rutenummer as the loop over the rows reads it:
    a text or [None]. *)
Definition route := option str.

(** [route_rows]: a dict from route number to [[first_row, last_row]],
    its keys in the order of insertion. *)
Definition rows_dict := list (route * (nat * nat)).

(** [k in d] *)
Fixpoint dict_mem (k : route) (d : rows_dict) : bool :=
  match d with
  | [] => false
  | (k', _) :: d' => ostr_eqb k k' || dict_mem k d'
  end.

(** [d[k] = v]: the value of an old key is replaced where the key
    stands, a new key is put behind the others. *)
Fixpoint dict_set (k : route) (v : nat * nat) (d : rows_dict) : rows_dict :=
  match d with
  | [] => [(k, v)]
  | (k', v') :: d' =>
      if ostr_eqb k k' then (k', v) :: d' else (k', v') :: dict_set k v d'
  end.

(** [d[k][1] = last] for a key of the dict. *)
Fixpoint set_last (k : route) (last : nat) (d : rows_dict) : rows_dict :=
  match d with
  | [] => []
  | (k', (f, l)) :: d' =>
      if ostr_eqb k k' then (k', (f, last)) :: d'
      else (k', (f, l)) :: set_last k last d'
  end.

(** The variables of the loop; [max_row] is [ws.max_row]. *)
Record loop_state : Type := LoopState {
  route_rows : rows_dict;
  prev_rutenummer : route;
  max_row : nat
}.

(** One turn of the loop over the rows: the row is appended to the
    sheet, then the groups are updated. *)
Definition track (st : loop_state) (current_rutenummer : route) : loop_state :=
  let current_row := S (max_row st) in
  if negb (ostr_eqb current_rutenummer (prev_rutenummer st)) then
    let closed :=
      match prev_rutenummer st with
      | Some _ =>
          if dict_mem (prev_rutenummer st) (route_rows st)
          then set_last (prev_rutenummer st) (current_row - 1) (route_rows st)
          else route_rows st
      | None => route_rows st
      end in
    LoopState (dict_set current_rutenummer (current_row, current_row) closed)
              current_rutenummer current_row
  else
    LoopState (if dict_mem current_rutenummer (route_rows st)
               then set_last current_rutenummer current_row (route_rows st)
               else route_rows st)
              (prev_rutenummer st) current_row.

(** The state behind the header row, and the groups after the loop over
    the rows whose route numbers are [routes]. *)
Definition after_header : loop_state := LoopState [] None 1.

Definition group_rows (routes : list route) : rows_dict :=
  route_rows (fold_left track routes after_header).







(** The entry [e] of the dict is a run of the rows whose route numbers
    are [routes]: its rows lie among the data rows (the sheet rows from 2
    on), all carry the route number of the entry, and the rows next to
    the run do not. *)
Definition run_of (routes : list route) (e : route * (nat * nat)) : Prop :=
  let k := fst e in
  let f := fst (snd e) in
  let l := snd (snd e) in
  (2 <= f <= l)%nat /\ (l <= S (List.length routes))%nat
  /\ (forall j, (f <= j <= l)%nat -> nth_error routes (j - 2) = Some k)
  /\ ((2 < f)%nat -> nth_error routes (f - 3) <> Some k)
  /\ nth_error routes (l - 1) <> Some k.

End Excel.

(** * Properties *)

Unset Implicit Arguments.

Import Re App Spec.

(** ** Lists and strings *)

Lemma forallb_last (p : char -> bool) (u : str) (d : char) :
  u <> [] -> forallb p u = true -> p (last u d) = true.
Proof.
  intros Hne Hu. rewrite forallb_forall in Hu. apply Hu.
  destruct u as [| a u]; [congruence |].
  clear. revert a. induction u as [| b u IH]; intros a; [now left |].
  right. apply (IH b).
Qed.

Lemma forallb_impl (p q : char -> bool) (l : str) :
  (forall x, p x = true -> q x = true) ->
  forallb p l = true -> forallb q l = true.
Proof.
  intros Hpq. rewrite !forallb_forall. auto.
Qed.

(** Two splittings of a text at a character that occurs in neither
    right part are the same splitting. *)
Lemma pivot_unique (q : char -> bool) (v : char) (a : str) :
  q v = false ->
  forall a' t t',
    a ++ v :: t = a' ++ v :: t' ->
    forallb q t = true -> forallb q t' = true ->
    a = a'.
Proof.
  intros Hv. induction a as [| y a IH]; intros a' t t' H Ht Ht'.
  - destruct a' as [| y' a']; [reflexivity |].
    cbn in H. injection H as _ H. exfalso.
    rewrite H, forallb_app in Ht. cbn in Ht. rewrite Hv in Ht.
    now rewrite andb_false_r in Ht.
  - destruct a' as [| y' a'].
    + cbn in H. injection H as _ H. exfalso.
      rewrite <- H, forallb_app in Ht'. cbn in Ht'. rewrite Hv in Ht'.
      now rewrite andb_false_r in Ht'.
    + cbn in H. injection H as -> H. f_equal. eapply IH; eassumption.
Qed.

Lemma skipn_nth (l : list str) :
  forall n,
    skipn n l = match nth_error l n with
                | Some x => x :: skipn (S n) l
                | None => []
                end.
Proof.
  induction l as [| y l IH]; intros [| n]; try reflexivity.
  cbn [skipn nth_error]. rewrite IH. destruct (nth_error l n); reflexivity.
Qed.

Lemma dropwhile_split (p : char -> bool) (s : str) :
  exists a, s = a ++ Py.dropwhile p s.
Proof.
  induction s as [| x s (a & IH)]; [now exists [] |].
  cbn [Py.dropwhile]. destruct (p x).
  - exists (x :: a). cbn. now rewrite <- IH.
  - now exists [].
Qed.

Lemma dropwhile_head (p : char -> bool) (s : str) :
  match Py.dropwhile p s with [] => True | x :: _ => p x = false end.
Proof.
  induction s as [| x s IH]; cbn [Py.dropwhile]; [exact I |].
  destruct (p x) eqn:Hx; [exact IH | exact Hx].
Qed.

Lemma dropwhile_idem (p : char -> bool) (s : str) :
  Py.dropwhile p (Py.dropwhile p s) = Py.dropwhile p s.
Proof.
  pose proof (dropwhile_head p s) as H.
  destruct (Py.dropwhile p s) as [| x t]; [reflexivity |].
  cbn [Py.dropwhile]. now rewrite H.
Qed.

Lemma strip_infix (s : str) : exists a b, s = a ++ Py.strip s ++ b.
Proof.
  unfold Py.strip, Py.rstrip, Py.lstrip.
  destruct (dropwhile_split Unicode.isspace s) as (a & Ha).
  destruct (dropwhile_split Unicode.isspace
              (rev (Py.dropwhile Unicode.isspace s))) as (b & Hb).
  exists a, (rev b). rewrite Ha at 1. f_equal.
  rewrite <- rev_app_distr, <- Hb. now rewrite rev_involutive.
Qed.

Lemma strip_idem (s : str) : Py.strip (Py.strip s) = Py.strip s.
Proof.
  unfold Py.strip. set (t := Py.lstrip s).
  assert (Hl : Py.lstrip (Py.rstrip t) = Py.rstrip t).
  { destruct (dropwhile_split Unicode.isspace (rev t)) as (b & Hb).
    assert (Ht : t = Py.rstrip t ++ rev b).
    { unfold Py.rstrip. rewrite <- rev_app_distr, <- Hb.
      now rewrite rev_involutive. }
    pose proof (dropwhile_head Unicode.isspace s) as Hh. fold (Py.lstrip s) in Hh.
    fold t in Hh.
    destruct (Py.rstrip t) as [| x r] eqn:Er; [reflexivity |].
    rewrite Ht in Hh. cbn [app] in Hh.
    unfold Py.lstrip. cbn [Py.dropwhile]. now rewrite Hh. }
  rewrite Hl. unfold Py.rstrip at 1 2.
  unfold Py.rstrip. rewrite rev_involutive, dropwhile_idem. reflexivity.
Qed.

Lemma startswith_app (p s : str) :
  Py.startswith p s = true -> exists b, s = p ++ b.
Proof.
  revert s. induction p as [| a p IH]; intros s H.
  - now exists s.
  - destruct s as [| b s]; [discriminate |]. cbn in H.
    apply andb_prop in H. destruct H as [Hab H].
    apply Z.eqb_eq in Hab. subst b.
    destruct (IH s H) as (t & ->). now exists t.
Qed.

Lemma startswith_refl_app (p b : str) : Py.startswith p (p ++ b) = true.
Proof.
  induction p as [| a p IH]; [reflexivity |].
  cbn. now rewrite Z.eqb_refl, IH.
Qed.

Lemma contains_infix (d s : str) :
  Py.contains d s = true <-> exists a b, s = a ++ d ++ b.
Proof.
  split.
  - induction s as [| x s IH]; cbn [Py.contains]; intros H.
    + rewrite orb_false_r in H. apply startswith_app in H.
      destruct H as (b & H). now exists [], b.
    + apply orb_prop in H. destruct H as [H | H].
      * apply startswith_app in H. destruct H as (b & H). now exists [], b.
      * destruct (IH H) as (a & b & ->). now exists (x :: a), b.
  - intros (a & b & ->). induction a as [| x a IH].
    + cbn [app]. destruct (d ++ b) eqn:E; cbn [Py.contains];
        rewrite <- E, startswith_refl_app; reflexivity.
    + cbn [app Py.contains]. rewrite IH. apply orb_true_r.
Qed.

Lemma contains_strip (d s : str) :
  Py.contains d (Py.strip s) = true -> Py.contains d s = true.
Proof.
  rewrite !contains_infix. intros (a & b & H).
  destruct (strip_infix s) as (a' & b' & Hs).
  exists (a' ++ a), (b ++ b'). rewrite Hs at 1. rewrite H.
  now rewrite <- !app_assoc.
Qed.

Lemma contains_app_l (d s t : str) :
  Py.contains d s = true -> Py.contains d (s ++ t) = true.
Proof.
  rewrite !contains_infix. intros (a & b & ->).
  exists a, (b ++ t). now rewrite <- !app_assoc.
Qed.

(** A text that ends with another character than [y] and lies in
    [p ++ [y]] lies in [p]. *)
Lemma contains_snoc (d0 : str) (z y : char) (p : str) :
  z <> y ->
  Py.contains (d0 ++ [z]) (p ++ [y]) = true ->
  Py.contains (d0 ++ [z]) p = true.
Proof.
  intros Hzy. rewrite !contains_infix. intros (a & b & H).
  destruct b as [| b0 b] using rev_ind.
  - rewrite app_nil_r, app_assoc in H. apply app_inj_tail in H.
    destruct H as [_ H]. congruence.
  - clear IHb. rewrite !app_assoc in H. apply app_inj_tail in H.
    destruct H as [H _]. exists a, b. rewrite H. now rewrite <- !app_assoc.
Qed.

Lemma decimal_not_space (x : char) :
  Unicode.isdecimal x = true -> Unicode.isspace x = false.
Proof.
  intros H. destruct (Unicode.isspace x) eqn:Hs; [| reflexivity].
  exfalso.
  assert (Hx : (9 <= x <= 13) \/ (28 <= x <= 32) \/ x = 133 \/ x = 160
               \/ x = 5760 \/ (8192 <= x <= 8202) \/ (8232 <= x <= 8233)
               \/ x = 8239 \/ x = 8287 \/ x = 12288).
  { unfold Unicode.isspace, Unicode.in_ranges, Unicode.space_ranges in Hs.
    cbn [existsb fst snd] in Hs.
    repeat (apply orb_prop in Hs; destruct Hs as [Hs | Hs]);
      try discriminate; apply andb_prop in Hs; lia. }
  assert (Hd : forall lo n, (forall k, (k < n)%nat ->
                 Unicode.isdecimal (lo + Z.of_nat k) = false) ->
               lo <= x < lo + Z.of_nat n -> False).
  { intros lo n Hall Hr.
    specialize (Hall (Z.to_nat (x - lo))).
    rewrite Z2Nat.id in Hall by lia.
    replace (lo + (x - lo)) with x in Hall by lia.
    rewrite Hall in H; [discriminate | lia]. }
  assert (Hc : forall lo n,
             forallb (fun k => negb (Unicode.isdecimal (lo + Z.of_nat k)))
                     (List.seq 0 n) = true ->
             lo <= x < lo + Z.of_nat n -> False).
  { intros lo n Hb. apply Hd. intros k Hk.
    rewrite forallb_forall in Hb. specialize (Hb k).
    rewrite negb_true_iff in Hb. apply Hb. apply in_seq. lia. }
  destruct Hx as [Hx | [Hx | [Hx | [Hx | [Hx | [Hx | [Hx | [Hx | [Hx | Hx]]]]]]]]].
  - apply (Hc 9 5%nat); [vm_compute; reflexivity | lia].
  - apply (Hc 28 5%nat); [vm_compute; reflexivity | lia].
  - apply (Hc 133 1%nat); [vm_compute; reflexivity | lia].
  - apply (Hc 160 1%nat); [vm_compute; reflexivity | lia].
  - apply (Hc 5760 1%nat); [vm_compute; reflexivity | lia].
  - apply (Hc 8192 11%nat); [vm_compute; reflexivity | lia].
  - apply (Hc 8232 2%nat); [vm_compute; reflexivity | lia].
  - apply (Hc 8239 1%nat); [vm_compute; reflexivity | lia].
  - apply (Hc 8287 1%nat); [vm_compute; reflexivity | lia].
  - apply (Hc 12288 1%nat); [vm_compute; reflexivity | lia].
Qed.

(** ** The matcher: what a match has read *)

Lemma reads_refl (c : cursor) : reads c [] c.
Proof. split; [reflexivity | cbn; lia]. Qed.

Lemma reads_trans (c c1 c2 : cursor) (w1 w2 : str) :
  reads c w1 c1 -> reads c1 w2 c2 -> reads c (w1 ++ w2) c2.
Proof.
  intros [H1 I1] [H2 I2]. split.
  - now rewrite H1, H2, app_assoc.
  - rewrite I2, I1, length_app. lia.
Qed.

Lemma reads_step (c : cursor) (x : char) (xs : str) :
  c_rest c = x :: xs -> reads c [x] (step c x xs).
Proof. intros H. split; [exact H | cbn; lia]. Qed.

Section Reads.
Variable R : Type.

Lemma rep_loop_reads (body : cursor -> caps -> cont R -> option R)
      (greedy : bool) (lo : nat) (hi : option nat) (k : cont R) :
  sound_body body ->
  forall fuel cnt c g x,
    rep_loop body greedy lo hi k fuel cnt c g = Some x ->
    exists w c' g', reads c w c' /\ k c' g' = Some x.
Proof.
  intros Hb. induction fuel as [| fuel IH]; intros cnt c g x H; [discriminate |].
  cbn [rep_loop] in H.
  assert (Hagain :
    forall y, body c g (fun c' g' =>
                 if Nat.ltb (c_idx c) (c_idx c')
                 then rep_loop body greedy lo hi k fuel (S cnt) c' g'
                 else None) = Some y ->
              exists w c' g', reads c w c' /\ k c' g' = Some y).
  { intros y Hy. apply Hb in Hy. destruct Hy as (w & c1 & g1 & Hr & Hk).
    destruct (Nat.ltb (c_idx c) (c_idx c1)); [| discriminate].
    apply IH in Hk. destruct Hk as (w2 & c2 & g2 & Hr2 & Hk2).
    exists (w ++ w2), c2, g2. split; [eapply reads_trans; eassumption | exact Hk2]. }
  assert (Hstop :
    forall y, k c g = Some y -> exists w c' g', reads c w c' /\ k c' g' = Some y).
  { intros y Hy. exists [], c, g. split; [apply reads_refl | exact Hy]. }
  destruct greedy.
  - destruct (under hi cnt).
    + destruct (body c g _) as [y |] eqn:Hy.
      * inversion H; subst. now apply Hagain.
      * destruct (Nat.leb lo cnt); [now apply Hstop | discriminate].
    + destruct (Nat.leb lo cnt); [now apply Hstop | discriminate].
  - destruct (Nat.leb lo cnt).
    + destruct (k c g) as [y |] eqn:Hy.
      * inversion H; subst. now apply Hstop.
      * destruct (under hi cnt); [now apply Hagain | discriminate].
    + destruct (under hi cnt); [now apply Hagain | discriminate].
Qed.

Lemma rmatch_reads (r : regex) : sound_body (rmatch (R := R) r).
Proof.
  induction r as [| a | lo | p | r1 IH1 r2 IH2 | r1 IH1 r2 IH2
                  | greedy lo hi r1 IH1 | n r1 IH1 | | |];
    intros c g k x H; cbn [rmatch] in H.
  - exists [], c, g. split; [apply reads_refl | exact H].
  - destruct (c_rest c) as [| y ys] eqn:Hc; [discriminate |].
    destruct (y =? a); [| discriminate].
    exists [y], (step c y ys), g. split; [now apply reads_step | exact H].
  - destruct (c_rest c) as [| y ys] eqn:Hc; [discriminate |].
    destruct (lit_i_ok lo y); [| discriminate].
    exists [y], (step c y ys), g. split; [now apply reads_step | exact H].
  - destruct (c_rest c) as [| y ys] eqn:Hc; [discriminate |].
    destruct (p y); [| discriminate].
    exists [y], (step c y ys), g. split; [now apply reads_step | exact H].
  - apply IH1 in H. destruct H as (w1 & c1 & g1 & Hr1 & H).
    apply IH2 in H. destruct H as (w2 & c2 & g2 & Hr2 & H).
    exists (w1 ++ w2), c2, g2. split; [eapply reads_trans; eassumption | exact H].
  - destruct (rmatch r1 c g k) as [y |] eqn:Hy.
    + inversion H; subst. now apply IH1 in Hy.
    + now apply IH2 in H.
  - eapply rep_loop_reads; eassumption.
  - apply IH1 in H. destruct H as (w1 & c1 & g1 & Hr1 & H).
    exists w1, c1, ((n, firstn (c_idx c1 - c_idx c) (c_rest c)) :: g1).
    split; assumption.
  - destruct (Nat.eqb (c_idx c) 0); [| discriminate].
    exists [], c, g. split; [apply reads_refl | exact H].
  - destruct (at_end c); [| discriminate].
    exists [], c, g. split; [apply reads_refl | exact H].
  - destruct (at_boundary c); [| discriminate].
    exists [], c, g. split; [apply reads_refl | exact H].
Qed.

End Reads.

Lemma cat_inv (R : Type) (r1 r2 : regex) (c : cursor) (g : caps) (k : cont R)
      (x : R) :
  rmatch (Cat r1 r2) c g k = Some x ->
  rmatch r1 c g (fun c' g' => rmatch r2 c' g' k) = Some x.
Proof. intros H. exact H. Qed.

Lemma rmatch_cls_eq (R : Type) (p : char -> bool) (c : cursor) (g : caps)
      (k : cont R) :
  rmatch (Cls p) c g k
  = match c_rest c with
    | x :: xs => if p x then k (step c x xs) g else None
    | [] => None
    end.
Proof. reflexivity. Qed.

Lemma rep_cat_eq (R : Type) (p : char -> bool) (lo : nat) (r2 : regex)
      (c : cursor) (g : caps) (k : cont R) :
  rmatch (Cat (Rep true lo None (Cls p)) r2) c g k
  = rep_loop (rmatch (Cls p)) true lo None
             (fun c' g' => rmatch r2 c' g' k)
             (S (List.length (c_rest c))) 0 c g.
Proof. reflexivity. Qed.

Lemma cls_cat_eq (R : Type) (p : char -> bool) (r2 : regex)
      (c : cursor) (g : caps) (k : cont R) :
  rmatch (Cat (Cls p) r2) c g k
  = match c_rest c with
    | x :: xs => if p x then rmatch r2 (step c x xs) g k else None
    | [] => None
    end.
Proof. reflexivity. Qed.

Lemma rep_loop_greedy_eq (R : Type)
      (body : cursor -> caps -> cont R -> option R) (lo : nat)
      (hi : option nat) (k : cont R) (fuel cnt : nat) (c : cursor) (g : caps) :
  rep_loop body true lo hi k (S fuel) cnt c g
  = match (if under hi cnt
           then body c g (fun c' g' =>
                  if Nat.ltb (c_idx c) (c_idx c')
                  then rep_loop body true lo hi k fuel (S cnt) c' g'
                  else None)
           else None) with
    | Some x => Some x
    | None => if Nat.leb lo cnt then k c g else None
    end.
Proof. reflexivity. Qed.

Section ClassRuns.
Variable R : Type.
Variable p : char -> bool.

Lemma rep_cls_loop_inv (greedy : bool) (lo : nat) (hi : option nat)
      (k : cont R) (g : caps) :
  forall fuel cnt c x,
    rep_loop (rmatch (Cls p)) greedy lo hi k fuel cnt c g = Some x ->
    exists w c',
      reads c w c' /\ forallb p w = true
      /\ (lo <= cnt + List.length w)%nat /\ k c' g = Some x.
Proof.
  induction fuel as [| fuel IH]; intros cnt c x H; [discriminate |].
  cbn [rep_loop rmatch] in H.
  assert (Hagain :
    forall y,
      match c_rest c with
      | [] => None
      | a :: xs =>
          if p a
          then (if Nat.ltb (c_idx c) (c_idx (step c a xs))
                then rep_loop (rmatch (Cls p)) greedy lo hi k fuel (S cnt)
                              (step c a xs) g
                else None)
          else None
      end = Some y ->
      exists w c', reads c w c' /\ forallb p w = true
                   /\ (lo <= cnt + List.length w)%nat /\ k c' g = Some y).
  { intros y Hy. destruct (c_rest c) as [| a xs] eqn:Hc; [discriminate |].
    destruct (p a) eqn:Hp; [| discriminate].
    destruct (Nat.ltb _ _); [| discriminate].
    apply IH in Hy. destruct Hy as (w & c' & Hr & Hw & Hl & Hk).
    exists (a :: w), c'. repeat split.
    - destruct Hr as [Hr _]. cbn in Hr. rewrite Hc, Hr. reflexivity.
    - destruct Hr as [_ Hr]. cbn in Hr. cbn. lia.
    - cbn. now rewrite Hp, Hw.
    - cbn. lia.
    - exact Hk. }
  assert (Hstop :
    forall y, Nat.leb lo cnt = true -> k c g = Some y ->
      exists w c', reads c w c' /\ forallb p w = true
                   /\ (lo <= cnt + List.length w)%nat /\ k c' g = Some y).
  { intros y Hl Hy. apply Nat.leb_le in Hl. exists [], c.
    repeat split; try assumption; cbn; lia. }
  destruct greedy.
  - destruct (under hi cnt).
    + match type of H with match ?e with _ => _ end = _ =>
        destruct e as [y |] eqn:Hy end.
      * inversion H; subst. now apply Hagain.
      * destruct (Nat.leb lo cnt) eqn:Hl; [now apply Hstop | discriminate].
    + destruct (Nat.leb lo cnt) eqn:Hl; [now apply Hstop | discriminate].
  - destruct (Nat.leb lo cnt) eqn:Hl.
    + destruct (k c g) as [y |] eqn:Hy.
      * inversion H; subst. now apply Hstop.
      * destruct (under hi cnt); [now apply Hagain | discriminate].
    + destruct (under hi cnt); [now apply Hagain | discriminate].
Qed.

Lemma rep_cls_inv (greedy : bool) (lo : nat) (hi : option nat)
      (k : cont R) (c : cursor) (g : caps) (x : R) :
  rmatch (Rep greedy lo hi (Cls p)) c g k = Some x ->
  exists w c',
    reads c w c' /\ forallb p w = true
    /\ (lo <= List.length w)%nat /\ k c' g = Some x.
Proof. cbn [rmatch]. intros H. now apply rep_cls_loop_inv in H. Qed.

Lemma cls_inv (k : cont R) (c : cursor) (g : caps) (x : R) :
  rmatch (Cls p) c g k = Some x ->
  exists a c', reads c [a] c' /\ p a = true /\ k c' g = Some x.
Proof.
  cbn [rmatch]. intros H. destruct (c_rest c) as [| a xs] eqn:Hc; [discriminate |].
  destruct (p a) eqn:Hp; [| discriminate].
  exists a, (step c a xs). repeat split; try assumption. cbn. lia.
Qed.

End ClassRuns.

Lemma walk_rest (w : str) :
  forall c rest,
    c_rest c = w ++ rest ->
    c_rest (walk c (List.length w)) = rest
    /\ c_idx (walk c (List.length w)) = (c_idx c + List.length w)%nat.
Proof.
  induction w as [| a w IH]; intros c rest H; cbn [List.length walk].
  - split; [exact H | lia].
  - rewrite H. cbn [app].
    destruct (IH (step c a (w ++ rest)) rest eq_refl) as [H1 H2].
    split; [exact H1 | rewrite H2; cbn; lia].
Qed.

Section GreedyRuns.
Variable R : Type.
Variable p : char -> bool.

(** A greedy repetition of a class takes the whole run of the class when
    what follows the repetition succeeds behind the run. *)
Lemma rep_cls_greedy (lo : nat) (k : cont R) (g : caps) (x : R) (w : str) :
  forall c rest fuel cnt,
    c_rest c = w ++ rest ->
    forallb p w = true ->
    match rest with [] => True | y :: _ => p y = false end ->
    (lo <= cnt + List.length w)%nat ->
    (List.length (c_rest c) < fuel)%nat ->
    k (walk c (List.length w)) g = Some x ->
    rep_loop (rmatch (Cls p)) true lo None k fuel cnt c g = Some x.
Proof.
  induction w as [| a w IH]; intros c rest fuel cnt Hc Hw Hrest Hlo Hfuel Hk;
    (destruct fuel as [| fuel]; [lia |]);
    rewrite rep_loop_greedy_eq, rmatch_cls_eq; cbn [under].
  - cbn [app] in Hc. rewrite Hc.
    assert (E : match rest with
                | [] => None
                | y :: xs =>
                    if p y
                    then (if Nat.ltb (c_idx c) (c_idx (step c y xs))
                          then rep_loop (rmatch (Cls p)) true lo None k fuel
                                        (S cnt) (step c y xs) g
                          else None)
                    else None
                end = None).
    { destruct rest as [| y rest]; [reflexivity |]. now rewrite Hrest. }
    rewrite E. cbn [List.length] in Hlo.
    replace (Nat.leb lo cnt) with true by (symmetry; apply Nat.leb_le; lia).
    exact Hk.
  - rewrite Hc. cbn [app]. cbn [forallb] in Hw.
    apply andb_prop in Hw. destruct Hw as [Ha Hw]. rewrite Ha.
    cbn [step c_idx].
    replace (Nat.ltb (c_idx c) (S (c_idx c))) with true
      by (symmetry; apply Nat.ltb_lt; lia).
    rewrite (IH (step c a (w ++ rest)) rest fuel (S cnt)); try assumption.
    + reflexivity.
    + reflexivity.
    + cbn [List.length] in Hlo. lia.
    + rewrite Hc in Hfuel. cbn [c_rest step List.length app] in *. lia.
    + cbn [List.length walk] in Hk. rewrite Hc in Hk. exact Hk.
Qed.

End GreedyRuns.

(** ** Search and substitution *)

Lemma match_at_inv (r : regex) (c : cursor) (m : rematch) :
  match_at r c = Some m ->
  exists w, reads c w (m_after m)
            /\ m_start m = c_idx c /\ m_end m = c_idx (m_after m).
Proof.
  unfold match_at. intros H.
  apply rmatch_reads in H. destruct H as (w & c' & g' & Hr & Hk).
  inversion Hk; subst; cbn. exists w. auto.
Qed.

Lemma search_loop_hit (r : regex) (i : nat) (prev : option char) (s : str)
      (m : rematch) :
  match_at r (Cursor i prev s) = Some m -> search_loop r i prev s = Some m.
Proof. intros H. destruct s; cbn [search_loop]; now rewrite H. Qed.

Lemma search_loop_skip (r : regex) (i : nat) (prev : option char)
      (x : char) (xs : str) :
  match_at r (Cursor i prev (x :: xs)) = None ->
  search_loop r i prev (x :: xs) = search_loop r (S i) (Some x) xs.
Proof. intros H. cbn [search_loop]. now rewrite H. Qed.

Lemma search_loop_end (r : regex) (i : nat) (prev : option char) :
  match_at r (Cursor i prev []) = None -> search_loop r i prev [] = None.
Proof. intros H. cbn [search_loop]. now rewrite H. Qed.

(** A match found by the search is a match at some position of the text. *)
Lemma search_loop_inv (r : regex) (s : str) :
  forall i prev m,
    search_loop r i prev s = Some m ->
    exists pre post prev',
      s = pre ++ post
      /\ match_at r (Cursor (i + List.length pre) prev' post) = Some m.
Proof.
  induction s as [| x xs IH]; intros i prev m H; cbn [search_loop] in H.
  - destruct (match_at r (Cursor i prev [])) as [m' |] eqn:Hm; [| discriminate].
    inversion H; subst. exists [], [], prev. cbn. now rewrite Nat.add_0_r.
  - destruct (match_at r (Cursor i prev (x :: xs))) as [m' |] eqn:Hm.
    + inversion H; subst. exists [], (x :: xs), prev. cbn. now rewrite Nat.add_0_r.
    + apply IH in H. destruct H as (pre & post & prev' & -> & H).
      exists (x :: pre), post, prev'. cbn [app List.length]. split; [reflexivity |].
      now rewrite Nat.add_succ_r.
Qed.

Lemma search_loop_ge (r : regex) (s : str) (i : nat) (prev : option char)
      (m : rematch) :
  search_loop r i prev s = Some m -> (i <= m_start m)%nat.
Proof.
  intros H. apply search_loop_inv in H. destruct H as (pre & post & prev' & _ & H).
  apply match_at_inv in H. destruct H as (w & _ & Hs & _). cbn in Hs. lia.
Qed.

Lemma sub_loop_none (r : regex) (repl : rematch -> result str) (f : nat)
      (c : cursor) :
  search_from r c = None -> sub_loop (S f) r repl c = Ok (c_rest c).
Proof. intros H. cbn [sub_loop]. now rewrite H. Qed.

(** Where the pattern does not match, the character is copied. *)
Lemma sub_loop_skip (r : regex) (repl : rematch -> result str) (f i : nat)
      (prev : option char) (x : char) (xs : str) :
  match_at r (Cursor i prev (x :: xs)) = None ->
  sub_loop (S f) r repl (Cursor i prev (x :: xs))
  = (t <- sub_loop (S f) r repl (Cursor (S i) (Some x) xs) ;; Ok (x :: t)).
Proof.
  intros H. cbn [sub_loop]. unfold search_from. cbn [c_idx c_prev c_rest].
  rewrite (search_loop_skip r i prev x xs H).
  destruct (search_loop r (S i) (Some x) xs) as [m |] eqn:Hs; [| reflexivity].
  apply search_loop_ge in Hs.
  replace (m_start m - i)%nat with (S (m_start m - S i)) by lia.
  cbn [firstn]. destruct (repl m) as [rep | e]; cbn [bind]; [| reflexivity].
  destruct (Nat.ltb (m_start m) (m_end m)).
  - destruct (sub_loop f r repl (m_after m)); reflexivity.
  - destruct (c_rest (m_after m)); [reflexivity |].
    destruct (sub_loop f r repl _); reflexivity.
Qed.

(** Where the pattern matches a non-empty text, the text is replaced. *)
Lemma sub_loop_hit (r : regex) (repl : rematch -> result str) (f : nat)
      (c : cursor) (m : rematch) :
  match_at r c = Some m ->
  (m_start m < m_end m)%nat ->
  sub_loop (S f) r repl c
  = (rep <- repl m ;; rest <- sub_loop f r repl (m_after m) ;; Ok (rep ++ rest)).
Proof.
  intros H Hlt. cbn [sub_loop]. unfold search_from.
  destruct c as [i prev s]. cbn [c_idx c_prev c_rest].
  rewrite (search_loop_hit r i prev s m H).
  apply match_at_inv in H. destruct H as (w & _ & Hs & _). cbn in Hs.
  rewrite Hs, Nat.sub_diag. cbn [firstn app].
  apply Nat.ltb_lt in Hlt. rewrite <- Hs, Hlt. reflexivity.
Qed.

(** ** Decoder: hex escapes *)

Lemma match_at_hex (i : nat) (prev : option char) (s : str) :
  match_at hex_re (Cursor i prev s) = hex_at i s.
Proof.
  unfold match_at, hex_re, hex_at, times. cbn [seq rmatch c_rest c_idx step].
  destruct s as [| a s]; [reflexivity |].
  destruct (a =? 92); [| now destruct s as [| ? [| ? [| ? ?]]]].
  destruct s as [| q s]; [reflexivity |].
  destruct (q =? 39); [| now destruct s as [| ? [| ? ?]]].
  cbn [andb List.length rep_loop under Nat.ltb Nat.leb rmatch c_rest c_idx step].
  destruct s as [| h1 s]; [reflexivity |].
  destruct (is_hex h1); [| now destruct s].
  rewrite Nat.leb_refl.
  destruct s as [| h2 s]; [reflexivity |].
  cbn [andb List.length rep_loop under Nat.ltb Nat.leb rmatch c_rest c_idx step].
  destruct (is_hex h2); [| reflexivity].
  rewrite Nat.leb_refl.
  destruct s as [| x s];
    cbn [andb List.length rep_loop under Nat.ltb Nat.leb rmatch c_rest c_idx
         step plus Nat.add];
    replace (S (S (S (S i))) - S (S i))%nat with 2%nat by lia; reflexivity.
Qed.

Lemma is_hex_value (h : char) :
  is_hex h = true ->
  is_ascii_space h = false
  /\ exists v, hexval h = Some v /\ 0 <= v <= 15.
Proof.
  unfold is_hex, is_ascii_space, hexval. cbn [existsb]. intros H.
  assert (Hr : 48 <= h <= 57 \/ 97 <= h <= 102 \/ 65 <= h <= 70).
  { destruct (Z.leb_spec 48 h), (Z.leb_spec h 57), (Z.leb_spec 97 h),
      (Z.leb_spec h 102), (Z.leb_spec 65 h), (Z.leb_spec h 70);
      cbn in H; try discriminate; lia. }
  clear H. split.
  - rewrite !(proj2 (Z.eqb_neq _ _)) by lia. reflexivity.
  - destruct (Z.leb_spec 48 h), (Z.leb_spec h 57), (Z.leb_spec 97 h),
      (Z.leb_spec h 102), (Z.leb_spec 65 h), (Z.leb_spec h 70);
      cbn [andb]; try (exfalso; lia);
      (eexists; split; [reflexivity | lia]).
Qed.

Lemma fromhex_pair (h1 h2 : char) :
  is_hex h1 = true -> is_hex h2 = true ->
  exists b, fromhex [h1; h2] = Ok [b]
            /\ Z.of_N (Byte.to_N b) = 16 * hex_value h1 + hex_value h2.
Proof.
  intros H1 H2.
  destruct (is_hex_value h1 H1) as (S1 & v1 & E1 & B1).
  destruct (is_hex_value h2 H2) as (S2 & v2 & E2 & B2).
  unfold hex_value. cbn [fromhex]. rewrite S1, E1, E2.
  destruct (Byte.of_N (Z.to_N (16 * v1 + v2))) as [b |] eqn:Hb.
  - exists b. split; [reflexivity |].
    apply Byte.to_of_N in Hb. rewrite Hb. apply Z2N.id. lia.
  - apply Byte.of_N_None_iff in Hb. lia.
Qed.

Lemma hex_sub_match (i : nat) (prev : option char) (h1 h2 : char) (rest : str) :
  is_hex h1 = true -> is_hex h2 = true ->
  hex_sub (Match i (4 + i) [(1%nat, [h1; h2])] (Cursor (4 + i) (Some h2) rest))
  = [16 * hex_value h1 + hex_value h2].
Proof.
  intros H1 H2. destruct (fromhex_pair h1 h2 H1 H2) as (b & Hb & Hv).
  unfold hex_sub, group_arg, group. cbn [m_groups lookup Nat.eqb bind].
  rewrite Hb. cbn [bind Py.decode_latin1 map]. now rewrite Hv.
Qed.

Lemma sub_hex_loop (n : nat) :
  forall s, (List.length s <= n)%nat ->
  forall fuel i prev, (List.length s < fuel)%nat ->
    sub_loop fuel hex_re (fun m => Ok (hex_sub m)) (Cursor i prev s)
    = Ok (unescape_hex s).
Proof.
  induction n as [| n IH]; intros s Hn fuel i prev Hf.
  - destruct s; [| cbn in Hn; lia]. destruct fuel; [lia |].
    apply sub_loop_none. unfold search_from. cbn [c_idx c_prev c_rest].
    apply search_loop_end. now rewrite match_at_hex.
  - destruct fuel as [| f]; [lia |].
    destruct s as [| a s'].
    { apply sub_loop_none. unfold search_from. cbn [c_idx c_prev c_rest].
      apply search_loop_end. now rewrite match_at_hex. }
    cbn [List.length] in Hn, Hf.
    destruct (hex_at i (a :: s')) as [m |] eqn:Hm.
    + unfold hex_at in Hm.
      destruct s' as [| q [| h1 [| h2 rest]]]; try discriminate.
      destruct ((a =? 92) && (q =? 39) && is_hex h1 && is_hex h2) eqn:Hc;
        [| discriminate].
      inversion Hm; subst m; clear Hm.
      pose proof Hc as Hc'.
      apply andb_prop in Hc'. destruct Hc' as [Hc' Hh2].
      apply andb_prop in Hc'. destruct Hc' as [_ Hh1].
      rewrite sub_loop_hit with
        (m := Match i (4 + i) [(1%nat, [h1; h2])] (Cursor (4 + i) (Some h2) rest)).
      * rewrite hex_sub_match by assumption. cbn [bind m_after].
        cbn [List.length] in Hn, Hf.
        rewrite IH by lia. cbn [bind app unescape_hex]. now rewrite Hc.
      * rewrite match_at_hex. unfold hex_at. now rewrite Hc.
      * cbn. lia.
    + rewrite sub_loop_skip by (now rewrite match_at_hex).
      rewrite IH by lia. cbn [bind]. f_equal.
      unfold hex_at in Hm. cbn [unescape_hex].
      destruct s' as [| q [| h1 [| h2 rest]]]; try reflexivity.
      destruct ((a =? 92) && (q =? 39) && is_hex h1 && is_hex h2);
        [discriminate | reflexivity].
Qed.



(** ** Decoder: unicode escapes and lines *)

(** The decoding examples of the specification. *)
Example decoded_lines_unicode_par :
  decoded_lines (list_byte_of_string "\u65 hello\par world")
  = Ok [lit "A hello"; lit "world"].
Proof. vm_compute. reflexivity. Qed.

Example decoded_lines_hex :
  decoded_lines (list_byte_of_string "\'41") = Ok [lit "A"].
Proof. vm_compute. reflexivity. Qed.

(** Whenever the decoder returns, its lines are trimmed and not empty. *)
Lemma decoded_lines_trimmed (file_content : list byte) (lines : list str) :
  decoded_lines file_content = Ok lines -> Forall trimmed_nonempty lines.
Proof.
  unfold decoded_lines. intros H.
  destruct (rtf_to_text (Py.decode_latin1 file_content)) as [text | e];
    [| discriminate].
  cbn [bind] in H. inversion H; subst lines; clear H.
  apply Forall_forall. intros ln Hin. apply in_map_iff in Hin.
  destruct Hin as (raw & <- & Hin). apply filter_In in Hin.
  destruct Hin as [_ Ht]. split; [| apply strip_idem].
  intros E. now rewrite E in Ht.
Qed.

(** C1 fails on the code.  A unicode escape whose number does not fit a
    C [int] makes [chr] raise [OverflowError], which the handler around
    it (it catches [ValueError]) lets through; an escape with more than
    4300 digits makes [int], which stands outside the handler, raise
    [ValueError].  In both cases the decoder and the entry point raise.
    An unrenderable code point inside the range of a C [int] does
    degrade to a space. *)
Theorem decoder_raises_on_huge_unicode_escape :
  process_rtf_file (list_byte_of_string "\u99999999999") (lit "ruteliste.rtf")
  = Raise OverflowError
  /\ process_rtf_file
       (list_byte_of_string "\u" ++ repeat "9"%byte 4301) (lit "ruteliste.rtf")
     = Raise ValueError
  /\ rtf_to_text (lit "a\u1114112 b") = Ok (lit "a b").
Proof. repeat split; vm_compute; reflexivity. Qed.

(** ** Page splitter *)

Lemma split_step_eq (pages : list (list str)) (current : list str) (ln : str) :
  split_step (pages, current) ln
  = if is_footer ln then (pages ++ [current ++ [ln]], [])
    else (pages, current ++ [ln]).
Proof. reflexivity. Qed.

Lemma split_loop_concat (lines : list str) :
  forall pages current,
    List.concat (fst (fold_left split_step lines (pages, current)))
      ++ snd (fold_left split_step lines (pages, current))
    = List.concat pages ++ current ++ lines.
Proof.
  induction lines as [| ln lines IH]; intros pages current; cbn [fold_left].
  - cbn [fst snd]. now rewrite app_nil_r.
  - rewrite split_step_eq. destruct (is_footer ln).
    + rewrite IH. rewrite concat_app. simpl.
      now rewrite !app_nil_r, <- !app_assoc.
    + rewrite IH. now rewrite <- !app_assoc.
Qed.

Lemma split_loop_inv (lines : list str) :
  forall pages current,
    Forall closed_page pages ->
    Forall (fun ln => is_footer ln = false) current ->
    Forall closed_page (fst (fold_left split_step lines (pages, current)))
    /\ Forall (fun ln => is_footer ln = false)
              (snd (fold_left split_step lines (pages, current))).
Proof.
  induction lines as [| ln lines IH]; intros pages current Hp Hc;
    cbn [fold_left].
  - auto.
  - rewrite split_step_eq. destruct (is_footer ln) eqn:Hf.
    + apply IH; [| constructor].
      apply Forall_app. split; [assumption |].
      constructor; [| constructor].
      exists current, ln. auto.
    + apply IH; [assumption |].
      apply Forall_app. split; [assumption |]. now constructor.
Qed.

Lemma split_pages_shape (lines : list str) :
  exists closed trailing,
    split_pages lines
    = closed ++ match trailing with [] => [] | _ => [trailing] end
    /\ Forall closed_page closed
    /\ Forall (fun ln => is_footer ln = false) trailing
    /\ List.concat closed ++ trailing = lines.
Proof.
  unfold split_pages.
  pose proof (split_loop_concat lines [] []) as Hcat.
  pose proof (split_loop_inv lines [] [] (Forall_nil _) (Forall_nil _)) as [Hp Hc].
  destruct (fold_left split_step lines ([], [])) as [pages current].
  simpl in *. exists pages, current. repeat split; try assumption.
  destruct current; [now rewrite app_nil_r | reflexivity].
Qed.

(** C9. The splitter partitions the lines without loss or duplication:
    the pages, concatenated in order, are the input line sequence. *)
Theorem split_pages_concat :
  forall lines : list str, List.concat (split_pages lines) = lines.
Proof.
  intros lines.
  destruct (split_pages_shape lines) as (closed & trailing & -> & _ & _ & Hcat).
  rewrite concat_app, <- Hcat. f_equal.
  destruct trailing; simpl; [reflexivity | now rewrite app_nil_r].
Qed.

(** C7, as the code has it.  The footer pattern of the splitter is matched
    with regard to case (a line "side 1 AF 2" is no footer).  Every page
    the splitter closes ends with a footer line and holds no other; the
    lines after the last footer line form a final page when there are
    any; nothing is lost.  The lines L1, L2, "Side 1 af 2", L3, with L1
    and L2 no footers, give the two pages L1, L2, "Side 1 af 2" and L3. *)
Theorem split_pages_footer :
  forall (lines : list str) (L1 L2 L3 : str),
    is_footer L1 = false ->
    is_footer L2 = false ->
    (exists closed trailing,
        split_pages lines
        = closed ++ match trailing with [] => [] | _ => [trailing] end
        /\ Forall closed_page closed
        /\ Forall (fun ln => is_footer ln = false) trailing
        /\ List.concat closed ++ trailing = lines)
    /\ split_pages [L1; L2; lit "Side 1 af 2"; L3]
       = [[L1; L2; lit "Side 1 af 2"]; [L3]]
    /\ is_footer (lit "side 1 AF 2") = false.
Proof.
  intros lines L1 L2 L3 H1 H2. split; [apply split_pages_shape |].
  split; [| vm_compute; reflexivity].
  assert (Hf : is_footer (lit "Side 1 af 2") = true) by (vm_compute; reflexivity).
  unfold split_pages. cbn [fold_left].
  rewrite !split_step_eq, H1. cbn [app]. rewrite !split_step_eq, H2. cbn [app].
  rewrite !split_step_eq, Hf. cbn [app]. rewrite !split_step_eq.
  destruct (is_footer L3); reflexivity.
Qed.

Lemma split_pages_footer_witness :
  is_footer (lit "L1") = false /\ is_footer (lit "L2") = false
  /\ split_pages [lit "L1"; lit "L2"; lit "Side 1 af 2"; lit "L3"]
     = [[lit "L1"; lit "L2"; lit "Side 1 af 2"]; [lit "L3"]].
Proof.
  split; [vm_compute; reflexivity |]. split; [vm_compute; reflexivity |].
  apply (split_pages_footer [lit "x"; lit "Side 2 af 2"]
                            (lit "L1") (lit "L2") (lit "L3"));
    vm_compute; reflexivity.
Defined.

(** C7 as stated fails: the line "side 1 AF 2" matches the footer words
    when case is ignored, and the splitter does not close a page at it. *)
Lemma split_pages_ignorecase_counterexample :
  found (search footer_re_ignorecase (lit "side 1 AF 2")) = true
  /\ split_pages [lit "L1"; lit "side 1 AF 2"; lit "L3"]
     = [[lit "L1"; lit "side 1 AF 2"; lit "L3"]].
Proof. split; vm_compute; reflexivity. Qed.

(** ** Metadata extractor *)

Lemma last_match_snoc (r : regex) (l : list str) (x : str) :
  last_match r (l ++ [x]) = pick r x (last_match r l).
Proof.
  unfold last_match, pick. rewrite rev_app_distr. cbn [rev app find].
  destruct (search r x) as [m |] eqn:Hx; cbn [found].
  - now rewrite Hx.
  - reflexivity.
Qed.

Lemma find_meta_snoc (l : list str) (x : str) :
  find_meta (l ++ [x]) = meta_step (find_meta l) x.
Proof. unfold find_meta. now rewrite fold_left_app. Qed.

(** C4. The extractor is a fold over the lines of the page with five
    optional fields: a step overwrites a field when its label pattern
    matches the line and keeps the value held when it does not, so each
    field of the result is the value captured at the last line of the
    page that its pattern matches, and is absent when none does. *)
Theorem find_meta_last_match :
  forall page_lines : list str,
    find_meta page_lines
    = fold_left meta_step page_lines (Meta None None None None None)
    /\ (forall st ln,
          rutenummer (meta_step st ln)
          = match search host_re ln with
            | Some m => group m 1 | None => rutenummer st end
          /\ portnummer (meta_step st ln)
             = match search port_re ln with
               | Some m => group m 1 | None => portnummer st end
          /\ starttid (meta_step st ln)
             = match search start_re ln with
               | Some m => group m 1 | None => starttid st end
          /\ sluttid (meta_step st ln)
             = match search slut_re ln with
               | Some m => group m 1 | None => sluttid st end
          /\ afregningstid (meta_step st ln)
             = match search afr_re ln with
               | Some m => group m 1 | None => afregningstid st end)
    /\ rutenummer (find_meta page_lines) = last_match host_re page_lines
    /\ portnummer (find_meta page_lines) = last_match port_re page_lines
    /\ starttid (find_meta page_lines) = last_match start_re page_lines
    /\ sluttid (find_meta page_lines) = last_match slut_re page_lines
    /\ afregningstid (find_meta page_lines) = last_match afr_re page_lines.
Proof.
  intros page_lines. split; [reflexivity |]. split.
  { intros st ln. repeat split. }
  induction page_lines as [| x l IH] using rev_ind.
  - repeat split.
  - destruct IH as (H1 & H2 & H3 & H4 & H5).
    rewrite find_meta_snoc, !last_match_snoc.
    cbn [meta_step rutenummer portnummer starttid sluttid afregningstid].
    rewrite H1, H2, H3, H4, H5. repeat split.
Qed.

(** ** Address resolver *)

Lemma window_from (page_lines : list str) (i d : nat) :
  forall a,
    flat_map (fun k => match nth_error page_lines (i + k) with
                       | Some s => [s]
                       | None => []
                       end) (List.seq a d)
    = firstn d (skipn (i + a) page_lines).
Proof.
  induction d as [| d IH]; intros a; [reflexivity |].
  cbn [List.seq flat_map]. rewrite IH, (skipn_nth page_lines (i + a)).
  destruct (nth_error page_lines (i + a)) as [x |] eqn:Hx.
  - cbn [firstn app]. now rewrite Nat.add_succ_r.
  - cbn [firstn app]. rewrite skipn_all2; [now destruct d |].
    apply nth_error_None in Hx. lia.
Qed.

Lemma window_eq (page_lines : list str) (i d : nat) :
  window page_lines i d = firstn d (skipn (S i) page_lines).
Proof. unfold window. rewrite window_from. now rewrite Nat.add_1_r. Qed.

Lemma scan_street_find (w : list str) :
  scan_street w = option_map Py.strip (find survives w).
Proof.
  induction w as [| s w IH]; [reflexivity |].
  cbn [scan_street find]. unfold survives at 1.
  destruct (Py.truthy s), (is_noise s), (has_four s); cbn; auto.
Qed.

Lemma scan_post_find (w : list str) :
  scan_post w = option_map postal_of (find is_postal w).
Proof.
  induction w as [| s w IH]; [reflexivity |].
  cbn [scan_post find]. unfold is_postal at 1.
  destruct (search post_re s) as [pm |] eqn:E; cbn [found option_map];
    [| exact IH].
  unfold postal_of. now rewrite E.
Qed.

Lemma scan_full_find (w : list str) :
  scan_full w = option_map full_of (find is_full w).
Proof.
  induction w as [| s w IH]; [reflexivity |].
  cbn [scan_full find]. unfold is_full at 1.
  destruct (search full_re s) as [pm |] eqn:E; cbn [found andb];
    [| exact IH].
  destruct (is_noise s); cbn [negb option_map]; [exact IH |].
  unfold full_of. now rewrite E.
Qed.

Lemma find_street_and_post_resolve (page_lines : list str) (i : nat) :
  find_street_and_post page_lines i 12
  = resolve (firstn 12 (skipn (S i) page_lines)).
Proof.
  unfold find_street_and_post, resolve. rewrite window_eq.
  rewrite scan_street_find, scan_post_find, scan_full_find.
  set (w := firstn 12 (skipn (S i) page_lines)).
  destruct (find is_postal w) as [l |]; cbn [option_map];
    [destruct (postal_of l) as [pn by_] |];
    (destruct (find survives w); cbn [option_map fst snd]; [reflexivity |]);
    destruct (find is_full w); reflexivity.
Qed.




(** ** The route-suffix pattern *)

Lemma match_at_suffix_inv (c : cursor) (m : rematch) :
  match_at suffix_re c = Some m ->
  exists ws ws' ds,
    c_rest c = ws ++ [65] ++ ws' ++ ds ++ c_rest (m_after m)
    /\ ws <> []
    /\ forallb Unicode.isspace ws = true
    /\ forallb Unicode.isspace ws' = true
    /\ forallb Unicode.isdecimal ds = true
    /\ (c_rest (m_after m) = [] \/ c_rest (m_after m) = [10])
    /\ (m_start m < m_end m)%nat.
Proof.
  unfold match_at, suffix_re, plus, star, space, digit, oneof.
  cbn [seq]. intros H.
  apply cat_inv, rep_cls_inv in H. destruct H as (ws & c1 & R1 & Hws & Lws & H).
  apply cat_inv, cls_inv in H. destruct H as (a & c2 & R2 & Ha & H).
  apply cat_inv, rep_cls_inv in H. destruct H as (ws' & c3 & R3 & Hws' & _ & H).
  apply cat_inv, rep_cls_inv in H. destruct H as (ds & c4 & R4 & Hds & _ & H).
  cbn [rmatch] in H. destruct (at_end c4) eqn:He; [| discriminate].
  inversion H; subst m; clear H. cbn [m_after m_start m_end].
  change (lit "A") with [65] in Ha.
  cbn [existsb] in Ha. rewrite orb_false_r in Ha. apply Z.eqb_eq in Ha. subst a.
  destruct R1 as [E1 I1], R2 as [E2 I2], R3 as [E3 I3], R4 as [E4 I4].
  exists ws, ws', ds. repeat split; try assumption.
  - rewrite E1, E2, E3, E4. reflexivity.
  - intros ->. cbn in Lws. lia.
  - unfold at_end in He. destruct (c_rest c4) as [| y [| z t]];
      [now left | right | discriminate].
    apply Z.eqb_eq in He. now subst.
  - cbn in I2. lia.
Qed.

Lemma match_at_suffix_short (i : nat) (prev : option char) (s : str) :
  (List.length s < 2)%nat -> match_at suffix_re (Cursor i prev s) = None.
Proof.
  intros Hl. destruct (match_at suffix_re (Cursor i prev s)) as [m |] eqn:Hm;
    [| reflexivity].
  apply match_at_suffix_inv in Hm.
  destruct Hm as (ws & ws' & ds & E & Hne & _). cbn [c_rest] in E.
  rewrite E in Hl. destruct ws; [congruence |].
  cbn in Hl. rewrite length_app in Hl. cbn in Hl. lia.
Qed.

Lemma sub_suffix_tail (f i : nat) (prev : option char) (tail : str) :
  tail = [] \/ tail = [10] ->
  sub_loop (S (S f)) suffix_re (fun _ => @Ok str []) (Cursor i prev tail) = Ok tail.
Proof.
  intros [-> | ->].
  - apply sub_loop_none. apply search_loop_end.
    apply match_at_suffix_short. cbn. lia.
  - rewrite sub_loop_skip by (apply match_at_suffix_short; cbn; lia).
    rewrite sub_loop_none; [reflexivity |].
    apply search_loop_end. apply match_at_suffix_short. cbn. lia.
Qed.

(** The substitution removes at most one token, which ends the string. *)
Lemma sub_suffix_shape (s : str) :
  forall fuel i prev,
    (List.length s < fuel)%nat ->
    sub_loop fuel suffix_re (fun _ => @Ok str []) (Cursor i prev s) = Ok s
    \/ exists p tail,
         ends_with_suffix s p tail
         /\ sub_loop fuel suffix_re (fun _ => @Ok str []) (Cursor i prev s)
            = Ok (p ++ tail).
Proof.
  induction s as [| x xs IH]; intros fuel i prev Hf.
  - left. destruct fuel as [| f]; [cbn in Hf; lia |].
    apply sub_loop_none. apply search_loop_end.
    apply match_at_suffix_short. cbn. lia.
  - destruct fuel as [| f]; [cbn in Hf; lia |]. cbn [List.length] in Hf.
    destruct (match_at suffix_re (Cursor i prev (x :: xs))) as [m |] eqn:Hm.
    + right. pose proof Hm as Hinv. apply match_at_suffix_inv in Hinv.
      destruct Hinv as (ws & ws' & ds & E & Hne & Hws & Hws' & Hds & Ht & Hlt).
      cbn [c_rest] in E.
      exists [], (c_rest (m_after m)). split.
      * exists ws, ws', ds. cbn [app]. repeat split; assumption.
      * rewrite (sub_loop_hit _ _ _ _ _ Hm Hlt). cbn [bind app].
        assert (Hlen : (2 <= List.length (x :: xs))%nat).
        { rewrite E. destruct ws; [congruence |].
          cbn. rewrite length_app. cbn. lia. }
        cbn [List.length] in Hlen.
        destruct f as [| [| f]]; [lia | lia |].
        destruct (m_after m) as [j pv t]. cbn [c_rest] in *.
        now rewrite sub_suffix_tail.
    + rewrite sub_loop_skip by assumption.
      destruct (IH (S f) (S i) (Some x)) as [H | (p & tail & Hp & H)]; [lia | |].
      * left. now rewrite H.
      * right. exists (x :: p), tail. split.
        -- destruct Hp as (ws & ws' & ds & E & Hrest).
           exists ws, ws', ds. split; [now rewrite E | exact Hrest].
        -- now rewrite H.
Qed.

(** The token at the position where it starts: the pattern matches and
    reads it to the end. *)
Lemma match_at_suffix_token (i : nat) (prev : option char) (ws ws' ds : str) :
  ws <> [] ->
  forallb Unicode.isspace ws = true ->
  forallb Unicode.isspace ws' = true ->
  forallb Unicode.isdecimal ds = true ->
  exists m,
    match_at suffix_re (Cursor i prev (ws ++ [65] ++ ws' ++ ds)) = Some m
    /\ c_rest (m_after m) = []
    /\ (m_start m < m_end m)%nat.
Proof.
  intros Hne Hws Hws' Hds.
  set (c0 := Cursor i prev (ws ++ [65] ++ ws' ++ ds)).
  set (c1 := walk c0 (List.length ws)).
  set (c2 := step c1 65 (ws' ++ ds)).
  set (c3 := walk c2 (List.length ws')).
  set (c4 := walk c3 (List.length ds)).
  destruct (walk_rest ws c0 ([65] ++ ws' ++ ds) eq_refl) as [R1 I1].
  fold c1 in R1, I1.
  destruct (walk_rest ws' c2 ds eq_refl) as [R3 I3]. fold c3 in R3, I3.
  assert (R3' : c_rest c3 = ds ++ []) by now rewrite app_nil_r.
  destruct (walk_rest ds c3 [] R3') as [R4 I4]. fold c4 in R4, I4.
  exists (Match i (c_idx c4) [] c4). split; [| split].
  - unfold match_at, suffix_re, plus, star, space, digit, oneof. cbn [seq].
    rewrite rep_cat_eq.
    apply rep_cls_greedy with (w := ws) (rest := [65] ++ ws' ++ ds).
    + reflexivity.
    + exact Hws.
    + vm_compute; reflexivity.
    + destruct ws; [congruence | cbn; lia].
    + lia.
    + fold c1. rewrite cls_cat_eq, R1. cbn [app].
      replace (existsb (Z.eqb 65) (lit "A")) with true
        by (vm_compute; reflexivity).
      fold c2. rewrite rep_cat_eq.
      apply rep_cls_greedy with (w := ws') (rest := ds).
      * reflexivity.
      * exact Hws'.
      * destruct ds as [| d ds]; [exact I |]. cbn in Hds.
        apply andb_prop in Hds. now apply decimal_not_space.
      * lia.
      * lia.
      * fold c3. rewrite rep_cat_eq.
        apply rep_cls_greedy with (w := ds) (rest := []).
        -- exact R3'.
        -- exact Hds.
        -- exact I.
        -- lia.
        -- lia.
        -- fold c4. cbn [rmatch]. unfold at_end. rewrite R4. reflexivity.
  - exact R4.
  - cbn [m_start m_end]. rewrite I4, I3. unfold c2. cbn [step c_idx].
    rewrite I1. unfold c0. cbn [c_idx]. lia.
Qed.

(** No match starts before the token, in a text that does not end with
    white space. *)
Lemma match_at_suffix_before (i : nat) (prev : option char)
      (u ws ws' ds : str) :
  u <> [] ->
  Unicode.isspace (last u 0) = false ->
  forallb Unicode.isspace ws' = true ->
  forallb Unicode.isdecimal ds = true ->
  match_at suffix_re (Cursor i prev (u ++ ws ++ [65] ++ ws' ++ ds)) = None.
Proof.
  intros Hne Hlast Hws' Hds.
  destruct (match_at suffix_re _) as [m |] eqn:Hm; [| reflexivity].
  exfalso. apply match_at_suffix_inv in Hm.
  destruct Hm as (ws1 & ws1' & ds1 & E & _ & H1 & H1' & Hd1 & Ht & _).
  cbn [c_rest] in E.
  set (q := fun y => Unicode.isspace y || Unicode.isdecimal y).
  assert (Hq : q 65 = false) by (vm_compute; reflexivity).
  assert (Hsp : forall l, forallb Unicode.isspace l = true -> forallb q l = true).
  { intros l. apply forallb_impl. intros y Hy. unfold q. now rewrite Hy. }
  assert (Hdc : forall l, forallb Unicode.isdecimal l = true -> forallb q l = true).
  { intros l. apply forallb_impl. intros y Hy. unfold q. rewrite Hy.
    apply orb_true_r. }
  assert (Ha : u ++ ws = ws1).
  { apply (pivot_unique q 65 (u ++ ws) Hq ws1 (ws' ++ ds)
                        (ws1' ++ ds1 ++ c_rest (m_after m))).
    - rewrite <- app_assoc. exact E.
    - rewrite forallb_app. now rewrite Hsp, Hdc.
    - rewrite !forallb_app. rewrite Hsp, Hdc by assumption.
      destruct Ht as [-> | ->]; vm_compute; reflexivity. }
  rewrite <- Ha, forallb_app in H1. apply andb_prop in H1. destruct H1 as [H1 _].
  apply (forallb_last _ _ 0 Hne) in H1. congruence.
Qed.

Lemma sub_suffix_token (ws ws' ds : str) :
  ws <> [] ->
  forallb Unicode.isspace ws = true ->
  forallb Unicode.isspace ws' = true ->
  forallb Unicode.isdecimal ds = true ->
  forall base fuel i prev,
    Unicode.isspace (last base 0) = false ->
    (List.length (base ++ ws ++ [65%Z] ++ ws' ++ ds) < fuel)%nat ->
    sub_loop fuel suffix_re (fun _ => @Ok str [])
             (Cursor i prev (base ++ ws ++ [65] ++ ws' ++ ds))
    = Ok base.
Proof.
  intros Hne Hws Hws' Hds.
  induction base as [| x b IH]; intros fuel i prev Hlast Hf.
  - cbn [app] in *.
    destruct (match_at_suffix_token i prev ws ws' ds Hne Hws Hws' Hds)
      as (m & Hm & Hend & Hlt).
    assert (Hlen : (3 <= fuel)%nat).
    { destruct ws; [congruence |]. cbn [app List.length] in Hf.
      rewrite length_app in Hf. cbn [List.length] in Hf. lia. }
    destruct fuel as [| [| [| f]]]; try lia.
    rewrite (sub_loop_hit _ _ _ _ _ Hm Hlt). cbn [bind app].
    destruct (m_after m) as [j pv t]. cbn [c_rest] in Hend. subst t.
    rewrite sub_suffix_tail by now left. reflexivity.
  - destruct fuel as [| f]; [lia |].
    rewrite <- app_comm_cons.
    rewrite sub_loop_skip.
    + rewrite IH.
      * reflexivity.
      * destruct b as [| y b]; [vm_compute; reflexivity | exact Hlast].
      * cbn [List.length app] in Hf |- *. lia.
    + rewrite app_comm_cons.
      apply match_at_suffix_before; try assumption. discriminate.
Qed.

(** ** Store names *)

Lemma butik_of_token (base ws ws' ds : str) :
  ws <> [] ->
  forallb Unicode.isspace ws = true ->
  forallb Unicode.isspace ws' = true ->
  forallb Unicode.isdecimal ds = true ->
  Unicode.isspace (last base 0) = false ->
  butik_of (base ++ ws ++ [65] ++ ws' ++ ds) = Py.strip base.
Proof.
  intros Hne Hws Hws' Hds Hlast. unfold butik_of, sub, sub_with, start_of.
  rewrite (sub_suffix_token ws ws' ds Hne Hws Hws' Hds base); 
    [reflexivity | assumption | apply Nat.lt_succ_diag_r].
Qed.

Lemma butik_of_other (base ds : str) (L : char) :
  Unicode.isspace L = false ->
  Unicode.isdecimal L = false ->
  L <> 65 ->
  forallb Unicode.isdecimal ds = true ->
  butik_of (base ++ [L] ++ ds) = Py.strip (base ++ [L] ++ ds).
Proof.
  intros HLs HLd HLa Hds. unfold butik_of, sub, sub_with, start_of.
  destruct (sub_suffix_shape (base ++ [L] ++ ds)
              (S (List.length (base ++ [L] ++ ds))) 0 None)
    as [E | (p & tail & Hp & _)];
    [apply Nat.lt_succ_diag_r | now rewrite E |].
  exfalso.
  destruct Hp as (ws & ws' & ds' & E & Hne & Hws & Hws' & Hds' & Ht).
  set (q := fun y => Unicode.isspace y || Unicode.isdecimal y || (y =? 65)).
  assert (HqL : q L = false).
  { unfold q. rewrite HLs, HLd. cbn. now apply Z.eqb_neq. }
  assert (Hq : forallb q (ws ++ [65] ++ ws' ++ ds' ++ tail) = true).
  { assert (Hsp : forall l, forallb Unicode.isspace l = true -> forallb q l = true).
    { intros l. apply forallb_impl. intros y Hy. unfold q. now rewrite Hy. }
    assert (Hdc : forall l, forallb Unicode.isdecimal l = true -> forallb q l = true).
    { intros l. apply forallb_impl. intros y Hy. unfold q. rewrite Hy.
      now rewrite orb_true_r. }
    assert (Ha : forallb q [65] = true) by (vm_compute; reflexivity).
    assert (Htl : forallb q tail = true)
      by (destruct Ht as [-> | ->]; vm_compute; reflexivity).
    rewrite !forallb_app.
    apply andb_true_intro; split; [now apply Hsp |].
    apply andb_true_intro; split; [exact Ha |].
    apply andb_true_intro; split; [now apply Hsp |].
    apply andb_true_intro; split; [now apply Hdc | exact Htl]. }
  assert (Hhead : forall l, ds = l ++ ws ++ [65] ++ ws' ++ ds' ++ tail -> False).
  { intros l Hl. destruct ws as [| w0 ws]; [congruence |].
    cbn [forallb] in Hws. apply andb_prop in Hws. destruct Hws as [Hw0 _].
    rewrite Hl, forallb_app in Hds. apply andb_prop in Hds.
    destruct Hds as [_ Hds]. cbn [forallb app] in Hds. apply andb_prop in Hds.
    destruct Hds as [Hd0 _]. apply decimal_not_space in Hd0. congruence. }
  rewrite (app_assoc base) in E. apply app_eq_app in E.
  destruct E as (l & [[E1 E2] | [E1 E2]]).
  - destruct l as [| z l] using rev_ind.
    + apply (Hhead []). cbn [app] in E2 |- *. congruence.
    + clear IHl. rewrite app_assoc in E1. apply app_inj_tail in E1.
      destruct E1 as [_ ->].
      rewrite E2, forallb_app in Hq. apply andb_prop in Hq. destruct Hq as [Hq _].
      rewrite forallb_app in Hq. apply andb_prop in Hq. destruct Hq as [_ Hq].
      cbn in Hq. rewrite HqL in Hq. discriminate.
  - now apply (Hhead l).
Qed.

Lemma butik_of_shape (raw : str) :
  butik_of raw = Py.strip raw
  \/ exists p tail,
       ends_with_suffix raw p tail /\ butik_of raw = Py.strip (p ++ tail).
Proof.
  unfold butik_of, sub, sub_with, start_of.
  destruct (sub_suffix_shape raw (S (List.length raw)) 0 None)
    as [E | (p & tail & Hp & E)]; [apply Nat.lt_succ_diag_r | |];
    rewrite E; [now left | right; now exists p, tail].
Qed.

Lemma butik_contains_raw (name_raw : str) :
  Py.contains depot (butik_of name_raw) = true ->
  Py.contains depot name_raw = true.
Proof.
  unfold butik_of, sub, sub_with, start_of. intros H.
  apply contains_strip in H.
  destruct (sub_suffix_shape name_raw (S (List.length name_raw)) 0 None)
    as [E | (p & tail & Hp & E)]; [lia | |].
  - now rewrite E in H.
  - rewrite E in H. destruct Hp as (ws & ws' & ds & Hraw & _ & _ & _ & _ & Ht).
    assert (Hin : Py.contains depot p = true).
    { destruct Ht as [-> | ->].
      - now rewrite app_nil_r in H.
      - change depot with (lit "Hasselage" ++ [114]) in *.
        apply contains_snoc with (y := 10); [lia | exact H]. }
    rewrite Hraw. now apply contains_app_l.
Qed.

(** ** Rows of a page *)

Lemma fold_rows (A B : Type) (f : A -> option B) (l : list A) :
  forall acc,
    fold_left (fun rows x => match f x with
                             | Some r => rows ++ [r]
                             | None => rows
                             end) l acc
    = acc ++ flat_map (fun x => opt_list (f x)) l.
Proof.
  induction l as [| x l IH]; intros acc; cbn [fold_left flat_map].
  - now rewrite app_nil_r.
  - rewrite IH. destruct (f x); cbn [opt_list app].
    + now rewrite <- app_assoc.
    + reflexivity.
Qed.

Lemma parse_page_flat_map (page_lines : list str) :
  parse_page page_lines
  = flat_map (fun il => opt_list (stop_row page_lines (find_meta page_lines)
                                           (fst il) (snd il)))
             (enumerate page_lines).
Proof. unfold parse_page. now rewrite fold_rows. Qed.

Lemma fold_pages (pages : list (list str)) :
  forall acc,
    fold_left (fun acc page => acc ++ parse_page page) pages acc
    = acc ++ List.concat (map parse_page pages).
Proof.
  induction pages as [| pg pages IH]; intros acc; cbn [fold_left map List.concat].
  - now rewrite app_nil_r.
  - rewrite IH. now rewrite <- app_assoc.
Qed.

Lemma in_enumerate_from (l : list str) :
  forall a i ln,
    In (i, ln) (combine (List.seq a (List.length l)) l) ->
    (a <= i)%nat /\ nth_error l (i - a) = Some ln.
Proof.
  induction l as [| x l IH]; intros a i ln H; cbn in H; [contradiction |].
  destruct H as [H | H].
  - inversion H; subst. rewrite Nat.sub_diag. split; [lia | reflexivity].
  - apply IH in H. destruct H as [Hle H]. split; [lia |].
    replace (i - a)%nat with (S (i - S a)) by lia. exact H.
Qed.

Lemma in_parse_page (page_lines : list str) (r : row) :
  In r (parse_page page_lines) ->
  exists i ln,
    nth_error page_lines i = Some ln
    /\ stop_row page_lines (find_meta page_lines) i ln = Some r.
Proof.
  rewrite parse_page_flat_map. intros H. apply in_flat_map in H.
  destruct H as ([i ln] & Hin & Hr). cbn [fst snd] in Hr.
  exists i, ln. split.
  - apply in_enumerate_from in Hin. destruct Hin as [_ Hin].
    now rewrite Nat.sub_0_r in Hin.
  - destruct (stop_row _ _ i ln); cbn in Hr; [| contradiction].
    destruct Hr as [-> | []]. reflexivity.
Qed.

(** What a row says about the line it comes from. *)
Lemma stop_row_inv (page_lines : list str) (md : meta) (i : nat) (ln : str)
      (r : row) :
  stop_row page_lines md i ln = Some r ->
  exists sm,
    rematch_at_start stop_line_re ln = Some sm
    /\ existsb names_depot
         [Some (name_raw_of sm);
          fst (fst (find_street_and_post page_lines i 12));
          snd (find_street_and_post page_lines i 12)] = false
    /\ r = Row (butik_of (name_raw_of sm))
               (fst (fst (find_street_and_post page_lines i 12)))
               (snd (fst (find_street_and_post page_lines i 12)))
               (snd (find_street_and_post page_lines i 12))
               (group sm 3)
               (rutenummer md) (portnummer md) (starttid md) (sluttid md)
               (afr_hours_of (afregningstid md)).
Proof.
  unfold stop_row, name_raw_of. intros H.
  destruct (rematch_at_start stop_line_re ln) as [sm |]; [| discriminate].
  exists sm. split; [reflexivity |].
  destruct (find_street_and_post page_lines i 12) as [[street postnr] by_].
  cbn [fst snd].
  destruct (existsb names_depot _); [discriminate |].
  inversion H. split; reflexivity.
Qed.

(** C6, as the code has it.  The store name of an emitted record is the
    raw matched name (trimmed) without a trailing token of the shape
    white space, the capital letter A, optional white space, optional
    digits at the end of the string, then trimmed: a token with the
    letter A is stripped, nothing else ever is, and a name that ends
    with another letter and optional digits (" B2", " C") is kept. *)
Theorem store_name_strips_A_suffix :
  forall (page_lines : list str) (md : meta) (i : nat) (ln : str) (r : row)
         (base ws ws' ds other ds2 : str) (L : char),
    stop_row page_lines md i ln = Some r ->
    ws <> [] ->
    forallb Unicode.isspace ws = true ->
    forallb Unicode.isspace ws' = true ->
    forallb Unicode.isdecimal ds = true ->
    Unicode.isspace (last base 0) = false ->
    Unicode.isspace L = false ->
    Unicode.isdecimal L = false ->
    L <> 65 ->
    forallb Unicode.isdecimal ds2 = true ->
    (exists sm,
        rematch_at_start stop_line_re ln = Some sm
        /\ Butiksnavn r = butik_of (name_raw_of sm))
    /\ butik_of (base ++ ws ++ [65] ++ ws' ++ ds) = Py.strip base
    /\ butik_of (other ++ [L] ++ ds2) = Py.strip (other ++ [L] ++ ds2)
    /\ (forall raw,
          butik_of raw = Py.strip raw
          \/ exists p tail,
               ends_with_suffix raw p tail
               /\ butik_of raw = Py.strip (p ++ tail)).
Proof.
  intros page_lines md i ln r base ws ws' ds other ds2 L
         Hrow Hne Hws Hws' Hds Hlast HLs HLd HLa Hds2.
  split; [| split; [| split]].
  - apply stop_row_inv in Hrow. destruct Hrow as (sm & Hsm & _ & ->).
    exists sm. split; [exact Hsm | reflexivity].
  - now apply butik_of_token.
  - now apply butik_of_other.
  - apply butik_of_shape.
Qed.

Lemma store_name_strips_A_suffix_witness :
  butik_of (lit "Netto Aarhus" ++ lit " " ++ [65] ++ [] ++ lit "1")
  = Py.strip (lit "Netto Aarhus")
  /\ butik_of (lit "Netto " ++ [66] ++ lit "2")
     = Py.strip (lit "Netto " ++ [66] ++ lit "2").
Proof.
  pose proof
    (store_name_strips_A_suffix
       [lit "12345 Netto A1 8:00-9:00 1 10:00 10:30"]
       (Meta None None None None None) 0
       (lit "12345 Netto A1 8:00-9:00 1 10:00 10:30")
       (Row (lit "Netto") None None None (Some (lit "10:00"))
            None None None None None)
       (lit "Netto Aarhus") (lit " ") [] (lit "1") (lit "Netto ") (lit "2") 66
       ltac:(vm_compute; reflexivity) ltac:(vm_compute; discriminate)
       ltac:(vm_compute; reflexivity) ltac:(vm_compute; reflexivity)
       ltac:(vm_compute; reflexivity) ltac:(vm_compute; reflexivity)
       ltac:(vm_compute; reflexivity) ltac:(vm_compute; reflexivity)
       ltac:(lia) ltac:(vm_compute; reflexivity))
    as (_ & HA & HB & _).
  split; [exact HA | exact HB].
Defined.

(** C6 as stated fails: the tokens " B2" and " C" are not stripped. *)
Lemma store_name_other_letter_counterexample :
  map Butiksnavn
      (parse_page [lit "12345 Netto B2 8:00-9:00 1 10:00 10:30";
                   lit "Vej 1"; lit "8000 Aarhus"])
  = [lit "Netto B2"]
  /\ map Butiksnavn
         (parse_page [lit "12345 Netto C 8:00-9:00 1 10:00 10:30";
                      lit "Vej 1"; lit "8000 Aarhus"])
     = [lit "Netto C"].
Proof. split; vm_compute; reflexivity. Qed.

(** ** Depot rows *)

Lemma names_depot_contains (s : str) :
  Py.contains depot s = true -> names_depot (Some s) = true.
Proof.
  intros H. unfold names_depot. rewrite H.
  destruct s; [vm_compute in H; discriminate | reflexivity].
Qed.

Lemma names_depot_false (s : str) :
  names_depot (Some s) = false -> Py.contains depot s = false.
Proof.
  intros H. destruct (Py.contains depot s) eqn:E; [| reflexivity].
  apply names_depot_contains in E. congruence.
Qed.

(** C5, as the code has it.  The containment test is the plain,
    case-sensitive [in].  A matched stop line whose name (raw or
    normalized), resolved street or resolved city contains "Hasselager"
    emits nothing, so no record of a page has a store name, street or
    city that contains it. *)
Theorem depot_rows_excluded :
  forall (page_lines : list str) (md : meta) (i : nat) (ln : str)
         (sm : rematch) (street postnr by_ : option str),
    rematch_at_start stop_line_re ln = Some sm ->
    find_street_and_post page_lines i 12 = (street, postnr, by_) ->
    ((Py.contains depot (name_raw_of sm) = true
      \/ Py.contains depot (butik_of (name_raw_of sm)) = true
      \/ (exists s, street = Some s /\ Py.contains depot s = true)
      \/ (exists c, by_ = Some c /\ Py.contains depot c = true)) ->
     stop_row page_lines md i ln = None)
    /\ (forall r,
          In r (parse_page page_lines) ->
          Py.contains depot (Butiksnavn r) = false
          /\ (forall s, Adresse r = Some s -> Py.contains depot s = false)
          /\ (forall c, By r = Some c -> Py.contains depot c = false)).
Proof.
  intros page_lines md i ln sm street postnr by_ Hsm Hfind. split.
  - intros H. unfold stop_row. rewrite Hsm, Hfind.
    fold (name_raw_of sm).
    assert (E : existsb names_depot [Some (name_raw_of sm); street; by_] = true).
    { cbn [existsb].
      destruct H as [H | [H | [(s & -> & H) | (c & -> & H)]]].
      - now rewrite (names_depot_contains _ H).
      - apply butik_contains_raw in H. now rewrite (names_depot_contains _ H).
      - rewrite (names_depot_contains _ H). now rewrite orb_true_r.
      - rewrite (names_depot_contains _ H). now rewrite !orb_true_r. }
    now rewrite E.
  - intros r Hr. apply in_parse_page in Hr.
    destruct Hr as (j & l & _ & Hrow).
    apply stop_row_inv in Hrow. destruct Hrow as (sm' & _ & Hex & ->).
    cbn [existsb] in Hex. rewrite orb_false_r in Hex.
    apply orb_false_elim in Hex. destruct Hex as [Hn Hex].
    apply orb_false_elim in Hex. destruct Hex as [Hs Hb].
    cbn [Butiksnavn Adresse By]. split; [| split].
    + apply names_depot_false in Hn.
      destruct (Py.contains depot (butik_of (name_raw_of sm'))) eqn:E;
        [| reflexivity].
      apply butik_contains_raw in E. congruence.
    + intros s Hs'. rewrite Hs' in Hs. now apply names_depot_false.
    + intros c Hc'. rewrite Hc' in Hb. now apply names_depot_false.
Qed.

Lemma depot_rows_excluded_witness :
  stop_row [lit "12345 Netto Hasselager 8:00-9:00 1 10:00 10:30";
            lit "Vej 1"; lit "8000 Aarhus"]
           (Meta None None None None None) 0
           (lit "12345 Netto Hasselager 8:00-9:00 1 10:00 10:30")
  = None.
Proof.
  pose proof
    (depot_rows_excluded
       [lit "12345 Netto Hasselager 8:00-9:00 1 10:00 10:30";
        lit "Vej 1"; lit "8000 Aarhus"]
       (Meta None None None None None) 0
       (lit "12345 Netto Hasselager 8:00-9:00 1 10:00 10:30")
       (Match 0 46
          [(4%nat, lit "10:30"); (3%nat, lit "10:00");
           (2%nat, lit "Netto Hasselager"); (1%nat, lit "12345")]
          (Cursor 46 (Some 48) []))
       (Some (lit "Vej 1")) (Some (lit "8000")) (Some (lit "Aarhus"))
       ltac:(vm_compute; reflexivity) ltac:(vm_compute; reflexivity))
    as [H _].
  apply H. left. vm_compute; reflexivity.
Defined.

(** C5 as stated fails: the marker in another case does not exclude the
    record. *)
Lemma depot_ignorecase_counterexample :
  contains_ignorecase depot (lit "Netto hasselager") = true
  /\ contains_ignorecase depot (lit "HASSELAGER VEJ 1") = true
  /\ map Butiksnavn
         (parse_page [lit "12345 Netto hasselager 8:00-9:00 1 10:00 10:30";
                      lit "Vej 1"; lit "8000 Aarhus"])
     = [lit "Netto hasselager"]
  /\ map Adresse
         (parse_page [lit "12345 Netto 8:00-9:00 1 10:00 10:30";
                      lit "HASSELAGER VEJ 1"; lit "8361 hasselager"])
     = [Some (lit "HASSELAGER VEJ 1")].
Proof. repeat split; vm_compute; reflexivity. Qed.

(** ** Order of the records *)





(** ** Settlement hours *)




Lemma digits_value_decimal (a : str) :
  forallb Unicode.isdecimal a = true ->
  forall acc, exists v, Py.digits_value acc a = Some v.
Proof.
  induction a as [| d a IH]; intros Ha acc; cbn [Py.digits_value].
  - now exists acc.
  - cbn [forallb] in Ha. apply andb_prop in Ha. destruct Ha as [Hd Ha].
    unfold Unicode.isdecimal in Hd.
    destruct (Unicode.todecimal d) as [v |]; [| discriminate].
    apply (IH Ha).
Qed.






(** * Further properties of the code *)

Import Shape Excel.

(** ** More on the matcher *)

Lemma lit_inv (R : Type) (a : char) (c : cursor) (g : caps) (k : cont R)
      (x : R) :
  rmatch (Lit a) c g k = Some x ->
  exists xs, c_rest c = a :: xs /\ k (step c a xs) g = Some x.
Proof.
  cbn [rmatch]. intros H. destruct (c_rest c) as [| y ys]; [discriminate |].
  destruct (Z.eqb_spec y a); [| discriminate]. subst. now exists ys.
Qed.

Lemma grp_eq (R : Type) (n : nat) (r : regex) (c : cursor) (g : caps)
      (k : cont R) :
  rmatch (Grp n r) c g k
  = rmatch r c g (fun c' g' =>
      k c' ((n, firstn (c_idx c' - c_idx c) (c_rest c)) :: g')).
Proof. reflexivity. Qed.

Lemma firstn_reads (c c' : cursor) (w : str) :
  reads c w c' -> firstn (c_idx c' - c_idx c) (c_rest c) = w.
Proof.
  intros [Hr Hi]. rewrite Hr, Hi.
  replace (c_idx c + List.length w - c_idx c)%nat with (List.length w) by lia.
  rewrite firstn_app, Nat.sub_diag, firstn_all. cbn [firstn].
  now rewrite app_nil_r.
Qed.

(** An optional literal reads nothing or the literal. *)
Lemma opt_lit_inv (R : Type) (a : char) (c : cursor) (g : caps) (k : cont R)
      (x : R) :
  rmatch (opt (Lit a)) c g k = Some x ->
  k c g = Some x
  \/ exists xs, c_rest c = a :: xs /\ k (step c a xs) g = Some x.
Proof.
  unfold opt. cbn [rmatch]. rewrite rep_loop_greedy_eq. cbn [under Nat.ltb Nat.leb].
  cbn [rmatch]. destruct (c_rest c) as [| y ys] eqn:Hc; [intros H; now left |].
  destruct (Z.eqb_spec y a) as [-> | Hne]; [| intros H; now left].
  cbn [step c_idx List.length]. rewrite Nat.leb_refl.
  rewrite rep_loop_greedy_eq. cbn [under Nat.ltb Nat.leb].
  fold (step c a ys).
  destruct (k (step c a ys) g) as [y |] eqn:Hk.
  - intros H. inversion H; subst. right. exists ys. split; [reflexivity | exact Hk].
  - intros H. now left.
Qed.

(** ** Decoder: inputs on which it returns *)

Lemma leading_digits_run (w b : str) :
  forallb Unicode.isdecimal w = true ->
  (List.length w <= leading_digits (w ++ b))%nat.
Proof.
  induction w as [| d w IH]; intros H; cbn [app leading_digits List.length];
    [lia |].
  cbn [forallb] in H. apply andb_prop in H. destruct H as [Hd H].
  rewrite Hd. specialize (IH H). lia.
Qed.

Lemma longest_digit_run_infix (a w b : str) :
  forallb Unicode.isdecimal w = true ->
  (List.length w <= longest_digit_run (a ++ w ++ b))%nat.
Proof.
  intros H. induction a as [| x a IH]; cbn [app].
  - pose proof (leading_digits_run w b H) as Hl.
    destruct (w ++ b) as [| y t] eqn:E; cbn [longest_digit_run].
    + cbn in Hl. lia.
    + lia.
  - cbn [longest_digit_run]. lia.
Qed.

Lemma todecimal_range (d : char) (v : Z) :
  Unicode.todecimal d = Some v -> 0 <= v <= 9.
Proof.
  unfold Unicode.todecimal.
  destruct (find _ Unicode.decimal_zeros) as [z |] eqn:Hf; [| discriminate].
  apply find_some in Hf. destruct Hf as [_ Hz].
  apply andb_prop in Hz. intros H. inversion H; subst. lia.
Qed.

Lemma digits_value_bound (w : str) :
  forall acc v,
    0 <= acc ->
    Py.digits_value acc w = Some v ->
    0 <= v < (acc + 1) * 10 ^ Z.of_nat (List.length w).
Proof.
  induction w as [| d w IH]; intros acc v Hacc H; cbn [Py.digits_value] in H.
  - inversion H; subst. cbn. lia.
  - destruct (Unicode.todecimal d) as [x |] eqn:Hd; [| discriminate].
    apply todecimal_range in Hd. apply IH in H; [| lia].
    cbn [List.length]. rewrite Nat2Z.inj_succ, Z.pow_succ_r by lia.
    assert (0 < 10 ^ Z.of_nat (List.length w)) by (apply Z.pow_pos_nonneg; lia).
    nia.
Qed.

(** A match of the unicode-escape pattern captures an optional minus sign
    and a run of decimal digits of the text. *)
Lemma match_at_uni_inv (c : cursor) (m : rematch) :
  match_at uni_re c = Some m ->
  exists sign w a b,
    (sign = [] \/ sign = [45])
    /\ w <> [] /\ forallb Unicode.isdecimal w = true
    /\ group m 1 = Some (sign ++ w)
    /\ c_rest c = a ++ w ++ b.
Proof.
  unfold match_at, uni_re, plus, digit. cbn [seq]. intros H.
  apply cat_inv, lit_inv in H. destruct H as (xs1 & E1 & H).
  apply cat_inv, lit_inv in H. destruct H as (xs2 & E2 & H).
  cbn [step c_rest] in E2.
  apply cat_inv in H. rewrite grp_eq in H.
  apply cat_inv in H.
  set (c2 := step (step c 92 xs1) 117 xs2) in *.
  assert (Hdig :
    forall c1, reads c2 (firstn (c_idx c1 - c_idx c2) (c_rest c2)) c1 ->
      rmatch (Rep true 1 None (Cls Unicode.isdecimal)) c1 []
        (fun c' g' =>
           rmatch (opt (Lit 63)) c'
             ((1%nat, firstn (c_idx c' - c_idx c2) (c_rest c2)) :: g')
             (fun c'0 g0 => Some (Match (c_idx c) (c_idx c'0) g0 c'0)))
      = Some m ->
      exists w b,
        w <> [] /\ forallb Unicode.isdecimal w = true
        /\ group m 1
           = Some (firstn (c_idx c1 - c_idx c2) (c_rest c2) ++ w)
        /\ c_rest c1 = w ++ b).
  { intros c1 Hr1 Hm. apply rep_cls_inv in Hm.
    destruct Hm as (w & c3 & Hr3 & Hw & Hl & Hm).
    pose proof (reads_trans _ _ _ _ _ Hr1 Hr3) as Hr13.
    rewrite (firstn_reads _ _ _ Hr13) in Hm.
    exists w, (c_rest c3). repeat split.
    - intros ->. cbn in Hl. lia.
    - exact Hw.
    - apply opt_lit_inv in Hm.
      destruct Hm as [Hm | (xs & _ & Hm)]; inversion Hm; subst m; reflexivity.
    - apply Hr3. }
  apply opt_lit_inv in H. destruct H as [H | (xs & Exs & H)].
  - destruct (Hdig c2) as (w & b & Hne & Hw & Hg & Hb).
    + rewrite Nat.sub_diag. apply reads_refl.
    + exact H.
    + rewrite Nat.sub_diag in Hg. cbn [firstn app] in Hg.
      exists [], w, [92; 117], b. repeat split; try assumption; [now left |].
      rewrite E1, E2. unfold c2 in Hb. cbn [step c_rest] in Hb.
      now rewrite Hb.
  - destruct (Hdig (step c2 45 xs)) as (w & b & Hne & Hw & Hg & Hb).
    + rewrite (firstn_reads c2 (step c2 45 xs) [45]); [| now apply reads_step].
      now apply reads_step.
    + exact H.
    + rewrite (firstn_reads c2 (step c2 45 xs) [45]) in Hg;
        [| now apply reads_step].
      exists [45], w, [92; 117; 45], b. repeat split; try assumption; [now right |].
      rewrite E1, E2. unfold c2 in Exs. cbn [step c_rest] in Exs, Hb.
      rewrite Exs, Hb. reflexivity.
Qed.

(** A substitution returns when the replacement function returns on every
    match inside the text. *)
Lemma sub_loop_ok (r : regex) (repl : rematch -> result str) (text : str) :
  (forall c m,
      (exists a, text = a ++ c_rest c) ->
      match_at r c = Some m -> exists t, repl m = Ok t) ->
  forall fuel c,
    (exists a, text = a ++ c_rest c) ->
    exists t, sub_loop fuel r repl c = Ok t.
Proof.
  intros Hrepl. induction fuel as [| fuel IH]; intros c Hc; cbn [sub_loop].
  - eauto.
  - destruct (search_from r c) as [m |] eqn:Hs; [| eauto].
    unfold search_from in Hs. apply search_loop_inv in Hs.
    destruct Hs as (pre & post & prev' & Hpre & Hm).
    destruct Hc as (a & Ha).
    assert (Hpost : exists a', text = a' ++ post).
    { exists (a ++ pre). now rewrite Ha, Hpre, app_assoc. }
    destruct (Hrepl (Cursor (c_idx c + List.length pre) prev' post) m Hpost Hm)
      as (rep & Hrep).
    rewrite Hrep. cbn [bind].
    apply match_at_inv in Hm. destruct Hm as (w & [Hw _] & _ & _).
    cbn [c_rest] in Hw.
    assert (Hafter : exists a', text = a' ++ c_rest (m_after m)).
    { destruct Hpost as (a' & Ha'). exists (a' ++ w).
      now rewrite Ha', Hw, app_assoc. }
    destruct (Nat.ltb (m_start m) (m_end m)).
    + destruct (IH _ Hafter) as (t & Ht). rewrite Ht. cbn [bind]. eauto.
    + destruct (c_rest (m_after m)) as [| x xs] eqn:Hr; [eauto |].
      destruct (IH (step (m_after m) x xs)) as (t & Ht).
      * destruct Hafter as (a' & Ha'). exists (a' ++ [x]).
        cbn [step c_rest]. now rewrite Ha', <- app_assoc.
      * rewrite Ht. cbn [bind]. eauto.
Qed.

Lemma int_of_digits (w : str) (v : Z) :
  w <> [] ->
  forallb Unicode.isdecimal w = true ->
  Py.digits_value 0 w = Some v ->
  (List.length w <= 9)%nat ->
  Py.int w = Ok v /\ Py.int (45 :: w) = Ok (- v).
Proof.
  intros Hne Hw Hv Hl.
  assert (Hlim : Nat.ltb Py.max_str_digits (List.length w) = false).
  { apply Nat.ltb_ge. unfold Py.max_str_digits. lia. }
  split.
  - destruct w as [| d w']; [congruence |].
    assert (Hd : Unicode.isdecimal d = true).
    { cbn [forallb] in Hw. now apply andb_prop in Hw. }
    assert (H45 : d <> 45) by (intros ->; vm_compute in Hd; discriminate).
    assert (H43 : d <> 43) by (intros ->; vm_compute in Hd; discriminate).
    clear Hd Hw Hne Hl. unfold Py.int. revert Hv Hlim H45 H43.
    destruct d as [| p | p];
      try (intros Hv Hlim _ _; cbv beta iota; now rewrite Hv, Hlim).
    do 6 (destruct p as [p | p |];
          try (intros Hv Hlim _ _; cbv beta iota; now rewrite Hv, Hlim));
      intros _ _ H45 H43; congruence.
  - unfold Py.int. destruct w as [| d w']; [congruence |].
    cbv beta iota. now rewrite Hv, Hlim.
Qed.

Lemma uni_sub_returns (m : rematch) (sign w : str) :
  (sign = [] \/ sign = [45]) ->
  w <> [] ->
  forallb Unicode.isdecimal w = true ->
  group m 1 = Some (sign ++ w) ->
  (List.length w <= 9)%nat ->
  exists t, uni_sub m = Ok t.
Proof.
  intros Hs Hne Hw Hg Hl.
  destruct (digits_value_decimal w Hw 0) as (v & Hv).
  pose proof (digits_value_bound w 0 v ltac:(lia) Hv) as Hb.
  assert (Hp : 10 ^ Z.of_nat (List.length w) <= 10 ^ 9)
    by (apply Z.pow_le_mono_r; lia).
  destruct (int_of_digits w v Hne Hw Hv Hl) as [Hpos Hneg].
  unfold uni_sub, group_arg. rewrite Hg. cbn [bind].
  assert (Hchr : forall n, - 10 ^ 9 <= n <= 10 ^ 9 ->
            exists t,
              match Py.chr (if n <? 0 then 65536 + n else n) with
              | Ok ch => Ok [ch]
              | Raise ValueError => Ok [32]
              | Raise e => Raise e
              end = Ok t).
  { intros n Hn. unfold Py.chr.
    set (cp := if n <? 0 then 65536 + n else n).
    assert (Hcp : - 2147483648 <= cp <= 2147483647).
    { unfold cp. destruct (Z.ltb_spec n 0); lia. }
    replace ((cp <? - 2147483648) || (2147483647 <? cp)) with false.
    - destruct ((cp <? 0) || (1114111 <? cp)); eauto.
    - symmetry. apply orb_false_intro; apply Z.ltb_ge; lia. }
  destruct Hs as [-> | ->]; cbn [app].
  - rewrite Hpos. cbn [bind]. apply Hchr. lia.
  - unfold str, char in *. rewrite Hneg. cbn [bind]. apply Hchr. lia.
Qed.

Lemma sub_uni_returns (text : str) :
  (longest_digit_run text < 10)%nat ->
  exists t, sub_with uni_re uni_sub text = Ok t.
Proof.
  intros Hrun. unfold sub_with.
  apply (sub_loop_ok uni_re uni_sub text); [| now exists []].
  intros c m (a0 & Ha0) Hm.
  apply match_at_uni_inv in Hm.
  destruct Hm as (sign & w & a & b & Hs & Hne & Hw & Hg & Hc).
  apply (uni_sub_returns m sign w); try assumption.
  pose proof (longest_digit_run_infix (a0 ++ a) w b Hw) as Hi.
  rewrite Ha0, Hc in Hrun. rewrite <- app_assoc in Hi. lia.
Qed.

Lemma rtf_to_text_returns (rtf : str) :
  (longest_digit_run rtf < 10)%nat -> exists text, rtf_to_text rtf = Ok text.
Proof.
  intros Hrun. destruct (sub_uni_returns rtf Hrun) as (t & Ht).
  unfold rtf_to_text. rewrite Ht. cbn [bind].
  unfold sub_with at 1, start_of.
  rewrite (sub_hex_loop (List.length t) t (Nat.le_refl _) _ 0 None
             (Nat.lt_succ_diag_r _)).
  cbn [bind]. eauto.
Qed.

(** X1. A document without a run of ten or more decimal digits is always
    decoded: the entry point returns its records and their number. *)
Theorem process_rtf_file_returns :
  forall (file_content : list byte) (filename : str),
    (longest_digit_run (Py.decode_latin1 file_content) < 10)%nat ->
    exists rows,
      process_rtf_file file_content filename = Ok (rows, List.length rows).
Proof.
  intros file_content filename Hrun.
  destruct (rtf_to_text_returns _ Hrun) as (text & Ht).
  unfold process_rtf_file, decoded_lines. rewrite Ht. cbn [bind]. eauto.
Qed.

Lemma process_rtf_file_returns_witness :
  exists rows,
    process_rtf_file manifest_three_pages (lit "ruteliste.rtf")
    = Ok (rows, List.length rows).
Proof.
  apply (process_rtf_file_returns manifest_three_pages (lit "ruteliste.rtf")).
  vm_compute. lia.
Defined.

(** ** Decoder: what the lines are made of *)

Lemma forallb_firstn (q : char -> bool) (n : nat) (s : str) :
  forallb q s = true -> forallb q (firstn n s) = true.
Proof.
  intros H. rewrite <- (firstn_skipn n s), forallb_app in H.
  now apply andb_prop in H.
Qed.

Lemma forallb_app_intro (q : char -> bool) (a b : str) :
  forallb q a = true -> forallb q b = true -> forallb q (a ++ b) = true.
Proof. intros Ha Hb. now rewrite forallb_app, Ha, Hb. Qed.

Lemma forallb_app_l (q : char -> bool) (a b : str) :
  forallb q (a ++ b) = true -> forallb q a = true.
Proof. rewrite forallb_app. intros H. now apply andb_prop in H. Qed.

Lemma forallb_app_r (q : char -> bool) (a b : str) :
  forallb q (a ++ b) = true -> forallb q b = true.
Proof. rewrite forallb_app. intros H. now apply andb_prop in H. Qed.

(** A substitution by a constant text keeps what holds of every character
    of the subject and of the replacement. *)
Lemma sub_loop_keeps (q : char -> bool) (r : regex) (rep : str) :
  forallb q rep = true ->
  forall fuel c t,
    forallb q (c_rest c) = true ->
    sub_loop fuel r (fun _ => Ok rep) c = Ok t -> forallb q t = true.
Proof.
  intros Hrep. induction fuel as [| fuel IH]; intros c t Hc H; cbn [sub_loop] in H.
  - inversion H; subst. exact Hc.
  - destruct (search_from r c) as [m |] eqn:Hs.
    2:{ inversion H; subst. exact Hc. }
    unfold search_from in Hs. apply search_loop_inv in Hs.
    destruct Hs as (pre & post & prev' & Hpre & Hm).
    apply match_at_inv in Hm. destruct Hm as (w & [Hw _] & _ & _).
    cbn [c_rest] in Hw.
    assert (Hafter : forallb q (c_rest (m_after m)) = true).
    { rewrite Hpre, Hw in Hc. now apply forallb_app_r, forallb_app_r in Hc. }
    cbn [bind] in H.
    destruct (Nat.ltb (m_start m) (m_end m)).
    + destruct (sub_loop fuel r _ (m_after m)) as [rest | e] eqn:Hr;
        [| discriminate].
      cbn [bind] in H. inversion H; subst t.
      apply forallb_app_intro; [now apply forallb_firstn |].
      apply forallb_app_intro; [exact Hrep |]. now apply (IH (m_after m)).
    + destruct (c_rest (m_after m)) as [| x xs] eqn:Hx.
      * inversion H; subst t.
        apply forallb_app_intro; [now apply forallb_firstn | exact Hrep].
      * destruct (sub_loop fuel r _ (step (m_after m) x xs)) as [rest | e] eqn:Hr;
          [| discriminate].
        cbn [bind] in H. inversion H; subst t.
        cbn [forallb] in Hafter. apply andb_prop in Hafter.
        destruct Hafter as [Hqx Hqxs].
        apply forallb_app_intro; [now apply forallb_firstn |].
        apply forallb_app_intro; [exact Hrep |].
        cbn [forallb]. rewrite Hqx. cbn [andb].
        now apply (IH (step (m_after m) x xs)).
Qed.

Lemma sub_keeps (q : char -> bool) (r : regex) (rep s : str) :
  forallb q rep = true -> forallb q s = true -> forallb q (sub r rep s) = true.
Proof.
  intros Hrep Hs. unfold sub, sub_with.
  destruct (sub_loop _ r _ (start_of s)) as [t | e] eqn:H; [| exact Hs].
  exact (sub_loop_keeps q r rep Hrep _ (start_of s) t Hs H).
Qed.

Lemma rep_eq (R : Type) (greedy : bool) (lo : nat) (hi : option nat)
      (r : regex) (c : cursor) (g : caps) (k : cont R) :
  rmatch (Rep greedy lo hi r) c g k
  = rep_loop (rmatch r) greedy lo hi k (S (List.length (c_rest c))) 0 c g.
Proof. reflexivity. Qed.

(** A greedy repetition that has done enough iterations succeeds where
    what follows it does. *)
Lemma rep_loop_stop (R : Type) (body : cursor -> caps -> cont R -> option R)
      (lo : nat) (hi : option nat) (k : cont R) (fuel cnt : nat) (c : cursor)
      (g : caps) :
  (lo <= cnt)%nat -> k c g <> None ->
  rep_loop body true lo hi k (S fuel) cnt c g <> None.
Proof.
  intros Hl Hk. rewrite rep_loop_greedy_eq.
  destruct (if under hi cnt then _ else None); [discriminate |].
  now rewrite (proj2 (Nat.leb_le lo cnt) Hl).
Qed.

(** A run of one or more characters of a class: where the class fails
    there is no match, where it holds there is one, and it is not empty. *)
Lemma match_at_plus_cls_none (p : char -> bool) (i : nat) (prev : option char)
      (x : char) (xs : str) :
  p x = false -> match_at (plus (Cls p)) (Cursor i prev (x :: xs)) = None.
Proof.
  intros Hp. unfold match_at, plus. cbn [rmatch]. rewrite rep_loop_greedy_eq.
  cbn [under rmatch c_rest]. now rewrite Hp.
Qed.

Lemma match_at_plus_cls_some (p : char -> bool) (i : nat) (prev : option char)
      (x : char) (xs : str) :
  p x = true ->
  exists m, match_at (plus (Cls p)) (Cursor i prev (x :: xs)) = Some m
            /\ (m_start m < m_end m)%nat
            /\ exists w, xs = w ++ c_rest (m_after m).
Proof.
  intros Hp.
  destruct (match_at (plus (Cls p)) (Cursor i prev (x :: xs))) as [m |] eqn:Hm.
  - exists m. split; [reflexivity |].
    pose proof Hm as Hm'. apply match_at_inv in Hm'.
    destruct Hm' as (w0 & _ & Hs & He).
    unfold match_at, plus in Hm. apply rep_cls_inv in Hm.
    destruct Hm as (w & c' & [Hr Hi] & Hw & Hl & Hk).
    inversion Hk; subst m; clear Hk. cbn [m_start m_end m_after c_idx] in *.
    cbn [c_rest c_idx] in Hr, Hi.
    destruct w as [| y w]; [cbn in Hl; lia |].
    split; [cbn [List.length] in Hi; lia |].
    exists w. cbn [app] in Hr. now inversion Hr.
  - exfalso. unfold match_at, plus in Hm.
    rewrite rep_eq, rep_loop_greedy_eq, rmatch_cls_eq in Hm.
    cbn [under c_rest step c_idx List.length] in Hm. rewrite Hp in Hm.
    rewrite (proj2 (Nat.ltb_lt i (S i)) (Nat.lt_succ_diag_r i)) in Hm.
    destruct (rep_loop _ true 1 None _ (S (List.length xs)) 1 _ _) eqn:E;
      [discriminate |].
    revert E. apply rep_loop_stop; [lia | discriminate].
Qed.

(** Replacing the runs of a class leaves no character of the class but
    those of the replacement. *)
Lemma sub_plus_cls_loop (p q : char -> bool) (rep : str) :
  (forall x, p x = false -> q x = true) ->
  forallb q rep = true ->
  forall n s, (List.length s <= n)%nat ->
  forall fuel i prev t, (List.length s < fuel)%nat ->
    sub_loop fuel (plus (Cls p)) (fun _ => Ok rep) (Cursor i prev s) = Ok t ->
    forallb q t = true.
Proof.
  intros Hpq Hrep. induction n as [| n IH]; intros s Hn fuel i prev t Hf H.
  - destruct s; [| cbn in Hn; lia]. destruct fuel; [lia |].
    cbn [sub_loop] in H. unfold search_from in H. cbn [c_idx c_prev c_rest] in H.
    cbn [search_loop] in H.
    destruct (match_at _ _) as [m |] eqn:Hm.
    + unfold match_at, plus in Hm. apply rep_cls_inv in Hm.
      destruct Hm as (w & c' & [Hr _] & _ & Hl & _). cbn [c_rest] in Hr.
      destruct w; [cbn in Hl; lia | discriminate].
    + inversion H; subst. reflexivity.
  - destruct fuel as [| f]; [lia |].
    destruct s as [| x xs].
    { apply (IH [] ltac:(cbn; lia) (S f) i prev t ltac:(cbn; lia) H). }
    cbn [List.length] in Hn, Hf.
    destruct (p x) eqn:Hp.
    + destruct (match_at_plus_cls_some p i prev x xs Hp)
        as (m & Hm & Hlt & w & Hw).
      rewrite (sub_loop_hit _ _ f _ m Hm Hlt) in H. cbn [bind] in H.
      destruct (sub_loop f _ _ (m_after m)) as [rest | e] eqn:Hr;
        [| discriminate].
      cbn [bind] in H. inversion H; subst t.
      apply forallb_app_intro; [exact Hrep |].
      destruct (m_after m) as [j pv s'] eqn:Ea. cbn [c_rest] in Hw.
      apply (IH s') with (fuel := f) (i := j) (prev := pv).
      * rewrite Hw in Hn. rewrite length_app in Hn. lia.
      * rewrite Hw in Hf. rewrite length_app in Hf. lia.
      * exact Hr.
    + rewrite (sub_loop_skip _ _ f i prev x xs
                 (match_at_plus_cls_none p i prev x xs Hp)) in H.
      destruct (sub_loop (S f) _ _ (Cursor (S i) (Some x) xs)) as [rest | e] eqn:Hr;
        [| discriminate].
      cbn [bind] in H. inversion H; subst t.
      cbn [forallb]. rewrite (Hpq x Hp). cbn [andb].
      apply (IH xs) with (fuel := S f) (i := S i) (prev := Some x); [lia | lia |].
      exact Hr.
Qed.

Lemma sub_plus_cls (p q : char -> bool) (rep s : str) :
  (forall x, p x = false -> q x = true) ->
  forallb q rep = true ->
  forallb q (sub (plus (Cls p)) rep s) = true.
Proof.
  intros Hpq Hrep. unfold sub, sub_with.
  destruct (sub_loop _ _ _ (start_of s)) as [t | e] eqn:H.
  - unfold start_of in H.
    apply (sub_plus_cls_loop p q rep Hpq Hrep (List.length s) s (Nat.le_refl _)
             _ 0%nat None t (Nat.lt_succ_diag_r _) H).
  - exfalso. unfold start_of in H.
    destruct (sub_loop_ok (plus (Cls p)) (fun _ => @Ok str rep) s
                (fun _ _ _ _ => ex_intro _ rep eq_refl)
                (S (List.length s)) (Cursor 0 None s)
                (ex_intro _ [] eq_refl)) as (t & Ht).
    congruence.
Qed.

Lemma replace1_keeps (q : char -> bool) (a : char) (b s : str) :
  forallb q b = true ->
  (forall x, x <> a -> q x = true) ->
  forallb q (Py.replace1 a b s) = true.
Proof.
  intros Hb Hq. unfold Py.replace1. induction s as [| c s IH]; [reflexivity |].
  cbn [flat_map]. apply forallb_app_intro; [| exact IH].
  destruct (Z.eqb_spec c a); [exact Hb |]. cbn. now rewrite Hq.
Qed.

Lemma replace1_keeps_all (q : char -> bool) (a : char) (b s : str) :
  forallb q b = true -> forallb q s = true ->
  forallb q (Py.replace1 a b s) = true.
Proof.
  intros Hb. unfold Py.replace1. induction s as [| c s IH]; [reflexivity |].
  cbn [flat_map forallb]. intros H. apply andb_prop in H. destruct H as [Hc Hs].
  apply forallb_app_intro; [| now apply IH].
  destruct (c =? a); [exact Hb |]. cbn. now rewrite Hc.
Qed.

(** The lines of [str.splitlines] hold no line boundary. *)
Lemma splitlines_from_keeps (q : char -> bool) (s : str) :
  forall after_cr cur,
    forallb q cur = true ->
    (forall x, Py.is_linebreak x = false -> In x s -> q x = true) ->
    Forall (fun ln => forallb q ln = true) (Py.splitlines_from after_cr cur s).
Proof.
  assert (Hrev : forall l, forallb q l = true -> forallb q (rev l) = true).
  { intros l Hl. apply forallb_forall. intros x Hx. apply in_rev in Hx.
    now apply (proj1 (forallb_forall q l) Hl). }
  induction s as [| c s IH]; intros after_cr cur Hcur Hs; cbn [Py.splitlines_from].
  - destruct cur; [constructor |]. constructor; [now apply Hrev | constructor].
  - assert (Hs' : forall x, Py.is_linebreak x = false -> In x s -> q x = true).
    { intros x Hx Hin. apply Hs; [exact Hx | now right]. }
    destruct (after_cr && (c =? 10)); [now apply IH |].
    destruct (Py.is_linebreak c) eqn:Hlb.
    + constructor; [now apply Hrev | now apply IH].
    + apply IH; [| exact Hs']. cbn [forallb]. rewrite Hcur.
      rewrite (Hs c Hlb (or_introl eq_refl)). reflexivity.
Qed.

Lemma strip_keeps (q : char -> bool) (s : str) :
  forallb q s = true -> forallb q (Py.strip s) = true.
Proof.
  intros H. destruct (strip_infix s) as (a & b & E). rewrite E in H.
  now apply forallb_app_r, forallb_app_l in H.
Qed.

Lemma rtf_to_text_plain (rtf text : str) :
  rtf_to_text rtf = Ok text ->
  forallb (fun ch => negb (ch =? 123) && negb (ch =? 125) && negb (ch =? 9))
          text = true.
Proof.
  unfold rtf_to_text. intros H.
  destruct (sub_with uni_re uni_sub rtf) as [t1 | e]; [| discriminate].
  cbn [bind] in H.
  destruct (sub_with hex_re _ t1) as [t2 | e]; [| discriminate].
  cbn [bind] in H. inversion H; subst text; clear H.
  match goal with |- forallb _ ?s = true => set (text := s) end.
  assert (H1 : forallb (fun ch => negb (ch =? 123)) text = true).
  { unfold text. do 4 (apply sub_keeps; [reflexivity |]).
    apply replace1_keeps_all; [reflexivity |].
    apply replace1_keeps; [reflexivity |].
    intros x Hx. now destruct (Z.eqb_spec x 123). }
  assert (H2 : forallb (fun ch => negb (ch =? 125)) text = true).
  { unfold text. do 4 (apply sub_keeps; [reflexivity |]).
    apply replace1_keeps; [reflexivity |].
    intros x Hx. now destruct (Z.eqb_spec x 125). }
  assert (H3 : forallb (fun ch => negb (ch =? 9)) text = true).
  { unfold text. do 3 (apply sub_keeps; [reflexivity |]).
    unfold blank, oneof. apply sub_plus_cls; [| reflexivity].
    intros x Hx. cbn [existsb] in Hx.
    destruct (Z.eqb_spec x 9); [| reflexivity]. subst. discriminate. }
  apply forallb_forall. intros x Hx.
  rewrite (proj1 (forallb_forall _ text) H1 x Hx).
  rewrite (proj1 (forallb_forall _ text) H2 x Hx).
  rewrite (proj1 (forallb_forall _ text) H3 x Hx). reflexivity.
Qed.

(** X2. Every line the decoder hands on is trimmed, not empty, and holds
    no brace, no tab and no line boundary. *)
Theorem decoded_lines_clean :
  forall (file_content : list byte) (lines : list str),
    decoded_lines file_content = Ok lines ->
    Forall (fun ln => ln <> [] /\ Py.strip ln = ln /\ forallb plain ln = true)
           lines.
Proof.
  intros file_content lines H.
  pose proof (decoded_lines_trimmed file_content lines H) as Ht.
  unfold decoded_lines in H.
  destruct (rtf_to_text (Py.decode_latin1 file_content)) as [text | e] eqn:Hr;
    [| discriminate].
  cbn [bind] in H. inversion H; subst lines; clear H.
  apply rtf_to_text_plain in Hr.
  assert (Hl : Forall (fun ln => forallb plain ln = true) (Py.splitlines text)).
  { unfold Py.splitlines. apply splitlines_from_keeps; [reflexivity |].
    intros x Hlb Hin. unfold plain. rewrite Hlb.
    rewrite (proj1 (forallb_forall _ text) Hr x Hin). reflexivity. }
  apply Forall_forall. intros ln Hin.
  pose proof (proj1 (Forall_forall _ _) Ht ln Hin) as [Hne Hs].
  repeat split; try assumption.
  apply in_map_iff in Hin. destruct Hin as (raw & <- & Hin).
  apply filter_In in Hin. destruct Hin as [Hin _].
  apply strip_keeps. exact (proj1 (Forall_forall _ _) Hl raw Hin).
Qed.

Lemma decoded_lines_clean_witness :
  Forall (fun ln => ln <> [] /\ Py.strip ln = ln /\ forallb plain ln = true)
         [lit "a b"; lit "c d"].
Proof.
  apply (decoded_lines_clean
           (list_byte_of_string "{\rtf1 a\tab b}\par {c\'09d}")).
  vm_compute. reflexivity.
Defined.

(** ** Decoder: text it leaves alone *)

Lemma needs_none (R : Type) (a : char) (r : regex) :
  needs a r = true ->
  forall c g (k : cont R),
    hd_error (c_rest c) <> Some a -> rmatch r c g k = None.
Proof.
  induction r as [| b | lo | p | r1 IH1 r2 IH2 | r1 IH1 r2 IH2
                  | greedy lo hi r1 IH1 | n r1 IH1 | | |];
    cbn [needs]; try discriminate; intros Hn c g k Hc.
  - cbn [rmatch]. destruct (c_rest c) as [| y ys]; [reflexivity |].
    destruct (Z.eqb_spec y b) as [-> | ]; [| reflexivity].
    apply Z.eqb_eq in Hn. subst. now elim Hc.
  - cbn [rmatch]. now apply IH1.
  - apply andb_prop in Hn. destruct Hn as [Hlo Hn]. apply Nat.ltb_lt in Hlo.
    rewrite rep_eq. cbn [rep_loop]. rewrite (IH1 Hn) by exact Hc.
    rewrite (proj2 (Nat.leb_gt lo 0) Hlo).
    destruct greedy, (under hi 0); reflexivity.
  - rewrite grp_eq. now apply IH1.
Qed.

Lemma search_loop_none (r : regex) (s : str) :
  (forall i prev pre post,
      s = pre ++ post -> match_at r (Cursor i prev post) = None) ->
  forall i prev, search_loop r i prev s = None.
Proof.
  induction s as [| x xs IH]; intros H i prev; cbn [search_loop].
  - now rewrite (H i prev [] []).
  - rewrite (H i prev [] (x :: xs) eq_refl). apply IH.
    intros j pv pre post E. apply (H j pv (x :: pre) post). now rewrite E.
Qed.

Lemma search_needs (a : char) (r : regex) (s : str) :
  needs a r = true ->
  forallb (fun ch => negb (ch =? a)) s = true ->
  search_from r (start_of s) = None.
Proof.
  intros Hn Hs. unfold search_from, start_of. cbn [c_idx c_prev c_rest].
  apply search_loop_none. intros i prev pre post E. unfold match_at.
  apply (needs_none rematch a r Hn). cbn [c_rest]. subst s.
  apply forallb_app_r in Hs. destruct post as [| y post]; [discriminate |].
  cbn [forallb hd_error] in *. apply andb_prop in Hs. destruct Hs as [Hy _].
  intros E. inversion E; subst. now rewrite Z.eqb_refl in Hy.
Qed.

Lemma sub_with_needs (a : char) (r : regex) (f : rematch -> result str)
      (s : str) :
  needs a r = true ->
  forallb (fun ch => negb (ch =? a)) s = true ->
  sub_with r f s = Ok s.
Proof.
  intros Hn Hs. unfold sub_with.
  now rewrite (sub_loop_none r f _ _ (search_needs a r s Hn Hs)).
Qed.

Lemma sub_needs (a : char) (r : regex) (rep s : str) :
  needs a r = true ->
  forallb (fun ch => negb (ch =? a)) s = true ->
  sub r rep s = s.
Proof. intros Hn Hs. unfold sub. now rewrite (sub_with_needs a r _ s Hn Hs). Qed.

(** Blanks before a line feed: no match in a text without line feed. *)
Lemma sub_blank_nl (s : str) :
  forallb (fun ch => negb (ch =? 10)) s = true ->
  sub (Cat (plus blank) (Lit 10)) [10] s = s.
Proof.
  intros Hs. unfold sub, sub_with. rewrite sub_loop_none; [reflexivity |].
  unfold search_from, start_of. cbn [c_idx c_prev c_rest].
  apply search_loop_none. intros i prev pre post E.
  destruct (match_at _ (Cursor i prev post)) as [m |] eqn:Hm; [| reflexivity].
  exfalso. unfold match_at, plus, blank, oneof in Hm.
  apply cat_inv, rep_cls_inv in Hm. destruct Hm as (w & c1 & [Hr _] & _ & _ & Hm).
  apply lit_inv in Hm. destruct Hm as (xs & Hc & _).
  cbn [c_rest] in Hr. rewrite Hc in Hr. subst post s.
  do 2 apply forallb_app_r in Hs. discriminate.
Qed.

Lemma replace1_absent (a : char) (b s : str) :
  forallb (fun ch => negb (ch =? a)) s = true -> Py.replace1 a b s = s.
Proof.
  unfold Py.replace1. induction s as [| c s IH]; [reflexivity |].
  cbn [forallb flat_map]. intros H. apply andb_prop in H. destruct H as [Hc Hs].
  destruct (c =? a); [discriminate |]. cbn [app]. now rewrite IH.
Qed.

(** Runs of blanks in a text of single spaces: each is replaced by
    itself. *)
Lemma sub_blank_loop (n : nat) :
  forall s, (List.length s <= n)%nat ->
  forall fuel i prev, (List.length s < fuel)%nat ->
    forallb (fun ch => negb (ch =? 9)) s = true ->
    single_spaced s = true ->
    sub_loop fuel (plus blank) (fun _ => @Ok str [32]) (Cursor i prev s) = Ok s.
Proof.
  unfold blank, oneof.
  induction n as [| n IH]; intros s Hn fuel i prev Hf Ht Hs.
  - destruct s; [| cbn in Hn; lia]. destruct fuel; [lia |].
    apply sub_loop_none. unfold search_from. cbn [c_idx c_prev c_rest].
    apply search_loop_end.
    destruct (match_at _ _) as [m |] eqn:Hm; [| reflexivity].
    unfold match_at, plus in Hm. apply rep_cls_inv in Hm.
    destruct Hm as (w & c' & [Hr _] & _ & Hl & _). cbn [c_rest] in Hr.
    destruct w; [cbn in Hl; lia | discriminate].
  - destruct fuel as [| f]; [lia |]. destruct s as [| x xs].
    { apply (IH [] ltac:(cbn; lia) (S f) i prev ltac:(cbn; lia) Ht Hs). }
    cbn [List.length] in Hn, Hf.
    pose proof Ht as Ht'. cbn [forallb] in Ht'. apply andb_prop in Ht'.
    destruct Ht' as [Hx Hxs].
    assert (Hs' : single_spaced xs = true).
    { cbn [single_spaced] in Hs. destruct xs; [reflexivity |].
      now apply andb_prop in Hs. }
    destruct (existsb (Z.eqb x) [32; 9]) eqn:Hp.
    + assert (Ex : x = 32).
      { cbn [existsb] in Hp. destruct (Z.eqb_spec x 32); [assumption |].
        destruct (Z.eqb_spec x 9); [subst; discriminate | discriminate]. }
      subst x.
      assert (Hm : match_at (plus (Cls (fun c => existsb (Z.eqb c) [32; 9])))
                            (Cursor i prev (32 :: xs))
                   = Some (Match i (S i) [] (Cursor (S i) (Some 32) xs))).
      { unfold match_at, plus. rewrite rep_eq.
        apply (rep_cls_greedy rematch _ 1 _ [] _ [32]
                 (Cursor i prev (32 :: xs)) xs).
        - reflexivity.
        - reflexivity.
        - destruct xs as [| y ys]; [exact I |]. cbn [single_spaced] in Hs.
          apply andb_prop in Hs. destruct Hs as [Hs _].
          rewrite Hp in Hs. cbn [andb] in Hs.
          now destruct (existsb (Z.eqb y) [32; 9]).
        - cbn. lia.
        - cbn [c_rest List.length]. lia.
        - reflexivity. }
      rewrite (sub_loop_hit _ _ f _ _ Hm) by (cbn; lia).
      cbn [bind m_after]. rewrite IH by (try assumption; lia). reflexivity.
    + rewrite (sub_loop_skip _ _ f i prev x xs
                 (match_at_plus_cls_none _ i prev x xs Hp)).
      rewrite IH by (try assumption; lia). reflexivity.
Qed.

Lemma sub_blank (s : str) :
  forallb (fun ch => negb (ch =? 9)) s = true ->
  single_spaced s = true ->
  sub (plus blank) [32] s = s.
Proof.
  intros Ht Hs. unfold sub, sub_with, start_of.
  pose proof (sub_blank_loop (List.length s) s (Nat.le_refl _) _ 0%nat None
                (Nat.lt_succ_diag_r _) Ht Hs) as E.
  unfold str, char in *. now rewrite E.
Qed.

Lemma plain_text_without (s : str) (a : char) :
  plain_text s = true ->
  existsb (Z.eqb a) [92; 123; 125; 9; 10] = true ->
  forallb (fun ch => negb (ch =? a)) s = true.
Proof.
  unfold plain_text. intros H Ha. apply andb_prop in H. destruct H as [H _].
  apply forallb_forall. intros x Hx.
  pose proof (proj1 (forallb_forall _ s) H x Hx) as Hq.
  apply andb_prop in Hq. destruct Hq as [H1 H2].
  destruct (Z.eqb_spec x a) as [-> | ]; [| reflexivity]. exfalso.
  cbn [existsb] in Ha, H1. unfold Py.is_linebreak in H2. cbn [existsb] in H2.
  destruct (a =? 92), (a =? 123), (a =? 125), (a =? 9), (a =? 10);
    cbn in *; congruence.
Qed.

Lemma rtf_to_text_plain_text (s : str) :
  plain_text s = true -> rtf_to_text s = Ok s.
Proof.
  intros H.
  pose proof (plain_text_without s 92 H eq_refl) as H92.
  pose proof (plain_text_without s 123 H eq_refl) as H123.
  pose proof (plain_text_without s 125 H eq_refl) as H125.
  pose proof (plain_text_without s 9 H eq_refl) as H9.
  pose proof (plain_text_without s 10 H eq_refl) as H10.
  assert (Hs : single_spaced s = true)
    by (unfold plain_text in H; now apply andb_prop in H).
  unfold rtf_to_text.
  rewrite (sub_with_needs 92 uni_re uni_sub s eq_refl H92). cbn [bind].
  rewrite (sub_with_needs 92 hex_re _ s eq_refl H92). cbn [bind].
  rewrite (sub_needs 92 (Cat (lits "\par") (opt (oneof (lit "d")))) [10] s
             eq_refl H92).
  rewrite (sub_needs 92 (lits "\line") [10] s eq_refl H92).
  rewrite (sub_needs 92 (lits "\cell") [10] s eq_refl H92).
  rewrite (sub_needs 92 (lits "\row") [10] s eq_refl H92).
  rewrite (sub_needs 92 (lits "\tab") (lit "    ") s eq_refl H92).
  rewrite (sub_needs 92 (seq [Lit 92; plus letter; star digit; opt (Lit 32)])
             [32] s eq_refl H92).
  rewrite (replace1_absent 123 [32] s H123).
  rewrite (replace1_absent 125 [32] s H125).
  rewrite (sub_blank s H9 Hs).
  rewrite (sub_needs 10 (Cat (Lit 10) (plus blank)) [10] s eq_refl H10).
  rewrite (sub_blank_nl s H10).
  rewrite (sub_needs 10 (Rep true 2 None (Lit 10)) [10] s eq_refl H10).
  reflexivity.
Qed.

Lemma splitlines_one (s : str) :
  forallb (fun ch => negb (Py.is_linebreak ch)) s = true ->
  forall cur,
    rev cur ++ s <> [] ->
    Py.splitlines_from false cur s = [rev cur ++ s].
Proof.
  induction s as [| c s IH]; intros Hs cur Hne; cbn [Py.splitlines_from].
  - rewrite app_nil_r in *. destruct cur; [contradiction | reflexivity].
  - cbn [forallb] in Hs. apply andb_prop in Hs. destruct Hs as [Hc Hs].
    cbn [andb]. destruct (Py.is_linebreak c); [discriminate |].
    rewrite (IH Hs (c :: cur)); cbn [rev]; rewrite <- app_assoc; cbn [app];
      [reflexivity |]. now destruct (rev cur).
Qed.

(** X3. A file that holds one line of plain text (no backslash, brace,
    tab or line boundary, no two blanks side by side) decodes to that
    line, trimmed. *)
Theorem plain_text_decodes :
  forall file_content : list byte,
    plain_text (Py.decode_latin1 file_content) = true ->
    Py.strip (Py.decode_latin1 file_content) <> [] ->
    decoded_lines file_content = Ok [Py.strip (Py.decode_latin1 file_content)].
Proof.
  intros file_content H Hne. unfold decoded_lines.
  rewrite (rtf_to_text_plain_text _ H). cbn [bind].
  set (s := Py.decode_latin1 file_content) in *.
  assert (Hlb : forallb (fun ch => negb (Py.is_linebreak ch)) s = true).
  { unfold plain_text in H. apply andb_prop in H. destruct H as [H _].
    apply forallb_forall. intros x Hx.
    pose proof (proj1 (forallb_forall _ s) H x Hx) as Hq.
    now apply andb_prop in Hq. }
  unfold Py.splitlines. rewrite (splitlines_one s Hlb []).
  - cbn [rev app filter]. destruct (Py.strip s) eqn:E; [contradiction |].
    cbn [Py.truthy map]. now rewrite E.
  - cbn [rev app]. intros ->. now apply Hne.
Qed.

Lemma plain_text_decodes_witness :
  decoded_lines (list_byte_of_string " Netto Aarhus C ")
  = Ok [Py.strip (Py.decode_latin1 (list_byte_of_string " Netto Aarhus C "))].
Proof.
  apply (plain_text_decodes (list_byte_of_string " Netto Aarhus C "));
    [vm_compute; reflexivity | vm_compute; discriminate].
Defined.

(** ** Page splitter: composition and number of pages *)

Lemma split_loop_pages (lines : list str) :
  forall pages current,
    fold_left split_step lines (pages, current)
    = (pages ++ fst (fold_left split_step lines ([], current)),
       snd (fold_left split_step lines ([], current))).
Proof.
  induction lines as [| ln lines IH]; intros pages current; cbn [fold_left].
  - cbn [fst snd]. now rewrite app_nil_r.
  - rewrite !split_step_eq. destruct (is_footer ln).
    + rewrite (IH (pages ++ [current ++ [ln]]) []).
      rewrite (IH ([] ++ [current ++ [ln]]) []).
      cbn [fst snd app]. now rewrite <- app_assoc.
    + apply IH.
Qed.

Lemma split_loop_plain (lines : list str) :
  Forall (fun ln => is_footer ln = false) lines ->
  forall pages current,
    fold_left split_step lines (pages, current) = (pages, current ++ lines).
Proof.
  induction 1 as [| ln lines Hln _ IH]; intros pages current; cbn [fold_left].
  - now rewrite app_nil_r.
  - rewrite split_step_eq, Hln, IH, <- app_assoc. reflexivity.
Qed.

Lemma split_loop_footer (a : list str) (f : str) :
  is_footer f = true ->
  snd (fold_left split_step (a ++ [f]) ([], [])) = [].
Proof.
  intros Hf. rewrite fold_left_app. cbn [fold_left].
  destruct (fold_left split_step a ([], [])) as [pages current].
  now rewrite split_step_eq, Hf.
Qed.

(** X4. The splitter works page by page: the lines behind a footer line
    are split as if they stood alone. *)
Theorem split_pages_app :
  forall (a b : list str) (f : str),
    is_footer f = true ->
    split_pages (a ++ f :: b) = split_pages (a ++ [f]) ++ split_pages b.
Proof.
  intros a b f Hf. unfold split_pages.
  replace (a ++ f :: b) with ((a ++ [f]) ++ b)
    by (now rewrite <- app_assoc).
  rewrite (fold_left_app split_step (a ++ [f]) b).
  pose proof (split_loop_footer a f Hf) as Hc.
  destruct (fold_left split_step (a ++ [f]) ([], [])) as [pages current].
  cbn [snd] in Hc. subst current.
  rewrite (split_loop_pages b pages []).
  destruct (fold_left split_step b ([], [])) as [pages' current'].
  cbn [fst snd]. destruct current'; [reflexivity |].
  now rewrite app_assoc.
Qed.

Lemma split_pages_app_witness :
  split_pages ([lit "a"] ++ lit "Side 1 af 2" :: [lit "b"; lit "Side 2 af 2"])
  = split_pages ([lit "a"] ++ [lit "Side 1 af 2"])
    ++ split_pages [lit "b"; lit "Side 2 af 2"].
Proof.
  apply (split_pages_app [lit "a"] [lit "b"; lit "Side 2 af 2"]
           (lit "Side 1 af 2")).
  vm_compute. reflexivity.
Defined.

Lemma split_loop_count (lines : list str) :
  List.length (fst (fold_left split_step lines ([], [])))
  = List.length (filter is_footer lines)
  /\ (snd (fold_left split_step lines ([], [])) = []
      <-> match rev lines with
          | [] => True
          | l :: _ => is_footer l = true
          end).
Proof.
  induction lines as [| x lines IH] using rev_ind.
  - cbn. tauto.
  - rewrite fold_left_app, filter_app, length_app, rev_app_distr.
    cbn [fold_left rev app filter].
    destruct (fold_left split_step lines ([], [])) as [pages current].
    rewrite split_step_eq. cbn [fst snd] in IH. destruct IH as [IH _].
    destruct (is_footer x); cbn [fst snd List.length].
    + rewrite length_app. cbn [List.length]. split; [lia | tauto].
    + split; [lia |]. split; [| discriminate].
      intros E. now apply app_eq_nil in E.
Qed.

(** X5. There is one page for every footer line, and one more when the
    last line is no footer line; no page is empty, and a page split again
    is that page. *)
Theorem split_pages_count :
  forall lines : list str,
    List.length (split_pages lines)
    = (List.length (filter is_footer lines)
       + match rev lines with
         | [] => 0
         | l :: _ => if is_footer l then 0 else 1
         end)%nat
    /\ Forall (fun page => page <> [] /\ split_pages page = [page])
              (split_pages lines).
Proof.
  intros lines. split.
  - unfold split_pages. pose proof (split_loop_count lines) as [Hn Hc].
    destruct (fold_left split_step lines ([], [])) as [pages current].
    cbn [fst snd] in Hn, Hc.
    destruct (rev lines) as [| l t].
    + rewrite (proj2 Hc I). lia.
    + destruct (is_footer l).
      * rewrite (proj2 Hc eq_refl). lia.
      * destruct current as [| y current].
        { pose proof (proj1 Hc eq_refl). discriminate. }
        rewrite length_app. cbn [List.length]. lia.
  - destruct (split_pages_shape lines) as (closed & trailing & E & Hcl & Htr & _).
    rewrite E. apply Forall_app. split.
    + apply Forall_forall. intros page Hin.
      destruct (proj1 (Forall_forall _ _) Hcl page Hin) as (body & f & -> & Hf & Hb).
      split; [now destruct body |].
      unfold split_pages. rewrite fold_left_app.
      rewrite (split_loop_plain body Hb [] []). cbn [fold_left app].
      now rewrite split_step_eq, Hf.
    + destruct trailing as [| y trailing]; constructor; [| constructor].
      split; [discriminate |].
      unfold split_pages. now rewrite (split_loop_plain _ Htr [] []).
Qed.

(** ** More on the matcher: groups and bounded runs *)

Section GroupFree.
Variable R : Type.

Lemma rep_loop_grpfree (body : cursor -> caps -> cont R -> option R)
      (greedy : bool) (lo : nat) (hi : option nat) (k : cont R) :
  (forall c g k x, body c g k = Some x ->
                   exists w c', reads c w c' /\ k c' g = Some x) ->
  forall fuel cnt c g x,
    rep_loop body greedy lo hi k fuel cnt c g = Some x ->
    exists w c', reads c w c' /\ k c' g = Some x.
Proof.
  intros Hb. induction fuel as [| fuel IH]; intros cnt c g x H; [discriminate |].
  cbn [rep_loop] in H.
  assert (Hagain :
    forall y, body c g (fun c' g' =>
                 if Nat.ltb (c_idx c) (c_idx c')
                 then rep_loop body greedy lo hi k fuel (S cnt) c' g'
                 else None) = Some y ->
              exists w c', reads c w c' /\ k c' g = Some y).
  { intros y Hy. apply Hb in Hy. destruct Hy as (w & c1 & Hr & Hk).
    destruct (Nat.ltb (c_idx c) (c_idx c1)); [| discriminate].
    apply IH in Hk. destruct Hk as (w2 & c2 & Hr2 & Hk2).
    exists (w ++ w2), c2. split; [eapply reads_trans; eassumption | exact Hk2]. }
  assert (Hstop :
    forall y, k c g = Some y -> exists w c', reads c w c' /\ k c' g = Some y).
  { intros y Hy. exists [], c. split; [apply reads_refl | exact Hy]. }
  destruct greedy.
  - destruct (under hi cnt).
    + destruct (body c g _) as [y |] eqn:Hy.
      * inversion H; subst. now apply Hagain.
      * destruct (Nat.leb lo cnt); [now apply Hstop | discriminate].
    + destruct (Nat.leb lo cnt); [now apply Hstop | discriminate].
  - destruct (Nat.leb lo cnt).
    + destruct (k c g) as [y |] eqn:Hy.
      * inversion H; subst. now apply Hstop.
      * destruct (under hi cnt); [now apply Hagain | discriminate].
    + destruct (under hi cnt); [now apply Hagain | discriminate].
Qed.

(** A pattern without group hands on the groups it was given. *)
Lemma rmatch_grpfree (r : regex) :
  grpfree r = true ->
  forall c g (k : cont R) x,
    rmatch r c g k = Some x ->
    exists w c', reads c w c' /\ k c' g = Some x.
Proof.
  induction r as [| a | lo | p | r1 IH1 r2 IH2 | r1 IH1 r2 IH2
                  | greedy lo hi r1 IH1 | n r1 IH1 | | |];
    intros Hg c g k x H; cbn [grpfree] in Hg; cbn [rmatch] in H.
  - exists [], c. split; [apply reads_refl | exact H].
  - destruct (c_rest c) as [| y ys] eqn:Hc; [discriminate |].
    destruct (y =? a); [| discriminate].
    exists [y], (step c y ys). split; [now apply reads_step | exact H].
  - destruct (c_rest c) as [| y ys] eqn:Hc; [discriminate |].
    destruct (lit_i_ok lo y); [| discriminate].
    exists [y], (step c y ys). split; [now apply reads_step | exact H].
  - destruct (c_rest c) as [| y ys] eqn:Hc; [discriminate |].
    destruct (p y); [| discriminate].
    exists [y], (step c y ys). split; [now apply reads_step | exact H].
  - apply andb_prop in Hg. destruct Hg as [Hg1 Hg2].
    apply (IH1 Hg1) in H. destruct H as (w1 & c1 & Hr1 & H).
    apply (IH2 Hg2) in H. destruct H as (w2 & c2 & Hr2 & H).
    exists (w1 ++ w2), c2. split; [eapply reads_trans; eassumption | exact H].
  - apply andb_prop in Hg. destruct Hg as [Hg1 Hg2].
    destruct (rmatch r1 c g k) as [y |] eqn:Hy.
    + inversion H; subst. now apply (IH1 Hg1) in Hy.
    + now apply (IH2 Hg2) in H.
  - eapply rep_loop_grpfree; [| eassumption]. intros c0 g0 k0 x0. now apply IH1.
  - discriminate.
  - destruct (Nat.eqb (c_idx c) 0); [| discriminate].
    exists [], c. split; [apply reads_refl | exact H].
  - destruct (at_end c); [| discriminate].
    exists [], c. split; [apply reads_refl | exact H].
  - destruct (at_boundary c); [| discriminate].
    exists [], c. split; [apply reads_refl | exact H].
Qed.

(** A bounded run of a class reads no more than its bound. *)
Lemma rep_cls_loop_max (p : char -> bool) (greedy : bool) (lo h : nat)
      (k : cont R) (g : caps) :
  forall fuel cnt c x,
    (cnt <= h)%nat ->
    rep_loop (rmatch (Cls p)) greedy lo (Some h) k fuel cnt c g = Some x ->
    exists w c',
      reads c w c' /\ forallb p w = true
      /\ (lo <= cnt + List.length w <= h)%nat /\ k c' g = Some x.
Proof.
  induction fuel as [| fuel IH]; intros cnt c x Hc H; [discriminate |].
  cbn [rep_loop rmatch under] in H.
  assert (Hagain :
    forall y,
      Nat.ltb cnt h = true ->
      match c_rest c with
      | [] => None
      | a :: xs =>
          if p a
          then (if Nat.ltb (c_idx c) (c_idx (step c a xs))
                then rep_loop (rmatch (Cls p)) greedy lo (Some h) k fuel (S cnt)
                              (step c a xs) g
                else None)
          else None
      end = Some y ->
      exists w c', reads c w c' /\ forallb p w = true
                   /\ (lo <= cnt + List.length w <= h)%nat /\ k c' g = Some y).
  { intros y Hlt Hy. apply Nat.ltb_lt in Hlt.
    destruct (c_rest c) as [| a xs] eqn:Hr0; [discriminate |].
    destruct (p a) eqn:Hp; [| discriminate].
    destruct (Nat.ltb (c_idx c) _); [| discriminate].
    apply IH in Hy; [| lia]. destruct Hy as (w & c' & Hr & Hw & Hl & Hk).
    exists (a :: w), c'. repeat split.
    - destruct Hr as [Hr _]. cbn in Hr. rewrite Hr0, Hr. reflexivity.
    - destruct Hr as [_ Hr]. cbn in Hr. cbn. lia.
    - cbn. now rewrite Hp, Hw.
    - cbn. lia.
    - cbn. lia.
    - exact Hk. }
  assert (Hstop :
    forall y, Nat.leb lo cnt = true -> k c g = Some y ->
      exists w c', reads c w c' /\ forallb p w = true
                   /\ (lo <= cnt + List.length w <= h)%nat /\ k c' g = Some y).
  { intros y Hl Hy. apply Nat.leb_le in Hl. exists [], c.
    repeat split; try assumption; cbn; lia. }
  destruct greedy.
  - destruct (Nat.ltb cnt h) eqn:Hu.
    + match type of H with match ?e with _ => _ end = _ =>
        destruct e as [y |] eqn:Hy end.
      * inversion H; subst. now apply Hagain.
      * destruct (Nat.leb lo cnt) eqn:Hl; [now apply Hstop | discriminate].
    + destruct (Nat.leb lo cnt) eqn:Hl; [now apply Hstop | discriminate].
  - destruct (Nat.leb lo cnt) eqn:Hl.
    + destruct (k c g) as [y |] eqn:Hy.
      * inversion H; subst. now apply Hstop.
      * destruct (Nat.ltb cnt h) eqn:Hu; [now apply Hagain | discriminate].
    + destruct (Nat.ltb cnt h) eqn:Hu; [now apply Hagain | discriminate].
Qed.

Lemma rep_cls_max (p : char -> bool) (greedy : bool) (lo h : nat)
      (k : cont R) (c : cursor) (g : caps) (x : R) :
  rmatch (Rep greedy lo (Some h) (Cls p)) c g k = Some x ->
  exists w c',
    reads c w c' /\ forallb p w = true
    /\ (lo <= List.length w <= h)%nat /\ k c' g = Some x.
Proof.
  rewrite rep_eq. intros H.
  destruct (rep_cls_loop_max p greedy lo h k g _ 0%nat c x (Nat.le_0_l h) H)
    as (w & c' & Hr & Hw & Hl & Hk).
  exists w, c'. cbn [Nat.add] in Hl.
  split; [exact Hr | split; [exact Hw | split; [lia | exact Hk]]].
Qed.

(** A group of a pattern without group records what the pattern read. *)
Lemma grp_inv (n : nat) (r : regex) (c : cursor) (g : caps) (k : cont R)
      (x : R) :
  grpfree r = true ->
  rmatch (Grp n r) c g k = Some x ->
  exists w c', reads c w c' /\ k c' ((n, w) :: g) = Some x.
Proof.
  intros Hg H. rewrite grp_eq in H. apply (rmatch_grpfree r Hg) in H.
  destruct H as (w & c' & Hr & H). rewrite (firstn_reads _ _ _ Hr) in H.
  now exists w, c'.
Qed.

(** The time pattern of the stop lines. *)
Lemma hhmm_inv (c : cursor) (g : caps) (k : cont R) (x : R) :
  rmatch hhmm c g k = Some x ->
  exists t c', reads c t c' /\ is_hhmm t = true /\ k c' g = Some x.
Proof.
  unfold hhmm, between, times, digit. cbn [seq]. intros H.
  apply cat_inv, rep_cls_max in H. destruct H as (h & c1 & Hr1 & Hh & Hl & H).
  apply cat_inv, lit_inv in H. destruct H as (xs & Hc & H).
  apply rep_cls_max in H. destruct H as (m & c2 & Hr2 & Hm & Hl2 & H).
  exists (h ++ [58] ++ m), c2. split; [| split; [| exact H]].
  - eapply reads_trans; [exact Hr1 |]. eapply reads_trans; [| exact Hr2].
    now apply reads_step.
  - destruct m as [| m1 [| m2 [| ? ?]]]; cbn [List.length] in Hl2; try lia.
    cbn [forallb] in Hm. apply andb_prop in Hm. destruct Hm as [Hm1 Hm2].
    apply andb_prop in Hm2. destruct Hm2 as [Hm2 _].
    destruct h as [| h1 [| h2 [| ? ?]]]; cbn [List.length] in Hl; try lia;
      cbn [forallb] in Hh; cbn [app is_hhmm].
    + apply andb_prop in Hh. destruct Hh as [Hh1 _].
      now rewrite Hh1, Hm1, Hm2.
    + apply andb_prop in Hh. destruct Hh as [Hh1 Hh2].
      apply andb_prop in Hh2. destruct Hh2 as [Hh2 _].
      now rewrite Hh1, Hh2, Hm1, Hm2.
Qed.

End GroupFree.

Lemma bol_inv (R : Type) (c : cursor) (g : caps) (k : cont R) (x : R) :
  rmatch Bol c g k = Some x -> c_idx c = 0%nat /\ k c g = Some x.
Proof.
  cbn [rmatch]. destruct (Nat.eqb_spec (c_idx c) 0); [now split | discriminate].
Qed.

Lemma wordb_inv (R : Type) (c : cursor) (g : caps) (k : cont R) (x : R) :
  rmatch Wordb c g k = Some x -> k c g = Some x.
Proof. cbn [rmatch]. destruct (at_boundary c); [tauto | discriminate]. Qed.

Lemma eol_inv (R : Type) (c : cursor) (g : caps) (k : cont R) (x : R) :
  rmatch Eol c g k = Some x -> at_end c = true /\ k c g = Some x.
Proof. cbn [rmatch]. destruct (at_end c); [now split | discriminate]. Qed.

(** A group around a run of a class records the run. *)
Lemma grp_cls_inv (R : Type) (n : nat) (p : char -> bool) (greedy : bool)
      (lo : nat) (hi : option nat) (c : cursor) (g : caps) (k : cont R)
      (x : R) :
  rmatch (Grp n (Rep greedy lo hi (Cls p))) c g k = Some x ->
  exists w c',
    reads c w c' /\ forallb p w = true /\ (lo <= List.length w)%nat
    /\ (forall h, hi = Some h -> (List.length w <= h)%nat)
    /\ k c' ((n, w) :: g) = Some x.
Proof.
  rewrite grp_eq. intros H. destruct hi as [h |].
  - apply rep_cls_max in H. destruct H as (w & c' & Hr & Hw & Hl & H).
    rewrite (firstn_reads _ _ _ Hr) in H. exists w, c'.
    split; [exact Hr | split; [exact Hw | split; [lia | split; [| exact H]]]].
    intros h' E. inversion E; subst. lia.
  - apply rep_cls_inv in H. destruct H as (w & c' & Hr & Hw & Hl & H).
    rewrite (firstn_reads _ _ _ Hr) in H. exists w, c'.
    split; [exact Hr | split; [exact Hw | split; [lia | split; [| exact H]]]].
    discriminate.
Qed.

Lemma grp_hhmm_inv (R : Type) (n : nat) (c : cursor) (g : caps) (k : cont R)
      (x : R) :
  rmatch (Grp n hhmm) c g k = Some x ->
  exists t c', reads c t c' /\ is_hhmm t = true /\ k c' ((n, t) :: g) = Some x.
Proof.
  rewrite grp_eq. intros H. apply hhmm_inv in H.
  destruct H as (t & c' & Hr & Ht & H).
  rewrite (firstn_reads _ _ _ Hr) in H. now exists t, c'.
Qed.

(** ** Stop lines *)

(** What a stop line is made of, and what the four groups capture. *)
Lemma stop_line_inv (ln : str) (sm : rematch) :
  rematch_at_start stop_line_re ln = Some sm ->
  exists id ws name rest ank afg,
    ln = id ++ ws ++ name ++ rest
    /\ List.length id = 5%nat /\ forallb Unicode.isdecimal id = true
    /\ ws <> [] /\ forallb Unicode.isspace ws = true
    /\ name <> [] /\ forallb (fun ch => negb (ch =? 10)) name = true
    /\ group sm 1 = Some id /\ group sm 2 = Some name
    /\ group sm 3 = Some ank /\ is_hhmm ank = true
    /\ group sm 4 = Some afg /\ is_hhmm afg = true.
Proof.
  unfold rematch_at_start, match_at, stop_line_re. cbn [seq]. intros H.
  apply cat_inv, bol_inv in H. destruct H as [_ H].
  apply cat_inv in H. unfold times, digit in H. apply grp_cls_inv in H.
  destruct H as (id & c1 & [Hr1 _] & Hid & Hl1 & Hh1 & H).
  specialize (Hh1 _ eq_refl). cbn beta in H.
  apply cat_inv in H. unfold plus at 1, space at 1 in H. apply rep_cls_inv in H.
  destruct H as (ws & c2 & [Hr2 _] & Hws & Hl2 & H).
  apply cat_inv in H. unfold lazy_plus, anychar in H. apply grp_cls_inv in H.
  destruct H as (name & c3 & [Hr3 _] & Hname & Hl3 & _ & H). cbn beta in H.
  do 8 (apply cat_inv, rmatch_grpfree in H; [| reflexivity];
        destruct H as (? & ? & _ & H)).
  apply cat_inv, grp_hhmm_inv in H. destruct H as (ank & c4 & _ & Hank & H).
  cbn beta in H.
  apply cat_inv, rmatch_grpfree in H; [| reflexivity].
  destruct H as (? & ? & _ & H).
  apply cat_inv, grp_hhmm_inv in H. destruct H as (afg & c5 & _ & Hafg & H).
  cbn beta in H. apply wordb_inv in H. inversion H; subst sm; clear H.
  exists id, ws, name, (c_rest c3), ank, afg.
  unfold group. cbn [m_groups lookup Nat.eqb].
  cbn [start_of c_rest] in Hr1. rewrite Hr1, Hr2, Hr3.
  repeat split; try assumption; try lia.
  - intros ->. cbn in Hl2. lia.
  - intros ->. cbn in Hl3. lia.
Qed.

Lemma stop_line_starts (ln : str) (sm : rematch) :
  rematch_at_start stop_line_re ln = Some sm -> starts_with_id ln = true.
Proof.
  intros H. apply stop_line_inv in H.
  destruct H as (id & ws & name & rest & ank & afg & -> & Hl & Hid & Hne & Hws & _).
  unfold starts_with_id.
  rewrite firstn_app, <- Hl, firstn_all, Nat.sub_diag. cbn [firstn].
  rewrite app_nil_r, Hid. cbn [andb].
  rewrite skipn_app, skipn_all, Nat.sub_diag. cbn [skipn app].
  destruct ws as [| x ws]; [contradiction |]. cbn [app].
  cbn [forallb] in Hws. now apply andb_prop in Hws.
Qed.

Lemma rows_count (page_lines : list str) (md : meta) (l : list str) :
  forall a,
    (List.length
       (flat_map (fun il => opt_list (stop_row page_lines md (fst il) (snd il)))
                 (combine (List.seq a (List.length l)) l))
     <= List.length (filter starts_with_id l))%nat.
Proof.
  induction l as [| ln l IH]; intros a; [cbn; lia |].
  cbn [List.length List.seq combine flat_map fst snd filter].
  rewrite length_app. specialize (IH (S a)).
  destruct (stop_row page_lines md a ln) as [r |] eqn:Hr.
  - apply stop_row_inv in Hr. destruct Hr as (sm & Hsm & _).
    rewrite (stop_line_starts ln sm Hsm). cbn [opt_list List.length]. lia.
  - cbn [opt_list List.length]. destruct (starts_with_id ln); cbn [List.length]; lia.
Qed.

Lemma parse_page_count (page_lines : list str) :
  (List.length (parse_page page_lines)
   <= List.length (filter starts_with_id page_lines))%nat.
Proof.
  rewrite parse_page_flat_map. unfold enumerate. apply rows_count.
Qed.

Lemma pages_count (pages : list (list str)) :
  (List.length (List.concat (map parse_page pages))
   <= List.length (filter starts_with_id (List.concat pages)))%nat.
Proof.
  induction pages as [| p pages IH]; [cbn; lia |].
  cbn [map List.concat]. rewrite filter_app, !length_app.
  pose proof (parse_page_count p). lia.
Qed.

Lemma split_pages_flat (lines : list str) :
  List.concat (split_pages lines) = lines.
Proof.
  destruct (split_pages_shape lines) as (closed & trailing & -> & _ & _ & E).
  rewrite concat_app. destruct trailing; cbn [List.concat].
  - now rewrite app_nil_r in E |- *.
  - now rewrite app_nil_r.
Qed.

(** X6. A file gives at most one record for each of its decoded lines
    that start with five decimal digits and white space, and none
    without such a line. *)
Theorem process_rtf_file_count :
  forall (file_content : list byte) (filename : str) (lines : list str)
         (rows : list row) (n : nat),
    decoded_lines file_content = Ok lines ->
    process_rtf_file file_content filename = Ok (rows, n) ->
    n = List.length rows
    /\ (n <= List.length (filter starts_with_id lines))%nat.
Proof.
  intros file_content filename lines rows n Hd H.
  unfold process_rtf_file in H. rewrite Hd in H. cbn [bind] in H.
  rewrite fold_pages in H. cbn [app] in H. inversion H; subst rows n; clear H.
  split; [reflexivity |].
  rewrite <- (split_pages_flat lines) at 2. apply pages_count.
Qed.

Lemma process_rtf_file_count_witness :
  3%nat = List.length
            (match process_rtf_file manifest_three_pages (lit "ruteliste.rtf") with
             | Ok (rows, _) => rows
             | Raise _ => []
             end)
  /\ (3 <= List.length
             (filter starts_with_id
                [lit "HOSTRUTE: 1"; lit "10001 Netto 8:00-9:00 1 10:00 10:30";
                 lit "Vej 1"; lit "8000 Aarhus"; lit "Side 1 af 3";
                 lit "HOSTRUTE: 2"; lit "10002 Fakta 8:00-9:00 1 11:00 11:30";
                 lit "Vej 2"; lit "8200 Aarhus N"; lit "Side 2 af 3";
                 lit "HOSTRUTE: 1"; lit "10003 Rema 8:00-9:00 1 12:00 12:30";
                 lit "Vej 3"; lit "8210 Aarhus V"; lit "Side 3 af 3"]))%nat.
Proof.
  apply (process_rtf_file_count manifest_three_pages (lit "ruteliste.rtf"));
    vm_compute; reflexivity.
Defined.

(** X7. The arrival time of a record is always present, and it is the
    time the stop line gives behind its list of numbers: one or two
    decimal digits, a colon, two decimal digits. *)
Theorem ankomst_shape :
  forall (page_lines : list str) (r : row),
    In r (parse_page page_lines) ->
    exists t, Ankomst r = Some t /\ is_hhmm t = true.
Proof.
  intros page_lines r Hin. apply in_parse_page in Hin.
  destruct Hin as (i & ln & _ & Hrow). apply stop_row_inv in Hrow.
  destruct Hrow as (sm & Hsm & _ & ->). cbn [Ankomst].
  apply stop_line_inv in Hsm.
  destruct Hsm as (id & ws & name & rest & ank & afg & H).
  exists ank. tauto.
Qed.

Lemma ankomst_shape_witness :
  exists t,
    Ankomst (Row (lit "Netto") (Some (lit "Vej 1")) (Some (lit "8000"))
                 (Some (lit "Aarhus")) (Some (lit "10:00")) None None None None
                 None)
    = Some t /\ is_hhmm t = true.
Proof.
  apply (ankomst_shape [lit "12345 Netto 8:00-9:00 1 10:00 10:30";
                        lit "Vej 1"; lit "8000 Aarhus"]).
  vm_compute. left. reflexivity.
Defined.



(** ** Shapes of the header values *)

Ltac skip_grpfree H :=
  apply cat_inv, rmatch_grpfree in H; [| reflexivity];
  destruct H as (? & ? & _ & H).

Lemma number_group (R : Type) (n : nat) (c : cursor) (g : caps) (k : cont R)
      (x : R) :
  rmatch (Grp n (plus digit)) c g k = Some x ->
  exists v c', is_number v = true /\ k c' ((n, v) :: g) = Some x.
Proof.
  unfold plus, digit. intros H. apply grp_cls_inv in H.
  destruct H as (v & c' & _ & Hv & Hl & _ & H). exists v, c'.
  split; [| exact H]. unfold is_number. rewrite Hv.
  destruct v; [cbn in Hl; lia | reflexivity].
Qed.

Lemma clock_group (R : Type) (n : nat) (c : cursor) (g : caps) (k : cont R)
      (x : R) :
  rmatch (Grp n clock) c g k = Some x ->
  exists v c', is_clock v = true /\ k c' ((n, v) :: g) = Some x.
Proof.
  rewrite grp_eq. unfold clock, opt, oneof, digit, times. cbn [seq]. intros H.
  apply cat_inv, rep_cls_max in H. destruct H as (h & c1 & Hr1 & Hh & Hl & H).
  apply cat_inv, cls_inv in H. destruct H as (d & c2 & Hr2 & Hd & H).
  apply cat_inv, lit_inv in H. destruct H as (xs & Hc & H).
  apply rep_cls_max in H. destruct H as (m & c3 & Hr3 & Hm & Hl3 & H).
  pose proof (reads_trans _ _ _ _ _ Hr1
                (reads_trans _ _ _ _ _ Hr2
                   (reads_trans _ _ _ _ _ (reads_step c2 58 xs Hc) Hr3))) as Hr.
  rewrite (firstn_reads _ _ _ Hr) in H.
  exists (h ++ [d] ++ [58] ++ m), c3. split; [| exact H].
  destruct m as [| m1 [| m2 [| ? ?]]]; cbn [List.length] in Hl3; try lia.
  cbn [forallb] in Hm. apply andb_prop in Hm. destruct Hm as [Hm1 Hm2].
  apply andb_prop in Hm2. destruct Hm2 as [Hm2 _].
  destruct h as [| h1 [| ? ?]]; cbn [List.length] in Hl; try lia;
    cbn [app is_clock].
  - now rewrite Hd, Hm1, Hm2.
  - cbn [forallb] in Hh. apply andb_prop in Hh. destruct Hh as [Hh1 _].
    change (existsb (Z.eqb h1) [48; 49; 50]) with (existsb (Z.eqb h1) (lit "012")).
    now rewrite Hh1, Hd, Hm1, Hm2.
Qed.

Lemma host_re_group (ln : str) (m : rematch) :
  search host_re ln = Some m -> exists v, group m 1 = Some v /\ is_number v = true.
Proof.
  unfold search, search_from. intros H. apply search_loop_inv in H.
  destruct H as (pre & post & prev' & _ & H).
  unfold match_at, host_re in H. cbn [seq] in H.
  do 2 skip_grpfree H.
  apply number_group in H. destruct H as (v & c' & Hv & H).
  inversion H; subst m. exists v. split; [reflexivity | exact Hv].
Qed.

Lemma port_re_group (ln : str) (m : rematch) :
  search port_re ln = Some m -> exists v, group m 1 = Some v /\ is_number v = true.
Proof.
  unfold search, search_from. intros H. apply search_loop_inv in H.
  destruct H as (pre & post & prev' & _ & H).
  unfold match_at, port_re in H. cbn [seq] in H.
  do 4 skip_grpfree H.
  apply number_group in H. destruct H as (v & c' & Hv & H).
  inversion H; subst m. exists v. split; [reflexivity | exact Hv].
Qed.

Lemma start_re_group (ln : str) (m : rematch) :
  search start_re ln = Some m -> exists v, group m 1 = Some v /\ is_clock v = true.
Proof.
  unfold search, search_from. intros H. apply search_loop_inv in H.
  destruct H as (pre & post & prev' & _ & H).
  unfold match_at, start_re in H. cbn [seq] in H.
  do 2 skip_grpfree H.
  apply clock_group in H. destruct H as (v & c' & Hv & H).
  inversion H; subst m. exists v. split; [reflexivity | exact Hv].
Qed.

Lemma slut_re_group (ln : str) (m : rematch) :
  search slut_re ln = Some m -> exists v, group m 1 = Some v /\ is_clock v = true.
Proof.
  unfold search, search_from. intros H. apply search_loop_inv in H.
  destruct H as (pre & post & prev' & _ & H).
  unfold match_at, slut_re in H. cbn [seq] in H.
  do 2 skip_grpfree H.
  apply clock_group in H. destruct H as (v & c' & Hv & H).
  inversion H; subst m. exists v. split; [reflexivity | exact Hv].
Qed.

Lemma pick_shaped (q : str -> bool) (r : regex) (ln : str) (old : option str) :
  (forall m, search r ln = Some m -> exists v, group m 1 = Some v /\ q v = true) ->
  (forall v, old = Some v -> q v = true) ->
  forall v, pick r ln old = Some v -> q v = true.
Proof.
  intros Hr Hold v. unfold pick.
  destruct (search r ln) as [m |]; [| apply Hold].
  destruct (Hr m eq_refl) as (v' & E & Hq). rewrite E. intros H.
  now inversion H; subst.
Qed.

Lemma find_meta_shaped (page_lines : list str) :
  forall st, meta_shaped st -> meta_shaped (fold_left meta_step page_lines st).
Proof.
  induction page_lines as [| ln l IH]; intros st Hst; [exact Hst |].
  cbn [fold_left]. apply IH. destruct Hst as (H1 & H2 & H3 & H4).
  unfold meta_step, meta_shaped.
  cbn [rutenummer portnummer starttid sluttid].
  split; [| split; [| split]].
  - apply pick_shaped; [apply host_re_group | exact H1].
  - apply pick_shaped; [apply port_re_group | exact H2].
  - apply pick_shaped; [apply start_re_group | exact H3].
  - apply pick_shaped; [apply slut_re_group | exact H4].
Qed.

(** X9. The header values of a record have the shape their patterns
    capture: route number and gate number, when present, are runs of
    decimal digits, start time and end time are times of day. *)
Theorem header_values_shape :
  forall (page_lines : list str) (r : row),
    In r (parse_page page_lines) ->
    (forall v, Rutenummer r = Some v -> is_number v = true)
    /\ (forall v, Portnummer r = Some v -> is_number v = true)
    /\ (forall v, Starttid r = Some v -> is_clock v = true)
    /\ (forall v, Sluttid r = Some v -> is_clock v = true).
Proof.
  intros page_lines r Hin. apply in_parse_page in Hin.
  destruct Hin as (i & ln & _ & Hrow). apply stop_row_inv in Hrow.
  destruct Hrow as (sm & _ & _ & ->).
  cbn [Rutenummer Portnummer Starttid Sluttid].
  apply (find_meta_shaped page_lines (Meta None None None None None)).
  repeat split; discriminate.
Qed.

Lemma header_values_shape_witness :
  (forall v, Some (lit "7") = Some v -> is_number v = true)
  /\ (forall v, @None str = Some v -> is_number v = true)
  /\ (forall v, Some (lit "6:30") = Some v -> is_clock v = true)
  /\ (forall v, @None str = Some v -> is_clock v = true).
Proof.
  apply (header_values_shape
           [lit "HOSTRUTE: 7"; lit "STARTTID: 6:30";
            lit "12345 Netto 8:00-9:00 1 10:00 10:30";
            lit "Vej 1"; lit "8000 Aarhus"]
           (Row (lit "Netto") (Some (lit "Vej 1")) (Some (lit "8000"))
                (Some (lit "Aarhus")) (Some (lit "10:00")) (Some (lit "7")) None
                (Some (lit "6:30")) None None)).
  vm_compute. left. reflexivity.
Defined.

(** ** Shapes of the address values *)

Lemma post_re_groups (s : str) (pm : rematch) :
  search post_re s = Some pm ->
  exists p c,
    group pm 1 = Some p /\ group pm 2 = Some c
    /\ List.length p = 4%nat /\ forallb Unicode.isdecimal p = true.
Proof.
  unfold search, search_from. intros H. apply search_loop_inv in H.
  destruct H as (pre & post & prev' & _ & H).
  unfold match_at, post_re, times, plus, digit, space, anychar in H.
  cbn [seq] in H.
  apply cat_inv, grp_cls_inv in H.
  destruct H as (p & c1 & _ & Hp & Hl & Hh & H). specialize (Hh _ eq_refl).
  cbn beta in H.
  apply cat_inv, rep_cls_inv in H. destruct H as (? & c2 & _ & _ & _ & H).
  apply cat_inv, grp_cls_inv in H. destruct H as (c & c3 & _ & _ & _ & _ & H).
  cbn beta in H. apply eol_inv in H. destruct H as [_ H].
  inversion H; subst pm. exists p, c.
  repeat split; try reflexivity; try assumption. lia.
Qed.

Lemma full_re_groups (s : str) (pm : rematch) :
  search full_re s = Some pm ->
  exists a p c,
    group pm 1 = Some a /\ group pm 2 = Some p /\ group pm 3 = Some c
    /\ List.length p = 4%nat /\ forallb Unicode.isdecimal p = true.
Proof.
  unfold search, search_from. intros H. apply search_loop_inv in H.
  destruct H as (pre & post & prev' & _ & H).
  unfold match_at, full_re, times, plus, lazy_plus, digit, space, anychar in H.
  cbn [seq] in H.
  apply cat_inv, grp_cls_inv in H. destruct H as (a & c0 & _ & _ & _ & _ & H).
  cbn beta in H.
  apply cat_inv, rep_cls_inv in H. destruct H as (? & c0' & _ & _ & _ & H).
  apply cat_inv, grp_cls_inv in H.
  destruct H as (p & c1 & _ & Hp & Hl & Hh & H). specialize (Hh _ eq_refl).
  cbn beta in H.
  apply cat_inv, rep_cls_inv in H. destruct H as (? & c2 & _ & _ & _ & H).
  apply cat_inv, grp_cls_inv in H. destruct H as (c & c3 & _ & _ & _ & _ & H).
  cbn beta in H. apply eol_inv in H. destruct H as [_ H].
  inversion H; subst pm. exists a, p, c.
  repeat split; try reflexivity; try assumption. lia.
Qed.

Lemma postal_of_shaped (s : str) (street : option str) :
  is_postal s = true ->
  postal_shaped (street, fst (postal_of s), snd (postal_of s)).
Proof.
  unfold is_postal, postal_of. intros H.
  destruct (search post_re s) as [pm |] eqn:E; [| discriminate].
  destruct (post_re_groups s pm E) as (p & c & -> & -> & Hl & Hp).
  unfold postal_shaped. cbn [fst snd option_map].
  split; [| split].
  - intros p' Ep. inversion Ep; subst. now split.
  - split; discriminate.
  - intros c' Ec. inversion Ec; subst. apply strip_idem.
Qed.

Lemma full_of_shaped (s : str) :
  is_full s = true -> postal_shaped (full_of s).
Proof.
  unfold is_full, full_of. intros H. apply andb_prop in H. destruct H as [H _].
  destruct (search full_re s) as [pm |] eqn:E; [| discriminate].
  destruct (full_re_groups s pm E) as (a & p & c & -> & -> & -> & Hl & Hp).
  unfold postal_shaped. cbn [fst snd option_map].
  split; [| split].
  - intros p' Ep. inversion Ep; subst. now split.
  - split; discriminate.
  - intros c' Ec. inversion Ec; subst. apply strip_idem.
Qed.

Lemma resolve_shaped (w : list str) : postal_shaped (resolve w).
Proof.
  assert (Hnone : forall street, postal_shaped (street, None, None)).
  { intros street. unfold postal_shaped. cbn [fst snd].
    split; [discriminate | split; [tauto | discriminate]]. }
  assert (Hpost : forall street,
    postal_shaped
      (street,
       fst match find is_postal w with
           | Some l => postal_of l
           | None => (None, None)
           end,
       snd match find is_postal w with
           | Some l => postal_of l
           | None => (None, None)
           end)).
  { intros street. destruct (find is_postal w) as [l |] eqn:Hf.
    - apply find_some in Hf. now apply postal_of_shaped.
    - apply Hnone. }
  unfold resolve. destruct (find survives w); [apply Hpost |].
  destruct (find is_full w) as [l |] eqn:Hf; [| apply Hpost].
  apply find_some in Hf. now apply full_of_shaped.
Qed.

(** X10. Postal code and city of a record come together or not at all;
    the postal code is four decimal digits and the city is trimmed. *)
Theorem postnr_by_shape :
  forall (page_lines : list str) (r : row),
    In r (parse_page page_lines) ->
    (forall p, Postnr r = Some p ->
               List.length p = 4%nat /\ forallb Unicode.isdecimal p = true)
    /\ (Postnr r = None <-> By r = None)
    /\ (forall c, By r = Some c -> Py.strip c = c).
Proof.
  intros page_lines r Hin. apply in_parse_page in Hin.
  destruct Hin as (i & ln & _ & Hrow). apply stop_row_inv in Hrow.
  destruct Hrow as (sm & _ & _ & ->). cbn [Postnr By].
  rewrite find_street_and_post_resolve. apply resolve_shaped.
Qed.

Lemma postnr_by_shape_witness :
  (forall p, Some (lit "8000") = Some p ->
             List.length p = 4%nat /\ forallb Unicode.isdecimal p = true)
  /\ (Some (lit "8000") = None <-> Some (lit "Aarhus") = None)
  /\ (forall c, Some (lit "Aarhus") = Some c -> Py.strip c = c).
Proof.
  apply (postnr_by_shape
           [lit "12345 Netto 8:00-9:00 1 10:00 10:30";
            lit "Vej 1"; lit "8000 Aarhus"]
           (Row (lit "Netto") (Some (lit "Vej 1")) (Some (lit "8000"))
                (Some (lit "Aarhus")) (Some (lit "10:00")) None None None None
                None)).
  vm_compute. left. reflexivity.
Defined.

(** ** Footer lines and the street search *)

Section Laxer.
Variable R : Type.

Lemma rep_loop_laxer (body body' : cursor -> caps -> cont R -> option R)
      (greedy : bool) (lo : nat) (hi : option nat) (k k' : cont R) :
  (forall (h h' : cont R),
      (forall c g g', h c g <> None -> h' c g' <> None) ->
      forall c g g', body c g h <> None -> body' c g' h' <> None) ->
  (forall c g g', k c g <> None -> k' c g' <> None) ->
  forall fuel cnt c g g',
    rep_loop body greedy lo hi k fuel cnt c g <> None ->
    rep_loop body' greedy lo hi k' fuel cnt c g' <> None.
Proof.
  intros Hb Hk. induction fuel as [| fuel IH]; intros cnt c g g' H;
    [now cbn in H |].
  cbn [rep_loop] in H |- *.
  assert (Hagain :
    body c g (fun c' g1 =>
                if Nat.ltb (c_idx c) (c_idx c')
                then rep_loop body greedy lo hi k fuel (S cnt) c' g1
                else None) <> None ->
    body' c g' (fun c' g1 =>
                  if Nat.ltb (c_idx c) (c_idx c')
                  then rep_loop body' greedy lo hi k' fuel (S cnt) c' g1
                  else None) <> None).
  { apply Hb. intros c1 g1 g1' H1.
    destruct (Nat.ltb (c_idx c) (c_idx c1)); [now apply (IH _ _ g1) | exact H1]. }
  destruct greedy.
  - destruct (under hi cnt).
    + destruct (body c g _) as [y |] eqn:Hy.
      * destruct (body' c g' _); [discriminate |].
        exfalso. now apply Hagain.
      * destruct (body' c g' _); [discriminate |].
        destruct (Nat.leb lo cnt); [now apply (Hk c g) | exact H].
    + destruct (Nat.leb lo cnt); [now apply (Hk c g) | exact H].
  - destruct (Nat.leb lo cnt).
    + destruct (k c g) as [y |] eqn:Hy.
      * destruct (k' c g') eqn:Hy'; [discriminate |].
        exfalso. apply (Hk c g g'); [now rewrite Hy | exact Hy'].
      * destruct (k' c g'); [discriminate |].
        destruct (under hi cnt); [now apply Hagain | exact H].
    + destruct (under hi cnt); [now apply Hagain | exact H].
Qed.

(** A laxer pattern matches wherever the pattern matches. *)
Lemma laxer_sim (r r' : regex) :
  laxer r r' ->
  forall (k k' : cont R),
    (forall c g g', k c g <> None -> k' c g' <> None) ->
    forall c g g', rmatch r c g k <> None -> rmatch r' c g' k' <> None.
Proof.
  induction 1 as [| a | a lo Hlo | p | r1 r2 r1' r2' _ IH1 _ IH2
                  | greedy lo hi r r' _ IH | n r r' _ IH | r r1' r2' _ IH];
    intros k k' Hk c g g' H.
  - now apply (Hk c g).
  - cbn [rmatch] in H |- *. destruct (c_rest c) as [| y ys]; [exact H |].
    destruct (y =? a); [now apply (Hk _ g) | exact H].
  - cbn [rmatch] in H |- *. destruct (c_rest c) as [| y ys]; [exact H |].
    destruct (Z.eqb_spec y a) as [-> | ]; [| now elim H].
    rewrite Hlo. now apply (Hk _ g).
  - cbn [rmatch] in H |- *. destruct (c_rest c) as [| y ys]; [exact H |].
    destruct (p y); [now apply (Hk _ g) | exact H].
  - change (rmatch r1 c g (fun c' g1 => rmatch r2 c' g1 k) <> None) in H.
    change (rmatch r1' c g' (fun c' g1 => rmatch r2' c' g1 k') <> None).
    apply (IH1 (fun c' g1 => rmatch r2 c' g1 k)
               (fun c' g1 => rmatch r2' c' g1 k')) with (g := g); [| exact H].
    intros c1 g1 g1'. now apply IH2.
  - rewrite rep_eq in H |- *.
    apply (rep_loop_laxer (rmatch r) (rmatch r') greedy lo hi k k') with (g := g);
      [| exact Hk | exact H].
    intros h h' Hh c1 g1 g1'. now apply IH.
  - rewrite grp_eq.
    apply (IH k (fun c' g1 =>
                   k' c' ((n, firstn (c_idx c' - c_idx c) (c_rest c)) :: g1)))
      with (g := g); [| exact H].
    intros c1 g1 g1'. apply Hk.
  - cbn [rmatch]. destruct (rmatch r1' c g' k'); [discriminate |].
    now apply (IH k k' Hk c g).
Qed.

End Laxer.

Lemma search_loop_laxer (r r' : regex) (s : str) :
  laxer r r' ->
  forall i prev,
    search_loop r i prev s <> None -> search_loop r' i prev s <> None.
Proof.
  intros Hl.
  assert (Hm : forall c, match_at r c <> None -> match_at r' c <> None).
  { intros c. unfold match_at.
    apply (laxer_sim rematch r r' Hl); intros; discriminate. }
  induction s as [| x xs IH]; intros i prev H; cbn [search_loop] in H |- *.
  - destruct (match_at r' (Cursor i prev [])) eqn:E'; [discriminate |].
    destruct (match_at r (Cursor i prev [])) eqn:E; [| exact H].
    exfalso. apply (Hm (Cursor i prev [])); [now rewrite E | exact E'].
  - destruct (match_at r' (Cursor i prev (x :: xs))) eqn:E'; [discriminate |].
    destruct (match_at r (Cursor i prev (x :: xs))) eqn:E.
    + exfalso. apply (Hm (Cursor i prev (x :: xs))); [now rewrite E | exact E'].
    + now apply IH.
Qed.

Lemma footer_laxer : laxer footer_re HEADER_FOOTER_PAT.
Proof.
  unfold HEADER_FOOTER_PAT. apply laxer_grp. cbn [alts].
  do 13 apply laxer_alt.
  unfold footer_re, lits, lits_i, plus, space, digit.
  cbv [lit map seq String.list_ascii_of_string].
  repeat (first [apply laxer_cat | apply laxer_rep | apply laxer_cls
                | apply laxer_lit_i; vm_compute; reflexivity]).
Qed.

Lemma footer_is_noise (ln : str) : is_footer ln = true -> is_noise ln = true.
Proof.
  unfold is_footer, is_noise, search, search_from, found. intros H.
  pose proof (search_loop_laxer footer_re HEADER_FOOTER_PAT
                (c_rest (start_of ln)) footer_laxer
                (c_idx (start_of ln)) (c_prev (start_of ln))) as Hs.
  destruct (search_loop HEADER_FOOTER_PAT _ _ _); [reflexivity |].
  exfalso. apply Hs; [| reflexivity].
  destruct (search_loop footer_re _ _ _); discriminate.
Qed.

(** X11. A line that closes a page is report chrome for the address
    search: the search for the street and the search for a full address
    line pass over it. *)
Theorem footer_never_street :
  forall (ln : str) (w : list str),
    is_footer ln = true ->
    is_noise ln = true
    /\ scan_street (ln :: w) = scan_street w
    /\ scan_full (ln :: w) = scan_full w.
Proof.
  intros ln w H. apply footer_is_noise in H. split; [exact H |]. split.
  - cbn [scan_street]. rewrite H. now rewrite orb_true_r.
  - cbn [scan_full]. rewrite H. cbn [negb]. now destruct (search full_re ln).
Qed.

Lemma footer_never_street_witness :
  is_noise (lit "Side 1 af 2") = true
  /\ scan_street (lit "Side 1 af 2" :: [lit "Vej 1"]) = scan_street [lit "Vej 1"]
  /\ scan_full (lit "Side 1 af 2" :: [lit "Vej 1"]) = scan_full [lit "Vej 1"].
Proof.
  apply (footer_never_street (lit "Side 1 af 2") [lit "Vej 1"]).
  vm_compute. reflexivity.
Defined.

(** ** Header lines and the street search *)

(** A pattern that is laxer than the beginning of another matches at
    every position where the other matches, when nothing has to follow. *)
Lemma laxer_start_sim (R : Type) (r r' : regex) :
  laxer_start r r' ->
  forall (k k' : cont R),
    (forall c g, k' c g <> None) ->
    forall c g g', rmatch r c g k <> None -> rmatch r' c g' k' <> None.
Proof.
  induction 1 as [r r' Hl | r r2 r' _ IH | r1 r2 r1' r2' Hl _ IH
                  | n r r' _ IH | r r1' r2' _ IH | r r1' r2' _ IH];
    intros k k' Hk c g g' H.
  - apply (laxer_sim R r r' Hl k k') with (g := g); [| exact H].
    intros c1 g1 g1' _. apply Hk.
  - change (rmatch r c g (fun c' g1 => rmatch r2 c' g1 k) <> None) in H.
    exact (IH (fun c' g1 => rmatch r2 c' g1 k) k' Hk c g g' H).
  - change (rmatch r1 c g (fun c' g1 => rmatch r2 c' g1 k) <> None) in H.
    change (rmatch r1' c g' (fun c' g1 => rmatch r2' c' g1 k') <> None).
    apply (laxer_sim R r1 r1' Hl (fun c' g1 => rmatch r2 c' g1 k)
                     (fun c' g1 => rmatch r2' c' g1 k')) with (g := g);
      [| exact H].
    intros c1 g1 g1'. now apply IH.
  - rewrite grp_eq.
    apply (IH k (fun c' g1 =>
                   k' c' ((n, firstn (c_idx c' - c_idx c) (c_rest c)) :: g1)))
      with (g := g); [| exact H].
    intros c1 g1. apply Hk.
  - cbn [rmatch]. destruct (rmatch r1' c g' k') eqn:E; [discriminate |].
    exfalso. revert E. now apply (IH k k' Hk c g).
  - cbn [rmatch]. destruct (rmatch r1' c g' k'); [discriminate |].
    now apply (IH k k' Hk c g).
Qed.

Lemma search_laxer_start (r r' : regex) (ln : str) :
  laxer_start r r' ->
  found (search r ln) = true -> found (search r' ln) = true.
Proof.
  intros Hl.
  assert (Hm : forall c, match_at r c <> None -> match_at r' c <> None).
  { intros c. unfold match_at.
    apply (laxer_start_sim rematch r r' Hl); intros; discriminate. }
  unfold search, search_from, start_of. cbn [c_idx c_prev c_rest].
  generalize 0%nat (@None char).
  induction ln as [| x xs IH]; intros i prev H; cbn [search_loop] in H |- *.
  - destruct (match_at r' (Cursor i prev [])) eqn:E'; [reflexivity |].
    destruct (match_at r (Cursor i prev [])) eqn:E; [| discriminate].
    exfalso. apply (Hm (Cursor i prev [])); [now rewrite E | exact E'].
  - destruct (match_at r' (Cursor i prev (x :: xs))) eqn:E'; [reflexivity |].
    destruct (match_at r (Cursor i prev (x :: xs))) eqn:E.
    + exfalso. apply (Hm (Cursor i prev (x :: xs))); [now rewrite E | exact E'].
    + now apply IH.
Qed.

Ltac laxer_letters :=
  repeat (first [ apply laxer_start_cat; [apply laxer_lit_i; vm_compute; reflexivity |]
                | apply laxer_start_cut; apply laxer_start_all;
                  apply laxer_lit_i; vm_compute; reflexivity ]).

Lemma host_laxer : laxer_start host_re HEADER_FOOTER_PAT.
Proof.
  unfold HEADER_FOOTER_PAT. apply laxer_start_grp. cbn [alts].
  do 5 apply laxer_start_alt_r. apply laxer_start_alt_l.
  unfold host_re, lits, lits_i.
  cbv [lit map seq String.list_ascii_of_string].
  apply laxer_start_cut. laxer_letters.
Qed.

Lemma port_laxer : laxer_start port_re HEADER_FOOTER_PAT.
Proof.
  unfold HEADER_FOOTER_PAT. apply laxer_start_grp. cbn [alts].
  do 4 apply laxer_start_alt_r. apply laxer_start_alt_l.
  unfold port_re, lits, lits_i.
  cbv [lit map seq app String.list_ascii_of_string].
  do 2 (apply laxer_start_cat; [apply laxer_lit_i; vm_compute; reflexivity |]).
  apply laxer_start_cut. laxer_letters.
Qed.

Lemma start_laxer : laxer_start start_re HEADER_FOOTER_PAT.
Proof.
  unfold HEADER_FOOTER_PAT. apply laxer_start_grp. cbn [alts].
  do 8 apply laxer_start_alt_r. apply laxer_start_alt_l.
  unfold start_re, lits, lits_i.
  cbv [lit map seq String.list_ascii_of_string].
  apply laxer_start_cut. laxer_letters.
Qed.

Lemma slut_laxer : laxer_start slut_re HEADER_FOOTER_PAT.
Proof.
  unfold HEADER_FOOTER_PAT. apply laxer_start_grp. cbn [alts].
  do 10 apply laxer_start_alt_r. apply laxer_start_alt_l.
  unfold slut_re, lits, lits_i.
  cbv [lit map seq String.list_ascii_of_string].
  apply laxer_start_cut. laxer_letters.
Qed.

(** X12. A line that gives the page its route number, gate, start time
    or end time is report chrome, so the street search passes over it.
    A line that gives the settlement time is not: it can be taken for
    the street of a stop. *)
Theorem header_lines_noise :
  forall ln : str,
    found (search host_re ln) = true \/ found (search port_re ln) = true
    \/ found (search start_re ln) = true \/ found (search slut_re ln) = true ->
    (is_noise ln = true /\ forall w, scan_street (ln :: w) = scan_street w)
    /\ found (search afr_re (lit "AFREGNINGSTID: 90")) = true
    /\ scan_street [lit "AFREGNINGSTID: 90"; lit "Vej 1"]
       = Some (lit "AFREGNINGSTID: 90").
Proof.
  intros ln H. split; [| split; vm_compute; reflexivity].
  assert (Hn : is_noise ln = true).
  { unfold is_noise. destruct H as [H | [H | [H | H]]]; revert H.
    - apply search_laxer_start, host_laxer.
    - apply search_laxer_start, port_laxer.
    - apply search_laxer_start, start_laxer.
    - apply search_laxer_start, slut_laxer. }
  split; [exact Hn |]. intros w. cbn [scan_street]. rewrite Hn.
  now rewrite orb_true_r.
Qed.

Lemma header_lines_noise_witness :
  (is_noise (lit "HOSTRUTE: 12") = true
   /\ forall w, scan_street (lit "HOSTRUTE: 12" :: w) = scan_street w)
  /\ found (search afr_re (lit "AFREGNINGSTID: 90")) = true
  /\ scan_street [lit "AFREGNINGSTID: 90"; lit "Vej 1"]
     = Some (lit "AFREGNINGSTID: 90").
Proof.
  apply (header_lines_noise (lit "HOSTRUTE: 12")).
  left. vm_compute. reflexivity.
Defined.

(** ** The workbook: groups of rows *)

Lemma str_eqb_eq (a b : str) : Py.str_eqb a b = true <-> a = b.
Proof.
  unfold Py.str_eqb. revert b.
  induction a as [| x a IH]; intros [| y b]; cbn; try (split; [discriminate | discriminate]).
  - tauto.
  - specialize (IH b). destruct (Nat.eqb (List.length a) (List.length b)) eqn:El;
      cbn [andb] in *.
    + destruct (Z.eqb_spec x y) as [-> | Hne]; cbn [andb].
      * split; [intros H; f_equal; now apply IH | intros H; inversion H; subst; now apply IH].
      * split; [discriminate | intros H; inversion H; contradiction].
    + split; [discriminate |]. intros H. inversion H; subst.
      now rewrite Nat.eqb_refl in El.
Qed.

Lemma ostr_eqb_spec (a b : Excel.route) : reflect (a = b) (ostr_eqb a b).
Proof.
  destruct a as [x |], b as [y |]; cbn [ostr_eqb]; try (constructor; congruence).
  destruct (Py.str_eqb x y) eqn:E; constructor.
  - f_equal. now apply str_eqb_eq.
  - intros H. inversion H; subst. pose proof (proj2 (str_eqb_eq y y) eq_refl).
    congruence.
Qed.


Lemma ostr_eqb_sym (a b : Excel.route) : ostr_eqb a b = ostr_eqb b a.
Proof.
  destruct (ostr_eqb_spec a b), (ostr_eqb_spec b a); congruence.
Qed.

Lemma dict_mem_in (k : route) (d : rows_dict) :
  dict_mem k d = true <-> In k (map fst d).
Proof.
  induction d as [| [k' v] d IH]; cbn [dict_mem map fst In]; [split; [discriminate | tauto] |].
  destruct (ostr_eqb_spec k k') as [-> | Hne]; cbn [orb].
  - split; [now left | reflexivity].
  - rewrite IH. split; [now right | intros [E | H]; [congruence | exact H]].
Qed.

Lemma set_last_keys (k : route) (v : nat) (d : rows_dict) :
  map fst (set_last k v d) = map fst d.
Proof.
  induction d as [| [k' [f l]] d IH]; [reflexivity |]. cbn [set_last].
  destruct (ostr_eqb k k'); cbn [map fst]; [reflexivity | now rewrite IH].
Qed.

Lemma dict_set_keys (k : route) (v : nat * nat) (d : rows_dict) :
  map fst (dict_set k v d)
  = if dict_mem k d then map fst d else map fst d ++ [k].
Proof.
  induction d as [| [k' v'] d IH]; [reflexivity |]. cbn [dict_set dict_mem].
  destruct (ostr_eqb k k'); cbn [orb map fst]; [reflexivity |].
  rewrite IH. now destruct (dict_mem k d).
Qed.

Lemma in_set_last (k : route) (v : nat) (d : rows_dict) :
  NoDup (map fst d) ->
  forall k' f' l',
    In (k', (f', l')) (set_last k v d)
    <-> (k' <> k /\ In (k', (f', l')) d)
        \/ (k' = k /\ l' = v /\ exists l0, In (k, (f', l0)) d).
Proof.
  induction d as [| [k0 [f0 l0]] d IH]; intros Hnd k' f' l'.
  - cbn. split; [tauto | intros [[_ []] | (_ & _ & l & [])]].
  - cbn [map fst] in Hnd. inversion Hnd as [| ? ? Hnotin Hnd']; subst.
    cbn [set_last]. destruct (ostr_eqb_spec k k0) as [<- | Hne].
    + cbn [In]. split.
      * intros [E | Hin].
        -- inversion E; subst. right. repeat split. exists l0. now left.
        -- left. split; [| now right]. intros ->.
           apply Hnotin. apply in_map_iff. now exists (k, (f', l')).
      * intros [[Hk [E | Hin]] | (-> & -> & l1 & [E | Hin])].
        -- inversion E; subst. contradiction.
        -- now right.
        -- inversion E; subst. now left.
        -- exfalso. apply Hnotin. apply in_map_iff. now exists (k, (f', l1)).
    + cbn [In]. rewrite (IH Hnd'). split.
      * intros [E | [[Hk Hin] | (-> & -> & l1 & Hin)]].
        -- inversion E; subst. left. split; [congruence | now left].
        -- left. split; [exact Hk | now right].
        -- right. repeat split. exists l1. now right.
      * intros [[Hk [E | Hin]] | (-> & -> & l1 & [E | Hin])].
        -- now left.
        -- right. left. now split.
        -- inversion E; subst. contradiction.
        -- right. right. repeat split. now exists l1.
Qed.

Lemma in_dict_set (k : route) (v : nat * nat) (d : rows_dict) :
  NoDup (map fst d) ->
  forall k' v',
    In (k', v') (dict_set k v d)
    <-> (k' <> k /\ In (k', v') d) \/ (k' = k /\ v' = v).
Proof.
  induction d as [| [k0 v0] d IH]; intros Hnd k' v'.
  - cbn. split.
    + intros [E | []]. inversion E; subst. now right.
    + intros [[_ []] | [-> ->]]. now left.
  - cbn [map fst] in Hnd. inversion Hnd as [| ? ? Hnotin Hnd']; subst.
    cbn [dict_set]. destruct (ostr_eqb_spec k k0) as [<- | Hne].
    + cbn [In]. split.
      * intros [E | Hin].
        -- inversion E; subst. now right.
        -- left. split; [| now right]. intros ->.
           apply Hnotin. apply in_map_iff. now exists (k, v').
      * intros [[Hk [E | Hin]] | [-> ->]].
        -- inversion E; subst. contradiction.
        -- now right.
        -- now left.
    + cbn [In]. rewrite (IH Hnd'). split.
      * intros [E | [[Hk Hin] | [-> ->]]].
        -- inversion E; subst. left. split; [congruence | now left].
        -- left. split; [exact Hk | now right].
        -- now right.
      * intros [[Hk [E | Hin]] | [-> ->]].
        -- now left.
        -- right. left. now split.
        -- right. now right.
Qed.

Lemma set_last_absent (k : route) (v : nat) (d : rows_dict) :
  dict_mem k d = false -> set_last k v d = d.
Proof.
  induction d as [| [k' [f l]] d IH]; [reflexivity |]. cbn [dict_mem set_last].
  destruct (ostr_eqb k k'); cbn [orb]; [discriminate |].
  intros H. now rewrite IH.
Qed.

Lemma set_last_same (k : route) (v : nat) (d : rows_dict) :
  (forall f l, In (k, (f, l)) d -> l = v) -> set_last k v d = d.
Proof.
  induction d as [| [k' [f l]] d IH]; [reflexivity |]. intros H. cbn [set_last].
  destruct (ostr_eqb_spec k k') as [<- | Hne].
  - now rewrite (H f l (or_introl eq_refl)).
  - rewrite IH; [reflexivity |]. intros f' l' Hin. apply (H f' l'). now right.
Qed.

Lemma nth_error_last (rs : list route) (d : route) :
  rs <> [] -> nth_error rs (List.length rs - 1) = Some (last rs d).
Proof.
  induction rs as [| x l _] using rev_ind; [contradiction |]. intros _.
  rewrite length_app, last_last. cbn [List.length].
  replace (List.length l + 1 - 1)%nat with (List.length l) by lia.
  rewrite nth_error_app2 by lia. now rewrite Nat.sub_diag.
Qed.

Lemma nth_error_snoc (rs : list route) (x : route) (i : nat) :
  nth_error (rs ++ [x]) i
  = if Nat.ltb i (List.length rs) then nth_error rs i
    else if Nat.eqb i (List.length rs) then Some x else None.
Proof.
  destruct (Nat.ltb_spec i (List.length rs)).
  - now apply nth_error_app1.
  - rewrite nth_error_app2 by lia. destruct (Nat.eqb_spec i (List.length rs)).
    + subst. now rewrite Nat.sub_diag.
    + destruct (i - List.length rs)%nat as [| m] eqn:E; [lia |].
      cbn. now destruct m.
Qed.

(** What the loop keeps true of its variables. *)
Lemma track_inv (rs : list route) :
  let st := fold_left track rs after_header in
  max_row st = S (List.length rs)
  /\ prev_rutenummer st = last rs None
  /\ NoDup (map fst (route_rows st))
  /\ (forall e, In e (route_rows st) -> run_of rs e)
  /\ (forall f l, In (last rs None, (f, l)) (route_rows st)
                  -> l = S (List.length rs)).
Proof.
  induction rs as [| x rs IH] using rev_ind.
  - cbn. repeat split; try constructor; intros; contradiction.
  - cbn zeta in IH |- *. rewrite fold_left_app. cbn [fold_left].
    destruct (fold_left track rs after_header) as [rr prev mr].
    cbn [max_row prev_rutenummer route_rows] in IH.
    destruct IH as (Hmr & Hprev & Hnd & Hrun & Hlast). subst mr prev.
    rewrite last_last, length_app. cbn [List.length].
    replace (List.length rs + 1)%nat with (S (List.length rs)) by lia.
    set (n := List.length rs) in *.
    assert (Hold : forall k f l,
      In (k, (f, l)) rr -> k <> x \/ (l < S n)%nat -> run_of (rs ++ [x]) (k, (f, l))).
    { intros k f l Hin Hk. destruct (Hrun _ Hin) as (Hfl & Hln & Hrows & Hleft & Hright).
      cbn [fst snd] in *. unfold run_of. cbn [fst snd].
      rewrite length_app. cbn [List.length]. fold n.
      split; [lia | split; [lia | split; [| split]]].
      - intros j Hj. rewrite nth_error_snoc. fold n.
        destruct (Nat.ltb_spec (j - 2) n); [now apply Hrows | lia].
      - intros Hf. rewrite nth_error_snoc. fold n.
        destruct (Nat.ltb_spec (f - 3) n); [now apply Hleft | lia].
      - rewrite nth_error_snoc. fold n.
        destruct (Nat.ltb_spec (l - 1) n); [exact Hright |].
        destruct (Nat.eqb_spec (l - 1) n); [| discriminate].
        destruct Hk as [Hk | Hk]; [congruence | lia]. }
    unfold track. cbn [max_row prev_rutenummer route_rows].
    destruct (ostr_eqb_spec x (last rs None)) as [Ex | Hne]; cbn [negb].
    + (* the run goes on *)
      assert (Err : (if dict_mem x rr then set_last x (S (S n)) rr else rr)
                    = set_last x (S (S n)) rr).
      { destruct (dict_mem x rr) eqn:Em; [reflexivity |].
        now rewrite set_last_absent. }
      rewrite Err. cbn [max_row prev_rutenummer route_rows].
      split; [reflexivity | split; [now symmetry |]].
      split; [now rewrite set_last_keys |]. split.
      * intros [k [f l]] Hin. apply (in_set_last x _ rr Hnd) in Hin.
        destruct Hin as [[Hk Hin] | (-> & -> & l0 & Hin)].
        -- apply Hold; [exact Hin | now left].
        -- pose proof Hin as Hin'. rewrite Ex in Hin'. apply Hlast in Hin'.
           subst l0.
           destruct (Hrun _ Hin) as (Hfl & Hln & Hrows & Hleft & Hright).
           cbn [fst snd] in *. unfold run_of. cbn [fst snd].
           rewrite length_app. cbn [List.length]. fold n.
           split; [lia | split; [lia | split; [| split]]].
           ++ intros j Hj. rewrite nth_error_snoc. fold n.
              destruct (Nat.ltb_spec (j - 2) n); [apply Hrows; lia |].
              destruct (Nat.eqb_spec (j - 2) n); [reflexivity | lia].
           ++ intros Hf. rewrite nth_error_snoc. fold n.
              destruct (Nat.ltb_spec (f - 3) n); [now apply Hleft | lia].
           ++ rewrite nth_error_snoc. fold n.
              destruct (Nat.ltb_spec (S (S n) - 1) n); [lia |].
              destruct (Nat.eqb_spec (S (S n) - 1) n); [lia | discriminate].
      * intros f l Hin. apply (in_set_last x _ rr Hnd) in Hin.
        destruct Hin as [[Hk _] | (_ & -> & _)]; [contradiction | reflexivity].
    + (* another run begins *)
      assert (Ecl : match last rs None with
                    | Some _ =>
                        if dict_mem (last rs None) rr
                        then set_last (last rs None) (S (S n) - 1) rr
                        else rr
                    | None => rr
                    end = rr).
      { destruct (last rs None) as [p |] eqn:El; [| reflexivity].
        destruct (dict_mem (Some p) rr); [| reflexivity].
        apply set_last_same. intros f l Hin. apply Hlast in Hin. lia. }
      rewrite Ecl. cbn [max_row prev_rutenummer route_rows].
      split; [reflexivity | split; [reflexivity |]]. split.
      * rewrite dict_set_keys. destruct (dict_mem x rr) eqn:Em; [exact Hnd |].
        apply NoDup_app; [exact Hnd | repeat constructor; intros [] |].
        intros k Hk [<- | []]. apply dict_mem_in in Hk. congruence.
      * split.
        -- intros [k [f l]] Hin. apply (in_dict_set x _ rr Hnd) in Hin.
           destruct Hin as [[Hk Hin] | [-> E]].
           ++ apply Hold; [exact Hin | now left].
           ++ inversion E; subst f l. unfold run_of. cbn [fst snd].
              rewrite length_app. cbn [List.length]. fold n.
              split; [lia | split; [lia | split; [| split]]].
              ** intros j Hj. rewrite nth_error_snoc. fold n.
                 destruct (Nat.ltb_spec (j - 2) n); [lia |].
                 destruct (Nat.eqb_spec (j - 2) n); [reflexivity | lia].
              ** intros Hf. rewrite nth_error_snoc. fold n.
                 destruct (Nat.ltb_spec (S (S n) - 3) n); [| lia].
                 replace (S (S n) - 3)%nat with (n - 1)%nat by lia.
                 unfold n. rewrite (nth_error_last rs None).
                 --- intros E'. inversion E'. congruence.
                 --- intros ->. cbn in n. lia.
              ** rewrite nth_error_snoc. fold n.
                 destruct (Nat.ltb_spec (S (S n) - 1) n); [lia |].
                 destruct (Nat.eqb_spec (S (S n) - 1) n); [lia | discriminate].
        -- intros f l Hin. apply (in_dict_set x _ rr Hnd) in Hin.
           destruct Hin as [[Hk _] | [_ E]]; [contradiction |].
           now inversion E.
Qed.

Lemma group_rows_inv (rs : list route) :
  NoDup (map fst (group_rows rs))
  /\ (forall e, In e (group_rows rs) -> run_of rs e)
  /\ (forall f l, In (last rs None, (f, l)) (group_rows rs)
                  -> l = S (List.length rs)).
Proof.
  pose proof (track_inv rs) as H. cbn zeta in H. unfold group_rows. tauto.
Qed.

















(** X13. The groups the loop over the rows leaves behind have distinct
    route numbers, and every group is a run of data rows that all carry
    its route number, with other route numbers next to it. *)
Theorem group_rows_runs :
  forall routes : list route,
    NoDup (map fst (group_rows routes))
    /\ Forall (run_of routes) (group_rows routes).
Proof.
  intros routes. destruct (group_rows_inv routes) as (Hnd & Hrun & _).
  split; [exact Hnd | now apply Forall_forall].
Qed.






